(** * RAG-Synapse: a shallow embedding of the ingestion and retrieval core

    The development follows the backend package of the repository:

    - [backend/routes/chat.py]          greeting detection and the chat pipeline,
    - [backend/config.py]               [get_embedding],
    - [backend/services/document_processor.py]  text extraction,
    - [backend/services/vector_store.py]  ingestion, search, deletion, catalog,
    - [backend/routes/documents.py]     the document routes,
    - [main.py]                         the older single-file pipeline (module [Legacy]).

    Python [str] values are modelled as [string] read as sequences of code
    points below 256 (Latin-1); Python [float] values are IEEE-754 binary64
    numbers, modelled by the kernel's primitive floats.  Exceptions are values
    of type [exn] threaded through a state-and-error monad whose state holds
    the vector collection, the supply of fresh identifiers and the log of
    calls made to the external services. *)

From Stdlib Require Import String Ascii Bool Arith ZArith Lia PrimFloat List.
From Stdlib Require Import Sorting.Sorted Sorting.Permutation.
From Stdlib Require DecimalString DecimalNat DecimalFacts.
From Stdlib Require FloatAxioms SpecFloat.
Import ListNotations.

Set Warnings "-inexact-float".
Local Open Scope string_scope.
Local Open Scope list_scope.
Local Open Scope nat_scope.

(** ** Python string operations *)

Module PyStr.

(** [str.isspace] on one code point below 256: TAB..CR, FS..US, space,
    NEL and NBSP. *)
Definition isspace (c : ascii) : bool :=
  let n := nat_of_ascii c in
  ((9 <=? n) && (n <=? 13)) || ((28 <=? n) && (n <=? 32))
  || (n =? 133) || (n =? 160).

(** [str.lower] on one code point below 256: A..Z and the Latin-1 capitals
    (U+00C0..U+00DE without the multiplication sign U+00D7) move up by 32. *)
Definition lower_char (c : ascii) : ascii :=
  let n := nat_of_ascii c in
  if ((65 <=? n) && (n <=? 90))
     || ((192 <=? n) && (n <=? 222) && negb (n =? 215))
  then ascii_of_nat (n + 32) else c.

Fixpoint lower (s : string) : string :=
  match s with
  | EmptyString => EmptyString
  | String c r => String (lower_char c) (lower r)
  end.

Fixpoint lstrip (s : string) : string :=
  match s with
  | EmptyString => EmptyString
  | String c r => if isspace c then lstrip r else s
  end.

Definition is_empty (s : string) : bool :=
  match s with EmptyString => true | _ => false end.

Fixpoint rstrip (s : string) : string :=
  match s with
  | EmptyString => EmptyString
  | String c r =>
      let r' := rstrip r in
      if isspace c && is_empty r' then EmptyString else String c r'
  end.

(** [s.strip()] *)
Definition strip (s : string) : string := rstrip (lstrip s).

(** [s.split()]: maximal runs of non-whitespace, [tok] being the run read
    so far. *)
Fixpoint split_from (tok : string) (s : string) : list string :=
  match s with
  | EmptyString => if is_empty tok then [] else [tok]
  | String c r =>
      if isspace c
      then (if is_empty tok then split_from "" r else tok :: split_from "" r)
      else split_from (tok ++ String c "")%string r
  end.

Definition split (s : string) : list string := split_from "" s.

(** [s.startswith(p)] *)
Definition startswith (s p : string) : bool := String.prefix p s.

(** [x in l] for a list of strings *)
Definition mem (x : string) (l : list string) : bool :=
  existsb (String.eqb x) l.

(** [str(n)] for a non-negative integer *)
Definition of_nat (n : nat) : string :=
  DecimalString.NilZero.string_of_uint (Nat.to_uint n).

(** [sep.join(l)] *)
Fixpoint join (sep : string) (l : list string) : string :=
  match l with
  | [] => ""
  | [x] => x
  | x :: r => (x ++ sep ++ join sep r)%string
  end.

End PyStr.

(** ** [backend/routes/chat.py]: greeting detection *)

Definition greetings : list string :=
  ["hello"; "hi"; "hey"; "how are you"; "how are u"; "how're you"; "how're u";
   "what's up"; "whats up"; "greetings"; "good morning"; "good afternoon";
   "good evening"; "good night"; "sup"; "yo"; "hows it going"; "how's it going"].

Definition is_simple_greeting (query : string) : bool :=
  let query_lower := PyStr.strip (PyStr.lower query) in
  if PyStr.mem query_lower greetings
     || (length (PyStr.split query_lower) <=? 2)
  then true
  else existsb (fun greeting => PyStr.startswith query_lower greeting) greetings.


(** ** Data model *)

(** The metadata stored with every chunk ([all_metadatas] entries). *)
Record metadata := {
  doc_id : string;
  file_name : string;
  page : nat;
  chunk_id : nat;
  upload_timestamp : option string        (* [None] is Python's [None] *)
}.

(** One entry of the ChromaDB collection: id, embedding, metadata, document. *)
Record row := {
  row_id : string;
  row_embedding : list float;
  row_metadata : metadata;
  row_document : string
}.

(** [backend/models.py] *)
Record ChatRequest := { query : string; top_k : option Z }.

Record source := {
  src_file_name : string;
  src_page : nat;
  src_chunk_id : nat;
  src_score : float;
  src_text : string
}.

Record ChatResponse := { answer : string; sources : list source }.

(** The payload and the formatted result built by [search_similar_chunks]. *)
Record payload := {
  p_file_name : string;
  p_page : nat;
  p_chunk_id : nat;
  p_text : string;
  p_doc_id : string
}.

Record search_result := {
  sr_id : string;
  sr_score : float;
  sr_payload : payload
}.

(** The dictionary returned by [collection.query]: one inner list per query
    embedding; the keys ['distances'] and ['documents'] may be absent. *)
Record QueryResult := {
  qr_ids : list (list string);
  qr_distances : option (list (list float));
  qr_metadatas : list (list metadata);
  qr_documents : option (list (list string))
}.

(** What [client.feature_extraction] returns once turned into an array: one
    vector, or a batch of vectors (an array of two dimensions). *)
Inductive raw_embedding :=
| Vector (v : list float)
| Batch (rows : list (list float)).

(** ** Exceptions and effects *)

Inductive exn :=
| ValueError (msg : string)
| HTTPException (status_code : nat) (detail : string)
| IndexError (msg : string)
| Exception (msg : string).   (* any other exception of a library *)

(** [str(e)] *)
Definition exn_str (e : exn) : string :=
  match e with
  | ValueError m | IndexError m | Exception m => m
  | HTTPException c d => (PyStr.of_nat c ++ ": " ++ d)%string
  end.

Inductive result (A : Type) :=
| Ok (a : A)
| Raise (e : exn).
Arguments Ok {A} a.
Arguments Raise {A} e.

(** Calls to the external collaborators, in the order they are made. *)
Inductive call :=
| CallCompletions (messages : list (string * string)) (temperature : float)
| CallFeatureExtraction (text : string)
| CallQuery (query_embedding : list float) (n_results : option Z)
| CallAdd (batch : list row)
| CallGet (where_doc_id : option string)
| CallDelete (ids : list string)
| CallPdfReader (file_path : string)
| CallDocxDocument (file_path : string)
| CallOpen (file_path : string)
| CallSplitText (text : string).

(** The process state: the collection, the number of identifiers drawn from
    [uuid.uuid4], the module-level client caches of [config.py] and the log
    of calls. *)
Record world := {
  collection : list row;
  uuids : nat;
  llm_client : option string;
  llm_error : option string;
  embeddings_client : option string;
  embeddings_error : option string;
  calls : list call
}.

(** The external collaborators.  Every one of them may answer differently
    from one call to the next, so each takes the log of the calls so far. *)
Record services := {
  getenv : string -> option string;
  OpenAI : string -> result string;
  InferenceClient : option string -> string -> result string;
  completions_create :
    list call -> list (string * string) -> float -> result string;
  feature_extraction : list call -> string -> result raw_embedding;
  pdf_pages : list call -> string -> result (list string);
  docx_paragraphs : list call -> string -> result (list string);
  txt_read : list call -> string -> result string;
  text_splitter_split_text : list call -> string -> result (list string);
  get_collection_error : list call -> option exn;
  collection_add_error : list call -> list row -> option exn;
  collection_query :
    list call -> list row -> list float -> option Z -> result QueryResult
}.

Definition M (A : Type) : Type := world -> result A * world.

Definition ret {A} (a : A) : M A := fun w => (Ok a, w).
Definition raise {A} (e : exn) : M A := fun w => (Raise e, w).
Definition bind {A B} (m : M A) (k : A -> M B) : M B :=
  fun w => match m w with
           | (Ok a, w') => k a w'
           | (Raise e, w') => (Raise e, w')
           end.
(** [try: m except E as e: h e], [h] deciding which exceptions it takes. *)
Definition try_except {A} (m : M A) (h : exn -> option (M A)) : M A :=
  fun w => match m w with
           | (Ok a, w') => (Ok a, w')
           | (Raise e, w') =>
               match h e with
               | Some k => k w'
               | None => (Raise e, w')
               end
           end.
Definition lift {A} (r : result A) : M A := fun w => (r, w).
Definition get_world : M world := fun w => (Ok w, w).
Definition set_calls (l : list call) (w : world) : world :=
  {| collection := collection w; uuids := uuids w;
     llm_client := llm_client w; llm_error := llm_error w;
     embeddings_client := embeddings_client w;
     embeddings_error := embeddings_error w; calls := l |}.
Definition set_collection (c : list row) (w : world) : world :=
  {| collection := c; uuids := uuids w;
     llm_client := llm_client w; llm_error := llm_error w;
     embeddings_client := embeddings_client w;
     embeddings_error := embeddings_error w; calls := calls w |}.
Definition set_uuids (n : nat) (w : world) : world :=
  {| collection := collection w; uuids := n;
     llm_client := llm_client w; llm_error := llm_error w;
     embeddings_client := embeddings_client w;
     embeddings_error := embeddings_error w; calls := calls w |}.
Definition set_llm (c e : option string) (w : world) : world :=
  {| collection := collection w; uuids := uuids w;
     llm_client := c; llm_error := e;
     embeddings_client := embeddings_client w;
     embeddings_error := embeddings_error w; calls := calls w |}.
Definition set_embeddings (c e : option string) (w : world) : world :=
  {| collection := collection w; uuids := uuids w;
     llm_client := llm_client w; llm_error := llm_error w;
     embeddings_client := c; embeddings_error := e; calls := calls w |}.

Definition log (c : call) : M unit :=
  fun w => (Ok tt, set_calls (calls w ++ [c]) w).

Notation "x <- m ;; k" := (bind m (fun x => k))
  (at level 61, m at next level, right associativity).
Notation "m ;;; k" := (bind m (fun _ => k))
  (at level 61, right associativity).

(** Python truthiness of an optional string. *)
Definition truthy (s : option string) : bool :=
  match s with
  | Some s => negb (PyStr.is_empty s)
  | None => false
  end.

Definition nl : string := String (ascii_of_nat 10) EmptyString.

(** ** [backend/config.py] *)

Section Config.

Variable svc : services.

(** A call to a service: logged, then answered from the log so far. *)
Definition external {A} (c : call) (f : list call -> result A) : M A :=
  fun w => (f (calls w), set_calls (calls w ++ [c]) w).

Definition get_llm_client : M (option string) :=
  fun w =>
    let w1 :=
      match llm_client w, llm_error w with
      | None, None =>
          let DEEPSEEK_API_KEY := getenv svc "DEEPSEEK_API_KEY" in
          let r :=
            match DEEPSEEK_API_KEY with
            | Some key =>
                if PyStr.is_empty key
                then Raise (ValueError
                  "DEEPSEEK_API_KEY not found in environment variables")
                else OpenAI svc key
            | None => Raise (ValueError
                  "DEEPSEEK_API_KEY not found in environment variables")
            end in
          match r with
          | Ok c => set_llm (Some c) None w
          | Raise e => set_llm None (Some (exn_str e)) w
          end
      | _, _ => w
      end in
    match llm_error w1 with
    | Some err =>
        if PyStr.is_empty err then (Ok (llm_client w1), w1)
        else (Raise (ValueError
                ("LLM client not initialized: " ++ err)%string), w1)
    | None => (Ok (llm_client w1), w1)
    end.

Definition get_embeddings_client : M (option string) :=
  fun w =>
    let w1 :=
      match embeddings_client w, embeddings_error w with
      | None, None =>
          let HF_API_KEY := getenv svc "HF_API_KEY" in
          let HF_PROVIDER :=
            match getenv svc "HF_PROVIDER" with
            | Some p => p
            | None => "default"
            end in
          let r :=
            if truthy HF_API_KEY then
              let key := match HF_API_KEY with Some k => k | None => "" end in
              if negb (PyStr.is_empty HF_PROVIDER)
                 && negb (String.eqb HF_PROVIDER "default")
              then InferenceClient svc (Some HF_PROVIDER) key
              else InferenceClient svc None key
            else Raise (ValueError
              "HF_API_KEY not found in environment variables. Get your free API key at https://huggingface.co/settings/tokens") in
          match r with
          | Ok c => set_embeddings (Some c) None w
          | Raise e => set_embeddings None (Some (exn_str e)) w
          end
      | _, _ => w
      end in
    match embeddings_error w1 with
    | Some err =>
        if PyStr.is_empty err then (Ok (embeddings_client w1), w1)
        else (Raise (ValueError
                ("Embeddings client not initialized: " ++ err)%string), w1)
    | None => (Ok (embeddings_client w1), w1)
    end.

(** The text handed to the provider. *)
Definition format_text (text : string) (is_query : bool) : string :=
  if is_query
  then ("Instruct: Given a web search query, retrieve relevant passages that answer the query"
        ++ nl ++ "Query: " ++ text)%string
  else text.

(** [np.linalg.norm] of a vector: the square root of the sum of squares
    (summed from the left). *)
Definition linalg_norm (v : list float) : float :=
  PrimFloat.sqrt (fold_left (fun acc x => (acc + x * x)%float) v 0%float).

(** The last lines of [get_embedding]: divide by the norm when it is
    positive. *)
Definition normalize (embedding : list float) : list float :=
  let norm := linalg_norm embedding in
  if PrimFloat.ltb 0%float norm
  then map (fun x => (x / norm)%float) embedding
  else embedding.

Definition get_embedding (text : string) (is_query : bool) : M (list float) :=
  client <- get_embeddings_client ;;
  let formatted_text := format_text text is_query in
  result <-
    match client with
    | Some _ => external (CallFeatureExtraction formatted_text)
                  (fun h => feature_extraction svc h formatted_text)
    | None => raise (Exception
        "'NoneType' object has no attribute 'feature_extraction'")
    end ;;
  embedding <-
    match result with
    | Vector v => ret v
    | Batch (v :: _) => ret v
    | Batch [] => raise (IndexError
        "index 0 is out of bounds for axis 0 with size 0")
    end ;;
  ret (normalize embedding).

End Config.

(** ** Loops and indexing *)

(** A [for] loop that appends one value per element and stops at the first
    exception. *)
Fixpoint for_each {A B} (f : A -> M B) (l : list A) : M (list B) :=
  match l with
  | [] => ret []
  | x :: r => y <- f x ;; ys <- for_each f r ;; ret (y :: ys)
  end.

(** [l[i]] *)
Definition item {A} (l : list A) (i : nat) : M A :=
  match nth_error l i with
  | Some a => ret a
  | None => raise (IndexError "list index out of range")
  end.

(** ** [backend/services/vector_store.py]: similarity search *)

Section Search.

Variable svc : services.

(** [chroma_client.get_collection(COLLECTION_NAME)] *)
Definition get_collection : M unit :=
  fun w => match get_collection_error svc (calls w) with
           | Some e => (Raise e, w)
           | None => (Ok tt, w)
           end.

(** The body of the loop of [search_similar_chunks] at index [i]. *)
Definition format_result (results : QueryResult) (i : nat) : M search_result :=
  ids0 <- item (qr_ids results) 0 ;;
  id <- item ids0 i ;;
  score <-
    match qr_distances results with
    | Some distances =>
        d0 <- item distances 0 ;; d <- item d0 i ;; ret (1 - d)%float
    | None => ret 0%float
    end ;;
  md0 <- item (qr_metadatas results) 0 ;;
  md <- item md0 i ;;
  text <-
    match qr_documents results with
    | Some documents => t0 <- item documents 0 ;; item t0 i
    | None => ret ""
    end ;;
  ret {| sr_id := id;
         sr_score := score;
         sr_payload := {| p_file_name := file_name md;
                          p_page := page md;
                          p_chunk_id := chunk_id md;
                          p_text := text;
                          p_doc_id := doc_id md |} |}.

Definition format_results (results : QueryResult) : M (list search_result) :=
  match qr_ids results with
  | ids0 :: _ =>
      if 0 <? length ids0
      then for_each (format_result results) (seq 0 (length ids0))
      else ret []
  | [] => ret []
  end.

Definition search_similar_chunks (query_embedding : list float)
    (top_k : option Z) : M (list search_result) :=
  get_collection ;;;
  results <- (fun w => external (CallQuery query_embedding top_k)
                (fun h => collection_query svc h (collection w)
                            query_embedding top_k) w) ;;
  format_results results.

End Search.

(** ** [backend/routes/chat.py]: the chat pipeline *)

Section Chat.

Variable svc : services.

(** [llm_client.chat.completions.create(...)] and the content of its first
    choice. *)
Definition create (client : option string)
    (messages : list (string * string)) (temperature : float) : M string :=
  match client with
  | Some _ => external (CallCompletions messages temperature)
                (fun h => completions_create svc h messages temperature)
  | None => raise (Exception "'NoneType' object has no attribute 'chat'")
  end.

(** Python's [max] over a non-empty sequence: the first item, replaced by
    each later item that compares greater. *)
Definition py_max (first : float) (rest : list float) : float :=
  fold_left (fun m x => if PrimFloat.ltb m x then x else m) rest first.

Definition max_score (search_results : list search_result) : float :=
  match map sr_score search_results with
  | x :: r => py_max x r
  | [] => 0%float
  end.

Definition RELEVANCE_THRESHOLD : float := 0.3%float.

Definition context_part (idx : nat) (payload : payload) : string :=
  ("[Source " ++ PyStr.of_nat idx ++ "] (File: " ++ p_file_name payload
   ++ ", Page: " ++ PyStr.of_nat (p_page payload)
   ++ ", Chunk: " ++ PyStr.of_nat (p_chunk_id payload) ++ ")"
   ++ nl ++ p_text payload)%string.

Definition source_of (result : search_result) : source :=
  let payload := sr_payload result in
  {| src_file_name := p_file_name payload;
     src_page := p_page payload;
     src_chunk_id := p_chunk_id payload;
     src_score := sr_score result;
     src_text := p_text payload |}.

(** The loop [for idx, result in enumerate(search_results, start=1)]. *)
Fixpoint rag_loop (idx : nat) (search_results : list search_result)
    (context_parts : list string) (sources : list source)
    : list string * list source :=
  match search_results with
  | [] => (context_parts, sources)
  | result :: rest =>
      rag_loop (S idx) rest
        (context_parts ++ [context_part idx (sr_payload result)])
        (sources ++ [source_of result])
  end.

Definition rag_prompt (context q : string) : string :=
  ("You are a helpful assistant that answers questions based on the provided context from uploaded documents."
   ++ nl ++ nl ++ "When answering:" ++ nl
   ++ "1. Use information from the context below to answer the question naturally" ++ nl
   ++ "2. Include inline citations for specific facts or information using the format [source:filename | page X | chunk Y]" ++ nl
   ++ "3. Be conversational and helpful - don't force citations for every sentence" ++ nl
   ++ "4. If the answer is not fully in the context, say what you can from the context" ++ nl
   ++ "5. Only cite actual facts, not general conversation" ++ nl ++ nl
   ++ "Context from documents:" ++ nl ++ context ++ nl ++ nl
   ++ "User Question: " ++ q ++ nl ++ nl
   ++ "Answer naturally with citations for facts:")%string.

Definition greeting_system : string :=
  "You are a friendly and helpful AI assistant. Respond naturally to greetings and casual conversation. Be warm, conversational, and helpful. Keep responses brief and friendly.".
Definition no_documents_system : string :=
  "You are a friendly and helpful AI assistant. You can have normal conversations with users. If they ask about documents, politely let them know they need to upload documents first. Otherwise, be conversational and helpful.".
Definition low_relevance_system : string :=
  "You are a friendly AI assistant. You have access to uploaded documents, but the current question doesn't seem directly related to them. Answer naturally and helpfully. If appropriate, you can mention that you have documents available if they want to ask about them.".
Definition rag_system : string :=
  "You are a helpful assistant that answers questions using information from uploaded documents. Include citations for facts, but be natural and conversational.".

(** The handlers of the [try] statements of [chat]. *)
Definition unavailable (what hint : string) (e : exn)
    : option (M (option string)) :=
  match e with
  | ValueError msg =>
      Some (raise (HTTPException 503
        (what ++ " service is not available: " ++ msg
         ++ ". Please check your " ++ hint ++ " environment variable.")%string))
  | _ => None
  end.

Definition embedding_unavailable (e : exn) : option (M (list float)) :=
  match e with
  | ValueError msg =>
      Some (raise (HTTPException 503
        ("Embedding service is not available: " ++ msg
         ++ ". Please check your HF_API_KEY environment variable.")%string))
  | _ => None
  end.

Definition internal_error (e : exn) : option (M ChatResponse) :=
  match e with
  | HTTPException _ _ => None
  | _ => Some (raise (HTTPException 500
           ("Error processing your request: " ++ exn_str e)%string))
  end.

(** The body of the outer [try] of [chat]. *)
Definition chat_body (request : ChatRequest) : M ChatResponse :=
  llm_client <- try_except (get_llm_client svc)
                  (unavailable "LLM" "DEEPSEEK_API_KEY") ;;
  if is_simple_greeting (query request) then
    answer <- create llm_client
                [("system", greeting_system); ("user", query request)]
                0.7%float ;;
    ret {| answer := answer; sources := [] |}
  else
    query_embedding <- try_except (get_embedding svc (query request) true)
                         embedding_unavailable ;;
    search_results <- search_similar_chunks svc query_embedding
                        (top_k request) ;;
    match search_results with
    | [] =>
        answer <- create llm_client
                    [("system", no_documents_system); ("user", query request)]
                    0.7%float ;;
        ret {| answer := answer; sources := [] |}
    | _ :: _ =>
        if PrimFloat.ltb (max_score search_results) RELEVANCE_THRESHOLD then
          answer <- create llm_client
                      [("system", low_relevance_system);
                       ("user", query request)]
                      0.7%float ;;
          ret {| answer := answer; sources := [] |}
        else
          let '(context_parts, sources) := rag_loop 1 search_results [] [] in
          let context := PyStr.join (nl ++ nl)%string context_parts in
          let prompt := rag_prompt context (query request) in
          answer <- create llm_client
                      [("system", rag_system); ("user", prompt)]
                      0.3%float ;;
          ret {| answer := answer; sources := sources |}
    end.

Definition chat (request : ChatRequest) : M ChatResponse :=
  try_except (chat_body request) internal_error.

End Chat.

(** ** [backend/services/document_processor.py] *)

(** [s.split(sep)] for a one-character separator. *)
Fixpoint split_on (sep : ascii) (tok : string) (s : string) : list string :=
  match s with
  | EmptyString => [tok]
  | String c r =>
      if Ascii.eqb c sep then tok :: split_on sep "" r
      else split_on sep (tok ++ String c "")%string r
  end.

(** Truthiness of [text.strip()]. *)
Definition has_text (text : string) : bool :=
  negb (PyStr.is_empty (PyStr.strip text)).

Section DocumentProcessor.

Variable svc : services.

(** The loop of [extract_text_from_pdf] over [enumerate(pages, start=1)]. *)
Fixpoint pdf_loop (page_num : nat) (pages : list string)
    : list (string * nat) :=
  match pages with
  | [] => []
  | text :: rest =>
      if has_text text then (text, page_num) :: pdf_loop (S page_num) rest
      else pdf_loop (S page_num) rest
  end.

Definition extract_text_from_pdf (file_path : string)
    : M (list (string * nat)) :=
  pages <- external (CallPdfReader file_path)
             (fun h => pdf_pages svc h file_path) ;;
  ret (pdf_loop 1 pages).

Definition extract_text_from_docx (file_path : string)
    : M (list (string * nat)) :=
  paragraphs <- external (CallDocxDocument file_path)
                  (fun h => docx_paragraphs svc h file_path) ;;
  let full_text := filter has_text paragraphs in
  let text := PyStr.join nl full_text in
  ret (if has_text text then [(text, 1)] else []).

Definition extract_text_from_txt (file_path : string)
    : M (list (string * nat)) :=
  text <- external (CallOpen file_path)
            (fun h => txt_read svc h file_path) ;;
  ret (if has_text text then [(text, 1)] else []).

Definition extract_text (file_path file_name : string)
    : M (list (string * nat)) :=
  let extension := last (split_on "." "" (PyStr.lower file_name)) "" in
  if String.eqb extension "pdf" then extract_text_from_pdf file_path
  else if PyStr.mem extension ["docx"; "doc"]
  then extract_text_from_docx file_path
  else if String.eqb extension "txt" then extract_text_from_txt file_path
  else raise (ValueError ("Unsupported file type: " ++ extension)%string).

Definition split_text (text : string) : M (list string) :=
  external (CallSplitText text)
    (fun h => text_splitter_split_text svc h text).

End DocumentProcessor.

(** ** [backend/services/vector_store.py]: ingestion, deletion, catalog *)

(** [str(uuid.uuid4())]: the identifiers are drawn from a supply that never
    repeats; the [n]-th one is written [uuid-n]. *)
Definition uuid_str (n : nat) : string := ("uuid-" ++ PyStr.of_nat n)%string.

Definition uuid4 : M string :=
  fun w => (Ok (uuid_str (uuids w)), set_uuids (S (uuids w)) w).

(** A loop that threads an accumulator and stops at the first exception. *)
Fixpoint fold_m {S A} (f : S -> A -> M S) (l : list A) (s : S) : M S :=
  match l with
  | [] => ret s
  | x :: r => s' <- f s x ;; fold_m f r s'
  end.

(** The dictionary returned by [process_and_store_document]. *)
Record stored := { st_doc_id : string; chunks_created : nat }.

(** One document of the catalog built by [get_all_documents]. *)
Record document := {
  d_doc_id : string;
  d_file_name : string;
  chunks_count : nat;
  d_upload_timestamp : option string
}.

(** [documents_map] is a dictionary keyed by [doc_id]; its values are kept in
    insertion order, as [list(documents_map.values())] reads them. *)
Definition dm_mem (k : string) (m : list document) : bool :=
  existsb (fun d => String.eqb (d_doc_id d) k) m.

Definition dm_update (k : string) (f : document -> document)
    (m : list document) : list document :=
  map (fun d => if String.eqb (d_doc_id d) k then f d else d) m.

(** The two [if] statements of the loop of [get_all_documents]. *)
Definition count_chunk (ts : option string) (d : document) : document :=
  let cur := d_upload_timestamp d in
  {| d_doc_id := d_doc_id d;
     d_file_name := d_file_name d;
     chunks_count := chunks_count d + 1;
     d_upload_timestamp :=
       match ts with
       | Some t =>
           if negb (PyStr.is_empty t)
              && (negb (truthy cur)
                  || match cur with
                     | Some c => String.ltb t c
                     | None => false
                     end)
           then ts else cur
       | None => cur
       end |}.

Definition catalog_step (documents_map : list document) (md : metadata)
    : list document :=
  let k := doc_id md in
  let m1 :=
    if negb (PyStr.is_empty k) && negb (dm_mem k documents_map)
    then documents_map ++ [{| d_doc_id := k;
                              d_file_name := file_name md;
                              chunks_count := 0;
                              d_upload_timestamp := upload_timestamp md |}]
    else documents_map in
  if dm_mem k m1 then dm_update k (count_chunk (upload_timestamp md)) m1
  else m1.

(** [documents_list.sort(key=lambda x: x['file_name'])]: a stable sort. *)
Fixpoint insert_sorted (d : document) (l : list document) : list document :=
  match l with
  | [] => [d]
  | x :: r =>
      if String.leb (d_file_name d) (d_file_name x) then d :: l
      else x :: insert_sorted d r
  end.

Definition sort_by_file_name (l : list document) : list document :=
  fold_right insert_sorted [] l.

Section VectorStore.

Variable svc : services.

(** [collection.add(...)]: the batch is stored whole or not at all. *)
Definition collection_add (batch : list row) : M unit :=
  fun w =>
    let w' := set_calls (calls w ++ [CallAdd batch]) w in
    match collection_add_error svc (calls w) batch with
    | Some e => (Raise e, w')
    | None => (Ok tt, set_collection (collection w ++ batch) w')
    end.

(** [collection.get(where={"doc_id": {"$eq": doc_id}})['ids']] *)
Definition collection_get_ids (d : string) : M (list string) :=
  fun w =>
    (Ok (map row_id
           (filter (fun r => String.eqb (doc_id (row_metadata r)) d)
              (collection w))),
     set_calls (calls w ++ [CallGet (Some d)]) w).

(** [collection.get()] *)
Definition collection_get_all : M (list row) :=
  fun w => (Ok (collection w), set_calls (calls w ++ [CallGet None]) w).

(** [collection.delete(ids=ids)] *)
Definition collection_delete (ids : list string) : M unit :=
  fun w =>
    (Ok tt,
     set_collection
       (filter (fun r => negb (PyStr.mem (row_id r) ids)) (collection w))
       (set_calls (calls w ++ [CallDelete ids]) w)).

(** The inner loop of [process_and_store_document]: the accumulator holds
    the four parallel lists, zipped into rows, and [chunk_id]. *)
Definition chunk_step (d file_name : string) (ts : option string)
    (page_num : nat) (acc : list row * nat) (chunk : string)
    : M (list row * nat) :=
  let '(all_rows, chunk_id) := acc in
  embedding <- get_embedding svc chunk false ;;
  chunk_uuid <- uuid4 ;;
  ret (all_rows ++ [{| row_id := chunk_uuid;
                       row_embedding := embedding;
                       row_metadata :=
                         {| doc_id := d;
                            file_name := file_name;
                            page := page_num;
                            chunk_id := chunk_id;
                            upload_timestamp := ts |};
                       row_document := chunk |}],
       chunk_id + 1).

Definition page_step (d file_name : string) (ts : option string)
    (acc : list row * nat) (text_page : string * nat)
    : M (list row * nat) :=
  let '(text, page_num) := text_page in
  chunks <- split_text svc text ;;
  fold_m (chunk_step d file_name ts page_num) chunks acc.

Definition process_and_store_document (file_path file_name : string)
    (upload_timestamp : option string) : M stored :=
  text_pages <- extract_text svc file_path file_name ;;
  match text_pages with
  | [] => raise (ValueError "No text could be extracted from the document.")
  | _ :: _ =>
      d <- uuid4 ;;
      get_collection svc ;;;
      acc <- fold_m (page_step d file_name upload_timestamp)
               text_pages ([], 0) ;;
      collection_add (fst acc) ;;;
      ret {| st_doc_id := d; chunks_created := length (fst acc) |}
  end.

Definition delete_document_chunks (d : string) : M nat :=
  get_collection svc ;;;
  ids <- collection_get_ids d ;;
  if 0 <? length ids
  then collection_delete ids ;;; ret (length ids)
  else ret 0.

Definition get_all_documents : M (list document) :=
  get_collection svc ;;;
  results <- collection_get_all ;;
  match results with
  | [] => ret []
  | _ :: _ =>
      let documents_map :=
        fold_left catalog_step (map row_metadata results) [] in
      ret (sort_by_file_name documents_map)
  end.

End VectorStore.

(** ** [backend/routes/documents.py] *)

(** A JSON object of a response body. *)
Inductive json :=
| JStr (s : string)
| JInt (n : nat).

Definition body := list (string * json).

Fixpoint field (k : string) (b : body) : option json :=
  match b with
  | [] => None
  | (k', v) :: r => if String.eqb k k' then Some v else field k r
  end.

Section Documents.

Variable svc : services.

Definition delete_failed (e : exn) : option (M body) :=
  match e with
  | HTTPException _ _ => None
  | _ => Some (raise (HTTPException 500
                 "Error deleting document. Please try again."))
  end.

Definition delete_document (d : string) : M body :=
  try_except
    (deleted_count <- delete_document_chunks svc d ;;
     if 0 <? deleted_count
     then ret [("message",
                JStr ("Deleted " ++ PyStr.of_nat deleted_count
                      ++ " chunks for document " ++ d)%string)]
     else raise (HTTPException 404 "Document not found"))
    delete_failed.

End Documents.

(** ** [main.py]: the older pipeline, on an index that reports similarity *)

Module Legacy.

(** A point returned by [qdrant_client.search]: its score is a similarity. *)
Record scored_point := {
  sp_score : float;
  sp_file_name : string;
  sp_page : nat;
  sp_chunk_id : nat;
  sp_text : string
}.

Record source := {
  src_file_name : string;
  src_page : nat;
  src_chunk_id : nat;
  src_score : float
}.

Record ChatResponse := { answer : string; sources : list source }.

Record services := {
  embed_query : string -> result (list float);
  qdrant_search : list float -> option Z -> result (list scored_point);
  llm_invoke : string -> result string
}.

Definition context_part (idx : nat) (p : scored_point) : string :=
  ("[Source " ++ PyStr.of_nat idx ++ "] (File: " ++ sp_file_name p
   ++ ", Page: " ++ PyStr.of_nat (sp_page p)
   ++ ", Chunk: " ++ PyStr.of_nat (sp_chunk_id p) ++ ")"
   ++ nl ++ sp_text p)%string.

Definition source_of (result : scored_point) : source :=
  {| src_file_name := sp_file_name result;
     src_page := sp_page result;
     src_chunk_id := sp_chunk_id result;
     src_score := sp_score result |}.

Fixpoint loop (idx : nat) (search_results : list scored_point)
    (context_parts : list string) (sources : list source)
    : list string * list source :=
  match search_results with
  | [] => (context_parts, sources)
  | result :: rest =>
      loop (S idx) rest (context_parts ++ [context_part idx result])
        (sources ++ [source_of result])
  end.

Definition prompt (context q : string) : string :=
  ("You are a helpful assistant that ONLY answers questions based on the provided context. "
   ++ nl ++ nl ++ "STRICT RULES:" ++ nl
   ++ "1. You MUST answer ONLY using information from the context below" ++ nl
   ++ "2. You MUST include inline citations for every fact using the format [source:filename | page X | chunk Y]" ++ nl
   ++ "3. If the answer is not in the context, you MUST refuse to answer and ask ONE clarifying question" ++ nl
   ++ "4. Do NOT use any external knowledge or make assumptions" ++ nl ++ nl
   ++ "Context:" ++ nl ++ context ++ nl ++ nl
   ++ "User Question: " ++ q ++ nl ++ nl
   ++ "Answer (remember to include citations):")%string.

Definition and_then {A B} (r : result A) (k : A -> result B) : result B :=
  match r with
  | Ok a => k a
  | Raise e => Raise e
  end.

Definition chat_body (svc : services) (request : ChatRequest)
    : result ChatResponse :=
  and_then (embed_query svc (query request)) (fun query_embedding =>
  and_then (qdrant_search svc query_embedding (top_k request))
    (fun search_results =>
  match search_results with
  | [] =>
      Ok {| answer := "I don't have any documents in my knowledge base yet. Please upload some documents first so I can help answer your questions.";
            sources := [] |}
  | _ :: _ =>
      let '(context_parts, sources) := loop 1 search_results [] [] in
      let context := PyStr.join (nl ++ nl)%string context_parts in
      and_then (llm_invoke svc (prompt context (query request)))
        (fun answer => Ok {| answer := answer; sources := sources |})
  end)).

(** Every exception of the body becomes a 500. *)
Definition chat (svc : services) (request : ChatRequest)
    : result ChatResponse :=
  match chat_body svc request with
  | Ok r => Ok r
  | Raise _ =>
      Raise (HTTPException 500
               "Error processing your request. Please try again.")
  end.

End Legacy.

(** ** The statements of the specification, word for word *)

(** Greeting detection as the specification words it: the trimmed, lowercased
    query equals a phrase, or starts with one, or has at most two tokens and
    matches one (equals it or starts with it). *)
Definition spec_is_greeting (q : string) : bool :=
  let query_lower := PyStr.strip (PyStr.lower q) in
  let matches g :=
    String.eqb query_lower g || PyStr.startswith query_lower g in
  PyStr.mem query_lower greetings
  || existsb (fun g => PyStr.startswith query_lower g) greetings
  || ((length (PyStr.split query_lower) <=? 2) && existsb matches greetings).

(** The query template as the specification quotes it. *)
Definition spec_query_template : string :=
  "Given a search query, retrieve relevant passages that answer the query".

(** The query template of [get_embedding]. *)
Definition query_template : string :=
  ("Instruct: Given a web search query, retrieve relevant passages that answer the query"
   ++ nl ++ "Query: ")%string.

(** ** Reading the log of calls *)

Definition is_ok {A} (r : result A) : bool :=
  match r with Ok _ => true | Raise _ => false end.

(** The calls that retrieval makes: embedding the query and searching. *)
Definition is_retrieval (c : call) : bool :=
  match c with
  | CallFeatureExtraction _ | CallQuery _ _ => true
  | _ => false
  end.

(** The calls that write to the collection. *)
Definition is_write (c : call) : bool :=
  match c with
  | CallAdd _ | CallDelete _ => true
  | _ => false
  end.

(** Whether the service answered the call [c], made after the calls [h],
    without raising.  (A query is answered from the collection as well, which
    the log does not hold; reads and deletions of the collection always
    answer.) *)
Definition answered (svc : services) (h : list call) (c : call) : bool :=
  match c with
  | CallCompletions m t => is_ok (completions_create svc h m t)
  | CallFeatureExtraction t => is_ok (feature_extraction svc h t)
  | CallPdfReader p => is_ok (pdf_pages svc h p)
  | CallDocxDocument p => is_ok (docx_paragraphs svc h p)
  | CallOpen p => is_ok (txt_read svc h p)
  | CallSplitText t => is_ok (text_splitter_split_text svc h t)
  | CallAdd b =>
      match collection_add_error svc h b with None => true | Some _ => false end
  | CallQuery _ _ | CallGet _ | CallDelete _ => true
  end.

(** Whether each of the calls [l], made in this order after [h], was
    answered. *)
Fixpoint all_answered (svc : services) (h l : list call) : bool :=
  match l with
  | [] => true
  | c :: r => answered svc h c && all_answered svc (h ++ [c]) r
  end.

Definition greeting_messages (q : string) : list (string * string) :=
  [("system", greeting_system); ("user", q)].

(** The sources that [chat] attaches to a list of search results. *)
Definition gated_sources (rs : list search_result) : list source :=
  match rs with
  | [] => []
  | _ :: _ =>
      if PrimFloat.ltb (max_score rs) RELEVANCE_THRESHOLD then []
      else map source_of rs
  end.

(** A computation that leaves the collection as it is: it writes nothing,
    draws identifiers only forwards, and, when it returns, every call it made
    was answered. *)
Definition quiet (svc : services) {A} (m : M A) : Prop :=
  forall w r w', m w = (r, w') ->
    collection w' = collection w
    /\ uuids w <= uuids w'
    /\ exists l,
         calls w' = calls w ++ l
         /\ forallb (fun c => negb (is_write c)) l = true
         /\ (is_ok r = true -> all_answered svc (calls w) l = true).

(** A row written for the document [d]: it carries the document's id, file
    name and timestamp, and its own id was drawn as the [k]-th identifier for
    some [k] from [lo] up to [hi] (excluded). *)
Definition chunk_row (d fn : string) (ts : option string) (lo hi : nat)
    (r : row) : Prop :=
  doc_id (row_metadata r) = d
  /\ file_name (row_metadata r) = fn
  /\ upload_timestamp (row_metadata r) = ts
  /\ exists k, lo <= k < hi /\ row_id r = uuid_str k.

(** The chunks of the pages, page after page, each with its page number. *)
Definition chunks_in_order (text_pages : list (string * nat))
    (chunkss : list (list string)) : list (string * nat) :=
  flat_map (fun x => map (fun c => (c, snd (fst x))) (snd x))
    (combine text_pages chunkss).

(** The identifiers not yet drawn, from the [n]-th on, occur nowhere in the
    rows: neither as a row id nor as a document id. *)
Definition fresh_from (n : nat) (rows : list row) : Prop :=
  forall r k, In r rows -> n <= k ->
    row_id r <> uuid_str k /\ doc_id (row_metadata r) <> uuid_str k.

(** The rows of the document [d]. *)
Definition of_document (d : string) (r : row) : bool :=
  String.eqb (doc_id (row_metadata r)) d.

(** The body of the success response of [delete_document]. *)
Definition deleted_message (n : nat) (d : string) : body :=
  [("message",
    JStr ("Deleted " ++ PyStr.of_nat n ++ " chunks for document " ++ d)%string)].

(** The order of the catalog: file names ascending, as Python compares
    strings. *)
Definition by_file_name (a b : document) : Prop :=
  String.leb (d_file_name a) (d_file_name b) = true.

(** The metadata of the document [d]. *)
Definition in_group (d : string) (md : metadata) : bool :=
  String.eqb (doc_id md) d.

(** What [get_all_documents] returns for the rows [rows]. *)
Definition catalog (rows : list row) : list document :=
  match rows with
  | [] => []
  | _ :: _ =>
      sort_by_file_name (fold_left catalog_step (map row_metadata rows) [])
  end.

(** What a catalog entry [e] says about the metadata [mds] read so far:
    the count of its group, the file name of the first chunk of the group, a
    timestamp that some chunk of the group carries, and which is no later
    than any non-empty timestamp of the group. *)
Definition entry_ok (mds : list metadata) (e : document) : Prop :=
  let group := filter (in_group (d_doc_id e)) mds in
  chunks_count e = length group
  /\ (exists md rest, group = md :: rest /\ d_file_name e = file_name md)
  /\ (exists md, In md group /\ upload_timestamp md = d_upload_timestamp e)
  /\ (forall md t, In md group -> upload_timestamp md = Some t -> t <> "" ->
        exists c, d_upload_timestamp e = Some c /\ c <> ""
                  /\ String.leb c t = true).

(** The invariant of the loop of [get_all_documents]. *)
Definition catalog_inv (mds : list metadata) (m : list document) : Prop :=
  NoDup (map d_doc_id m)
  /\ (forall d, In d (map d_doc_id m) <->
                d <> "" /\ exists md, In md mds /\ doc_id md = d)
  /\ (forall e, In e m -> entry_ok mds e).

(** The rows of one upload: same document, file name and timestamp. *)
Definition uploaded_as (d fn : string) (ts : option string) (r : row) : Prop :=
  doc_id (row_metadata r) = d
  /\ file_name (row_metadata r) = fn
  /\ upload_timestamp (row_metadata r) = ts.

(** The catalog entry of an upload of [n] chunks. *)
Definition entry_of (d fn : string) (n : nat) (ts : option string) : document :=
  {| d_doc_id := d; d_file_name := fn; chunks_count := n;
     d_upload_timestamp := ts |}.

(** The language-model call that [chat] makes once the search has returned
    [rs]: its messages and its temperature. *)
Definition answer_call (request : ChatRequest) (rs : list search_result)
    : call :=
  match rs with
  | [] =>
      CallCompletions
        [("system", no_documents_system); ("user", query request)] 0.7%float
  | _ :: _ =>
      if PrimFloat.ltb (max_score rs) RELEVANCE_THRESHOLD
      then CallCompletions
             [("system", low_relevance_system); ("user", query request)]
             0.7%float
      else CallCompletions
             [("system", rag_system);
              ("user",
               rag_prompt
                 (PyStr.join (nl ++ nl)%string (fst (rag_loop 1 rs [] [])))
                 (query request))]
             0.3%float
  end.

(** ** A concrete deployment, for running the pipeline *)

Module Demo.

Definition env (k : string) : option string :=
  if String.eqb k "DEEPSEEK_API_KEY" then Some "sk-demo"
  else if String.eqb k "HF_API_KEY" then Some "hf-demo"
  else None.

(** The nearest rows, at the given distances. *)
Definition hits (distances : list float) (rows : list row) : QueryResult :=
  let top := firstn (length distances) rows in
  {| qr_ids := [map row_id top];
     qr_distances := Some [distances];
     qr_metadatas := [map row_metadata top];
     qr_documents := Some [map row_document top] |}.

(** Every service answers; the provider fails on the chunk [bad], and the
    index reports [distances]. *)
Definition svc (distances : list float) (bad : string) : services :=
  {| getenv := env;
     OpenAI := fun key => Ok key;
     InferenceClient := fun _ key => Ok key;
     completions_create := fun _ _ _ => Ok "answer";
     feature_extraction := fun _ text =>
       if String.eqb text bad then Raise (Exception "503 Service Unavailable")
       else Ok (Vector [3; 4]%float);
     pdf_pages := fun _ _ => Ok ["alpha"; "  "; "beta"; "gamma"];
     docx_paragraphs := fun _ _ => Ok ["delta"; ""; "epsilon"];
     txt_read := fun _ _ => Ok "zeta eta";
     text_splitter_split_text := fun _ text => Ok [text];
     get_collection_error := fun _ => None;
     collection_add_error := fun _ _ => None;
     collection_query := fun _ rows _ _ => Ok (hits distances rows) |}.

Definition w0 : world :=
  {| collection := []; uuids := 0;
     llm_client := None; llm_error := None;
     embeddings_client := None; embeddings_error := None;
     calls := [] |}.

Definition ts1 : option string := Some "2024-05-01T10:00:00".
Definition ts2 : option string := Some "2024-05-02T09:30:00".

(** The world after uploading [report.pdf] (three pages with text). *)
Definition w1 : world :=
  snd (process_and_store_document (svc [] "") "/tmp/a" "report.pdf" ts1 w0).

(** The world after uploading [notes.txt] as well. *)
Definition w2 : world :=
  snd (process_and_store_document (svc [] "") "/tmp/b" "notes.txt" ts2 w1).

(** The older pipeline over an index holding two points. *)
Definition legacy : Legacy.services :=
  {| Legacy.embed_query := fun _ => Ok [1; 0]%float;
     Legacy.qdrant_search := fun _ _ =>
       Ok [ {| Legacy.sp_score := 0.82%float;
               Legacy.sp_file_name := "report.pdf";
               Legacy.sp_page := 1; Legacy.sp_chunk_id := 0;
               Legacy.sp_text := "alpha" |};
            {| Legacy.sp_score := 0.31%float;
               Legacy.sp_file_name := "report.pdf";
               Legacy.sp_page := 3; Legacy.sp_chunk_id := 1;
               Legacy.sp_text := "beta" |} ];
     Legacy.llm_invoke := fun _ => Ok "answer" |}.

End Demo.

(** ** Further readings of the source *)

(** The extension that [extract_text] and the upload route dispatch on:
    [file_name.lower().split('.')[-1]]. *)
Definition extension_of (file_name : string) : string :=
  last (split_on "." "" (PyStr.lower file_name)) "".

Definition supported_extensions : list string := ["pdf"; "docx"; "doc"; "txt"].

(** A string without a dot. *)
Fixpoint dot_free (s : string) : bool :=
  match s with
  | EmptyString => true
  | String c r => negb (Ascii.eqb c ".") && dot_free r
  end.

(** ** Further deployments, for running the edge cases *)

Module Cases.

(** The demo deployment with some of its services replaced. *)
Definition with_services
    (env : string -> option string)
    (pages : list string)
    (collection_error : option exn) : services :=
  let base := Demo.svc [] "" in
  {| getenv := env;
     OpenAI := OpenAI base;
     InferenceClient := InferenceClient base;
     completions_create := completions_create base;
     feature_extraction := feature_extraction base;
     pdf_pages := fun _ _ => Ok pages;
     docx_paragraphs := docx_paragraphs base;
     txt_read := txt_read base;
     text_splitter_split_text := text_splitter_split_text base;
     get_collection_error := fun _ => collection_error;
     collection_add_error := collection_add_error base;
     collection_query := collection_query base |}.

(** No API key is set. *)
Definition no_keys : services :=
  with_services (fun _ => None) ["alpha"] None.

(** Only the language-model key is set. *)
Definition llm_key_only : services :=
  with_services
    (fun k => if String.eqb k "DEEPSEEK_API_KEY" then Some "sk-demo" else None)
    ["alpha"] None.

(** A scanned PDF: its pages carry no text. *)
Definition scanned : services :=
  with_services Demo.env ["  "; ""; nl] None.

(** The collection cannot be opened. *)
Definition no_collection : services :=
  with_services Demo.env ["alpha"]
    (Some (Exception "Collection documents does not exist.")).

End Cases.

(** ** The state of the store across requests *)

(** A computation that writes nothing to the collection and draws
    identifiers only forwards. *)
Definition keeps_store {A} (m : M A) : Prop :=
  forall w r w', m w = (r, w') ->
    collection w' = collection w /\ uuids w <= uuids w'.

(** A row whose id and document id were both drawn from the supply, before
    its [n]-th identifier. *)
Definition known_row (n : nat) (r : row) : Prop :=
  (exists k, k < n /\ row_id r = uuid_str k)
  /\ (exists k, k < n /\ doc_id (row_metadata r) = uuid_str k).

(** The chunk indices of the document [d], in the order of the collection. *)
Definition chunk_ids_of (d : string) (rows : list row) : list nat :=
  map (fun r => chunk_id (row_metadata r)) (filter (of_document d) rows).

(** The invariant of the store: row ids are unique, every id in the
    collection has been drawn already, and the chunk indices of every
    document are 0, 1, 2, ... without gap or repeat. *)
Definition store_ok (w : world) : Prop :=
  NoDup (map row_id (collection w))
  /\ Forall (known_row (uuids w)) (collection w)
  /\ forall d, chunk_ids_of d (collection w)
               = seq 0 (length (chunk_ids_of d (collection w))).

(** The requests that the backend serves. *)
Inductive request :=
| Upload (file_path file_name : string) (upload_timestamp : option string)
| Delete (d : string)
| Chat (r : ChatRequest)
| ListDocuments.

(** The state after one request, whatever it answered. *)
Definition serve (svc : services) (w : world) (rq : request) : world :=
  match rq with
  | Upload file_path file_name ts =>
      snd (process_and_store_document svc file_path file_name ts w)
  | Delete d => snd (delete_document svc d w)
  | Chat r => snd (chat svc r w)
  | ListDocuments => snd (get_all_documents svc w)
  end.

Definition serve_all (svc : services) (rqs : list request) (w : world)
    : world :=
  fold_left (serve svc) rqs w.

(** The catalog entries of the documents other than [d]. *)
Definition other_than (d : string) (e : document) : bool :=
  negb (String.eqb (d_doc_id e) d).

(** The chunks that carry a document id: the loop of [get_all_documents]
    skips the others. *)
Definition has_doc_id (r : row) : bool :=
  negb (PyStr.is_empty (doc_id (row_metadata r))).

(** ** [backend/routes/upload.py] and [list_documents] *)

(** The uploaded file, as the route uses it: its name, and what
    [await file.read()] gives. *)
Record UploadFile := {
  filename : option string;
  read : result string
}.

(** What the routes ask of their host: the clock ([now_isoformat n] is the
    [n]-th [datetime.now().isoformat()] of the request), the temporary file
    (from its suffix and content to its name) and its removal. *)
Record host := {
  now_isoformat : nat -> string;
  NamedTemporaryFile : string -> string -> result string;
  unlink : string -> option exn
}.

(** The dictionary that [upload_document] returns. *)
Record uploaded := {
  up_message : string;
  up_doc_id : string;
  up_file_name : string;
  up_chunks_created : nat;
  up_upload_timestamp : string
}.

Definition MAX_FILE_SIZE : N := (50 * 1024 * 1024)%N.

(** [float(n)] for an integer below [2^63]: the nearest number with 53
    significant bits, ties to even.  It is an integer again. *)
Definition nearest_float (n : N) : N :=
  let shift := (N.size n - 53)%N in
  let q := N.shiftr n shift in
  let r := (n - N.shiftl q shift)%N in
  let half := N.shiftl 1 (shift - 1) in
  if (shift =? 0)%N then n
  else if (half <? r)%N || ((r =? half)%N && N.odd q)
       then N.shiftl (q + 1) shift
       else N.shiftl q shift.

(** [str(n)] for a non-negative integer. *)
Definition str_of_N (n : N) : string :=
  DecimalString.NilZero.string_of_uint (N.to_uint n).

Definition two_digits (n : N) : string :=
  ((if (n <? 10)%N then "0" else "") ++ str_of_N n)%string.

(** [f"{file_size / (1024 * 1024):.2f}"]: the quotient of the two integers
    is the nearest float, and the format rounds that float to two decimals,
    ties to even; the division by [2^20] is exact. *)
Definition megabytes_2f (file_size : N) : string :=
  let x := (nearest_float file_size * 100)%N in
  let q := (x / 1048576)%N in
  let r := (x mod 1048576)%N in
  let h := if (524288 <? r)%N || ((r =? 524288)%N && N.odd q)
           then (q + 1)%N else q in
  (str_of_N (h / 100) ++ "." ++ two_digits (h mod 100))%string.

(** The details of the route are Arabic text; a string holds them in their
    UTF-8 encoding, and the route only passes them on. *)
Definition unsupported_type_detail : string :=
  "نوع الملف غير مدعوم. يرجى رفع ملف PDF أو DOCX أو TXT فقط.".

Definition too_large_detail (file_size : N) : string :=
  ("حجم الملف كبير جداً. الحد الأقصى هو 50 ميجابايت. حجم الملف الحالي: "
   ++ megabytes_2f file_size ++ " ميجابايت.")%string.

Definition empty_file_detail : string :=
  "الملف فارغ. يرجى رفع ملف يحتوي على محتوى.".

Definition uploaded_message : string := "تم رفع ومعالجة المستند بنجاح".

Definition upload_failed_detail : string :=
  "حدث خطأ أثناء معالجة المستند. يرجى التحقق من تنسيق الملف والمحاولة مرة أخرى.".

(** A document of the listing: the catalog entry and its [last_updated]. *)
Record listed := {
  l_document : document;
  last_updated : string
}.

Section Routes.

Variable svc : services.
Variable os : host.

(** The handlers of [upload_document]: [except HTTPException: raise], then
    [except ValueError as e], then [except Exception]. *)
Definition upload_failed (e : exn) : option (M uploaded) :=
  match e with
  | HTTPException _ _ => None
  | ValueError _ => Some (raise (HTTPException 400 (exn_str e)))
  | _ => Some (raise (HTTPException 500 upload_failed_detail))
  end.

(** [try: m finally: os.unlink(path)]: an exception of [os.unlink] replaces
    the outcome of [m]. *)
Definition finally_unlink {A} (path : string) (m : M A) : M A :=
  fun w => match m w with
           | (r, w') =>
               match unlink os path with
               | Some e => (Raise e, w')
               | None => (r, w')
               end
           end.

Definition upload_document (file : UploadFile) : M uploaded :=
  try_except
    (if negb (truthy (filename file))
     then raise (HTTPException 400 "Filename is required.")
     else
       let name := match filename file with Some n => n | None => "" end in
       let file_extension := last (split_on "." "" (PyStr.lower name)) "" in
       if negb (PyStr.mem file_extension ["pdf"; "docx"; "doc"; "txt"])
       then raise (HTTPException 400 unsupported_type_detail)
       else
         content <- lift (read file) ;;
         let file_size := N.of_nat (String.length content) in
         if (MAX_FILE_SIZE <? file_size)%N
         then raise (HTTPException 400 (too_large_detail file_size))
         else if (file_size =? 0)%N
         then raise (HTTPException 400 empty_file_detail)
         else
           let upload_timestamp := now_isoformat os 0 in
           tmp_file_path <-
             lift (NamedTemporaryFile os ("." ++ file_extension)%string
                     content) ;;
           finally_unlink tmp_file_path
             (result <- process_and_store_document svc tmp_file_path name
                          (Some upload_timestamp) ;;
              ret {| up_message := uploaded_message;
                     up_doc_id := st_doc_id result;
                     up_file_name := name;
                     up_chunks_created := chunks_created result;
                     up_upload_timestamp := upload_timestamp |}))
    upload_failed.

(** The loop of [list_documents]; [n] counts the readings of the clock. *)
Fixpoint last_updated_loop (n : nat) (documents : list document)
    : list listed :=
  match documents with
  | [] => []
  | doc :: rest =>
      match d_upload_timestamp doc with
      | Some t =>
          if negb (PyStr.is_empty t)
          then {| l_document := doc; last_updated := t |}
               :: last_updated_loop n rest
          else {| l_document := doc; last_updated := now_isoformat os n |}
               :: last_updated_loop (S n) rest
      | None =>
          {| l_document := doc; last_updated := now_isoformat os n |}
          :: last_updated_loop (S n) rest
      end
  end.

Definition list_documents : M (list listed) :=
  try_except
    (documents <- get_all_documents svc ;;
     ret (last_updated_loop 0 documents))
    (fun _ => Some (raise (HTTPException 500
                      "Error retrieving documents. Please try again."))).

End Routes.

(** What the handlers of [upload_document] make of an exception. *)
Definition upload_error (e : exn) : exn :=
  match e with
  | HTTPException _ _ => e
  | ValueError m => HTTPException 400 m
  | _ => HTTPException 500 upload_failed_detail
  end.

(** The files that [upload_document] turns away before it reads any service:
    no file name, an extension that is not accepted, no content or too much
    of it. *)
Definition turned_away (file : UploadFile) : Prop :=
  truthy (filename file) = false
  \/ (exists name, filename file = Some name
                   /\ PyStr.mem (extension_of name) supported_extensions = false)
  \/ (exists content, read file = Ok content
                      /\ (content = ""
                          \/ (MAX_FILE_SIZE < N.of_nat (String.length content))%N)).

(** The files that pass the checks of [upload_document], with their name
    and content. *)
Definition accepted (file : UploadFile) (name content : string) : Prop :=
  filename file = Some name /\ name <> ""
  /\ PyStr.mem (extension_of name) supported_extensions = true
  /\ read file = Ok content
  /\ content <> ""
  /\ (N.of_nat (String.length content) <= MAX_FILE_SIZE)%N.

(** Hosts and files for running the routes. *)
Module Host.

Definition demo : host :=
  {| now_isoformat := fun n => ("2024-05-03T12:00:0" ++ PyStr.of_nat n)%string;
     NamedTemporaryFile := fun suffix _ => Ok ("/tmp/tmpk3v9" ++ suffix)%string;
     unlink := fun _ => None |}.

(** The temporary file cannot be removed. *)
Definition locked : host :=
  {| now_isoformat := now_isoformat demo;
     NamedTemporaryFile := NamedTemporaryFile demo;
     unlink := fun _ => Some (Exception "[WinError 32] file in use") |}.

Definition report : UploadFile :=
  {| filename := Some "Annual.Report.PDF"; read := Ok "%PDF-1.7 ..." |}.

Definition archive : UploadFile :=
  {| filename := Some "archive.zip"; read := Ok "PK.." |}.

Definition empty_notes : UploadFile :=
  {| filename := Some "notes.txt"; read := Ok "" |}.

Definition unnamed : UploadFile :=
  {| filename := None; read := Ok "text" |}.

End Host.

(** ** [main.py]: the older deletion route *)

Module LegacyDocuments.

(** [qdrant_client.scroll] with the filter on [doc_id] and [limit=1000],
    answering with the ids of the points of its first page, and
    [qdrant_client.delete]. *)
Record services := {
  qdrant_scroll : string -> result (list string);
  qdrant_delete : list string -> result unit
}.

Definition delete_document_body (svc : services) (doc_id : string)
    : result body :=
  Legacy.and_then (qdrant_scroll svc doc_id) (fun point_ids =>
  match point_ids with
  | _ :: _ =>
      Legacy.and_then (qdrant_delete svc point_ids) (fun _ =>
      Ok [("message",
           JStr ("Deleted " ++ PyStr.of_nat (length point_ids)
                 ++ " chunks for document " ++ doc_id)%string)])
  | [] => Raise (HTTPException 404 "Document not found")
  end).

(** [except Exception] takes the route's own [HTTPException] as well. *)
Definition delete_document (svc : services) (doc_id : string) : result body :=
  match delete_document_body svc doc_id with
  | Ok b => Ok b
  | Raise _ =>
      Raise (HTTPException 500 "Error deleting document. Please try again.")
  end.

End LegacyDocuments.

(** ** [get_api_config_status] of [backend/config.py] *)

Record huggingface_status := {
  hf_api_key_present : bool;
  hf_provider : string;
  hf_initialized : bool;
  hf_error : option string
}.

Record deepseek_status := {
  ds_api_key_present : bool;
  ds_initialized : bool;
  ds_error : option string
}.

Record chromadb_status := {
  ch_path : string;
  ch_collection : string;
  ch_initialized : bool
}.

Record api_config_status := {
  huggingface : huggingface_status;
  deepseek : deepseek_status;
  chromadb : chromadb_status
}.

Definition is_not_None {A} (x : option A) : bool :=
  match x with
  | Some _ => true
  | None => false
  end.

Definition getenv_default (svc : services) (k default : string) : string :=
  match getenv svc k with
  | Some v => v
  | None => default
  end.

Definition get_api_config_status (svc : services) : M api_config_status :=
  fun w =>
    (Ok {| huggingface :=
             {| hf_api_key_present := is_not_None (getenv svc "HF_API_KEY");
                hf_provider := getenv_default svc "HF_PROVIDER" "default";
                hf_initialized := is_not_None (embeddings_client w);
                hf_error := embeddings_error w |};
           deepseek :=
             {| ds_api_key_present :=
                  is_not_None (getenv svc "DEEPSEEK_API_KEY");
                ds_initialized := is_not_None (llm_client w);
                ds_error := llm_error w |};
           chromadb :=
             {| ch_path := getenv_default svc "CHROMA_DB_PATH" "./chroma_db";
                ch_collection := "documents";
                ch_initialized := true |} |}, w).

(** A state in which no client is recorded together with an error. *)
Definition clients_ok (w : world) : Prop :=
  (llm_client w = None \/ llm_error w = None)
  /\ (embeddings_client w = None \/ embeddings_error w = None).

(** Scores from the best match down: no score is below the one after it, as
    Python compares floats. *)
Definition descending (scores : list float) : Prop :=
  StronglySorted (fun a b => PrimFloat.leb b a = true) scores.

(** A provider whose raw vector has components of magnitude [1e200]. *)
Module Extreme.


End Extreme.

(** * Properties *)

(** ** Strings *)

Lemma mem_In x l : PyStr.mem x l = true <-> In x l.
Proof.
  unfold PyStr.mem. rewrite existsb_exists. split.
  - intros [y [Hy He]]. apply String.eqb_eq in He. now subst.
  - intros H. exists x. split; [assumption | apply String.eqb_refl].
Qed.

(** ** Frame lemmas for the client caches *)

Lemma get_llm_client_frame svc w r w' :
  get_llm_client svc w = (r, w') ->
  calls w' = calls w /\ collection w' = collection w /\ uuids w' = uuids w.
Proof.
  unfold get_llm_client. intros H.
  destruct (llm_client w), (llm_error w);
    repeat match type of H with
      | context [match ?x with _ => _ end] => destruct x eqn:?
      end;
    inversion H; subst; cbn; auto.
Qed.

Lemma get_embeddings_client_frame svc w r w' :
  get_embeddings_client svc w = (r, w') ->
  calls w' = calls w /\ collection w' = collection w /\ uuids w' = uuids w.
Proof.
  unfold get_embeddings_client. intros H.
  destruct (embeddings_client w), (embeddings_error w);
    repeat match type of H with
      | context [match ?x with _ => _ end] => destruct x eqn:?
      end;
    inversion H; subst; cbn; auto.
Qed.

(** ** Greeting detection *)

(** What [is_simple_greeting] computes, condition by condition. *)
Lemma is_simple_greeting_iff q :
  let query_lower := PyStr.strip (PyStr.lower q) in
  is_simple_greeting q = true <->
    In query_lower greetings
    \/ length (PyStr.split query_lower) <= 2
    \/ exists g, In g greetings /\ PyStr.startswith query_lower g = true.
Proof.
  cbv zeta. unfold is_simple_greeting.
  set (ql := PyStr.strip (PyStr.lower q)).
  destruct (PyStr.mem ql greetings) eqn:Hm; cbn [orb].
  - split; [intros _ | reflexivity]. left. now apply mem_In.
  - destruct (length (PyStr.split ql) <=? 2) eqn:Hl.
    + split; [intros _ | reflexivity]. right; left. now apply Nat.leb_le.
    + rewrite existsb_exists. split.
      * intros [g Hg]. right; right. now exists g.
      * intros [H | [H | [g Hg]]].
        -- apply mem_In in H. congruence.
        -- apply Nat.leb_le in H. congruence.
        -- now exists g.
Qed.

(** On a greeting, [chat] calls nothing but the language model and a
    response carries no source. *)
Lemma chat_greeting_branch svc request w :
  is_simple_greeting (query request) = true ->
  (exists l, calls (snd (chat svc request w)) = calls w ++ l
             /\ forallb (fun c => negb (is_retrieval c)) l = true)
  /\ (forall resp, fst (chat svc request w) = Ok resp -> sources resp = [])
  /\ (forall c w1 a,
        get_llm_client svc w = (Ok (Some c), w1) ->
        completions_create svc (calls w1)
          (greeting_messages (query request)) 0.7%float = Ok a ->
        chat svc request w =
          (Ok {| answer := a; sources := [] |},
           set_calls (calls w1
                      ++ [CallCompletions (greeting_messages (query request))
                            0.7%float]) w1)).
Proof.
  intros Hg. unfold chat, chat_body, try_except, bind. rewrite Hg.
  destruct (get_llm_client svc w) as [[client | e] w1] eqn:Hc;
    pose proof (get_llm_client_frame _ _ _ _ Hc) as (Hcalls & _ & _).
  - destruct client as [c |]; cbn.
    + unfold external.
      destruct (completions_create svc (calls w1) _ _) as [a | e] eqn:Ha; cbn.
      * repeat split.
        -- eexists. rewrite Hcalls. split; reflexivity.
        -- intros resp H. now inversion H.
        -- intros c' w1' a' H1 H2. inversion H1; subst.
           unfold greeting_messages in H2. rewrite Ha in H2.
           now inversion H2.
      * repeat split.
        -- destruct e; cbn; rewrite Hcalls; eexists; split; reflexivity.
        -- intros resp H. destruct e; cbn in H; discriminate.
        -- intros c' w1' a' H1 H2. inversion H1; subst.
           unfold greeting_messages in H2. rewrite Ha in H2. discriminate.
    + repeat split.
      * exists []. rewrite app_nil_r. auto.
      * intros resp H. discriminate.
      * intros c' w1' a' H1. discriminate.
  - repeat split.
    + exists []. rewrite app_nil_r.
      destruct e; cbn; auto.
    + intros resp H. destruct e; cbn in H; discriminate.
    + intros c' w1' a' H1. discriminate.
Qed.

Example demo_upload :
  fst (process_and_store_document (Demo.svc [] "") "/tmp/a" "report.pdf"
         Demo.ts1 Demo.w0)
  = Ok {| st_doc_id := "uuid-0"; chunks_created := 3 |}
  /\ map (fun r => (row_id r, page (row_metadata r), chunk_id (row_metadata r),
                    row_document r, row_embedding r))
       (collection Demo.w1)
     = [("uuid-1", 1, 0, "alpha", [0.6; 0.8]%float);
        ("uuid-2", 3, 1, "beta", [0.6; 0.8]%float);
        ("uuid-3", 4, 2, "gamma", [0.6; 0.8]%float)].
Proof. split; reflexivity. Qed.

(** C1, as the specification words it, fails: a query of two tokens that
    matches no greeting phrase is classified as a greeting all the same. *)
Lemma greeting_spec_fails_on_short_query :
  is_simple_greeting "machine learning" = true
  /\ spec_is_greeting "machine learning" = false.
Proof. split; reflexivity. Qed.

(** C1 (amended): a query is classified as a greeting exactly when its
    lowercased, trimmed form is a greeting phrase, or has at most two
    whitespace-separated tokens, or starts with a greeting phrase; "hi",
    "Hello" and "how are you" are greetings, "what is machine learning" is
    not; and on a greeting the pipeline makes no embedding or search call and
    every response it returns has an empty source list. *)
Theorem greeting_classification :
  (forall q,
     is_simple_greeting q = true <->
       In (PyStr.strip (PyStr.lower q)) greetings
       \/ length (PyStr.split (PyStr.strip (PyStr.lower q))) <= 2
       \/ exists g, In g greetings
            /\ PyStr.startswith (PyStr.strip (PyStr.lower q)) g = true)
  /\ is_simple_greeting "hi" = true
  /\ is_simple_greeting "Hello" = true
  /\ is_simple_greeting "how are you" = true
  /\ is_simple_greeting "what is machine learning" = false
  /\ (forall svc request w,
        is_simple_greeting (query request) = true ->
        (exists l, calls (snd (chat svc request w)) = calls w ++ l
                   /\ forallb (fun c => negb (is_retrieval c)) l = true)
        /\ (forall resp, fst (chat svc request w) = Ok resp ->
                         sources resp = [])).
Proof.
  split; [exact is_simple_greeting_iff |].
  repeat (split; [reflexivity |]).
  intros svc request w Hg.
  destruct (chat_greeting_branch svc request w Hg) as (H1 & H2 & _).
  now split.
Qed.

(** The classification at work: "Hello there, can you help me?" starts with
    a greeting phrase, and the chat answers it with the language model alone. *)
Lemma greeting_classification_witness :
  is_simple_greeting "Hello there, can you help me?" = true
  /\ fst (chat (Demo.svc [] "")
            {| query := "Hello there, can you help me?"; top_k := Some 5%Z |}
            Demo.w1)
     = Ok {| answer := "answer"; sources := [] |}
  /\ (forall resp,
        fst (chat (Demo.svc [] "")
               {| query := "Hello there, can you help me?"; top_k := Some 5%Z |}
               Demo.w1) = Ok resp ->
        sources resp = []).
Proof.
  split; [reflexivity |]. split; [reflexivity |].
  destruct greeting_classification as (_ & _ & _ & _ & _ & H).
  apply (H (Demo.svc [] "")
           {| query := "Hello there, can you help me?"; top_k := Some 5%Z |}
           Demo.w1).
  reflexivity.
Defined.

(** C10: a query whose lowercased, trimmed form has at most two tokens, the
    empty and the blank query included, is classified as a greeting whether
    or not it matches a greeting phrase; the pipeline then makes no embedding
    or search call, returns no source, and answers as soon as the language
    model does. *)
Theorem short_query_is_greeting svc request w :
  length (PyStr.split (PyStr.strip (PyStr.lower (query request)))) <= 2 ->
  is_simple_greeting (query request) = true
  /\ (exists l, calls (snd (chat svc request w)) = calls w ++ l
                /\ forallb (fun c => negb (is_retrieval c)) l = true)
  /\ (forall resp, fst (chat svc request w) = Ok resp -> sources resp = [])
  /\ (forall c w1 a,
        get_llm_client svc w = (Ok (Some c), w1) ->
        completions_create svc (calls w1)
          (greeting_messages (query request)) 0.7%float = Ok a ->
        chat svc request w =
          (Ok {| answer := a; sources := [] |},
           set_calls (calls w1
                      ++ [CallCompletions (greeting_messages (query request))
                            0.7%float]) w1)).
Proof.
  intros Hlen.
  assert (Hg : is_simple_greeting (query request) = true).
  { apply is_simple_greeting_iff. right; left. exact Hlen. }
  split; [exact Hg |]. now apply chat_greeting_branch.
Qed.

(** The two-word topical query "machine learning", the empty query and the
    blank query: none matches a greeting phrase, all are answered without
    retrieval. *)
Lemma short_query_is_greeting_witness :
  spec_is_greeting "machine learning" = false
  /\ is_simple_greeting "machine learning" = true
  /\ is_simple_greeting "" = true
  /\ is_simple_greeting "   " = true
  /\ chat (Demo.svc [] "") {| query := "machine learning"; top_k := None |}
       Demo.w1
     = (Ok {| answer := "answer"; sources := [] |},
        set_calls (calls Demo.w1
                   ++ [CallCompletions (greeting_messages "machine learning")
                         0.7%float])
          (set_llm (Some "sk-demo") None Demo.w1)).
Proof.
  split; [reflexivity |].
  pose proof (short_query_is_greeting (Demo.svc [] "")
                {| query := "machine learning"; top_k := None |} Demo.w1) as H.
  destruct H as (H1 & _ & _ & H4).
  - apply Nat.leb_le. reflexivity.
  - split; [exact H1 |]. split; [reflexivity |]. split; [reflexivity |].
    apply (H4 "sk-demo" (set_llm (Some "sk-demo") None Demo.w1) "answer");
      reflexivity.
Defined.

(** ** Prompt framing of [get_embedding] *)

(** C7, as the specification words it, fails: the text sent for a query
    neither is the quoted template followed by the query, nor starts with the
    quoted template, nor contains it. *)
Lemma query_template_differs_from_spec :
  format_text "hi" true <> (spec_query_template ++ "hi")%string
  /\ String.prefix spec_query_template (format_text "hi" true) = false
  /\ String.index 0 spec_query_template (format_text "hi" true) = None.
Proof. split; [discriminate | split; reflexivity]. Qed.

(** C7 (amended): with role=query the text sent to the embedding provider is
    the original text prefixed with the fixed template "Instruct: Given a web
    search query, retrieve relevant passages that answer the query", a line
    break and "Query: "; with role=document the raw text is sent unmodified. *)
Theorem embedding_prompt_framing svc text w c w1 :
  get_embeddings_client svc w = (Ok (Some c), w1) ->
  format_text text true = (query_template ++ text)%string
  /\ format_text text false = text
  /\ calls (snd (get_embedding svc text true w))
     = calls w ++ [CallFeatureExtraction (query_template ++ text)%string]
  /\ calls (snd (get_embedding svc text false w))
     = calls w ++ [CallFeatureExtraction text].
Proof.
  intros Hc.
  destruct (get_embeddings_client_frame _ _ _ _ Hc) as (Hcalls & _ & _).
  split; [reflexivity |]. split; [reflexivity |].
  assert (H : forall q,
             calls (snd (get_embedding svc text q w))
             = calls w ++ [CallFeatureExtraction (format_text text q)]).
  { intros q. unfold get_embedding, bind. rewrite Hc. unfold external.
    destruct (feature_extraction svc (calls w1) (format_text text q))
      as [[v | [| v rows]] | e]; cbn; now rewrite Hcalls. }
  split; [apply (H true) | apply (H false)].
Qed.

Lemma embedding_prompt_framing_witness :
  calls (snd (get_embedding (Demo.svc [] "") "what is a vector?" true Demo.w0))
  = [CallFeatureExtraction
       ("Instruct: Given a web search query, retrieve relevant passages that answer the query"
        ++ nl ++ "Query: what is a vector?")%string]
  /\ calls (snd (get_embedding (Demo.svc [] "") "alpha" false Demo.w0))
     = [CallFeatureExtraction "alpha"].
Proof.
  destruct (embedding_prompt_framing (Demo.svc [] "") "what is a vector?"
              Demo.w0 "hf-demo"
              (set_embeddings (Some "hf-demo") None Demo.w0) eq_refl)
    as (_ & _ & H & _).
  destruct (embedding_prompt_framing (Demo.svc [] "") "alpha"
              Demo.w0 "hf-demo"
              (set_embeddings (Some "hf-demo") None Demo.w0) eq_refl)
    as (_ & _ & _ & H').
  split; [exact H | exact H'].
Defined.

(** ** Normalization in [get_embedding] *)

(** When the computed norm is not positive, the vector is returned as it
    is: nothing is divided. *)
Lemma normalize_skips_zero_norm v :
  PrimFloat.ltb 0%float (linalg_norm v) = false -> normalize v = v.
Proof. intros H. unfold normalize. now rewrite H. Qed.

Lemma get_embedding_normalizes svc text is_query w v w' :
  get_embedding svc text is_query w = (Ok v, w') ->
  exists raw, v = normalize raw.
Proof.
  unfold get_embedding, bind. intros H.
  destruct (get_embeddings_client svc w) as [[client | ex] w1];
    [| discriminate].
  destruct client as [c |]; [| discriminate].
  unfold external in H.
  destruct (feature_extraction svc (calls w1) (format_text text is_query))
    as [[raw | [| raw rows]] | ex]; try discriminate;
    inversion H; subst; now exists raw.
Qed.

(** The normalization evaluated in binary64: the computed norm of the result
    is 1 for [3, 4], one unit in the last place below 1 for [1, 1]; the
    zero vector is returned as it is; squares that overflow give a zero
    result, squares that underflow leave the vector as it is. *)
Example normalize_binary64 :
  normalize [3; 4]%float = [0.6; 0.8]%float
  /\ linalg_norm (normalize [3; 4]%float) = 1%float
  /\ linalg_norm (normalize [1; 1]%float) = 0.99999999999999989%float
  /\ normalize [0; 0]%float = [0; 0]%float
  /\ normalize [1e200; 1e200]%float = [0; 0]%float
  /\ normalize [1e-200; 1e-200]%float = [1e-200; 1e-200]%float.
Proof. repeat split; reflexivity. Qed.

(** ** The relevance gate and the reported scores *)

Lemma rag_loop_sources rs : forall idx context_parts sources,
  snd (rag_loop idx rs context_parts sources) = sources ++ map source_of rs.
Proof.
  induction rs as [| r rs IH]; intros idx cp ss; cbn.
  - now rewrite app_nil_r.
  - rewrite IH, <- app_assoc. reflexivity.
Qed.

Lemma source_scores rs : map src_score (map source_of rs) = map sr_score rs.
Proof. rewrite map_map. reflexivity. Qed.

(** When the services answer, [chat] answers, with the gated sources. *)
Lemma chat_retrieval svc request w c w1 e w2 rs w3 :
  is_simple_greeting (query request) = false ->
  get_llm_client svc w = (Ok (Some c), w1) ->
  get_embedding svc (query request) true w1 = (Ok e, w2) ->
  search_similar_chunks svc e (top_k request) w2 = (Ok rs, w3) ->
  (forall m t, exists a, completions_create svc (calls w3) m t = Ok a) ->
  exists a,
    chat svc request w
    = (Ok {| answer := a; sources := gated_sources rs |},
       set_calls (calls w3 ++ [answer_call request rs]) w3).
Proof.
  intros Hg Hc He Hs Hllm.
  unfold chat, chat_body, try_except, bind. rewrite Hc, Hg, He, Hs.
  unfold create, external, answer_call.
  destruct rs as [| r rs].
  - destruct (Hllm [("system", no_documents_system); ("user", query request)]
                0.7%float) as [a Ha].
    rewrite Ha. cbn. eauto.
  - unfold gated_sources.
    destruct (PrimFloat.ltb (max_score (r :: rs)) RELEVANCE_THRESHOLD).
    + destruct (Hllm [("system", low_relevance_system);
                      ("user", query request)] 0.7%float) as [a Ha].
      rewrite Ha. cbn. eauto.
    + pose proof (rag_loop_sources (r :: rs) 1 [] []) as Hsrc.
      destruct (rag_loop 1 (r :: rs) [] []) as [cp ss]. cbn [snd] in Hsrc.
      rewrite app_nil_l in Hsrc. subst ss. cbn [fst].
      match goal with
      | |- context [completions_create svc (calls w3) ?m ?t] =>
          destruct (Hllm m t) as [a Ha]; rewrite Ha
      end.
      cbn. eauto.
Qed.

(** Every response of [chat] that carries sources comes out of RAG mode. *)
Lemma chat_sources_inv svc request w resp w' :
  chat svc request w = (Ok resp, w') ->
  sources resp <> [] ->
  exists c w1 e w2 rs w3,
    get_llm_client svc w = (Ok c, w1)
    /\ get_embedding svc (query request) true w1 = (Ok e, w2)
    /\ search_similar_chunks svc e (top_k request) w2 = (Ok rs, w3)
    /\ PrimFloat.ltb (max_score rs) RELEVANCE_THRESHOLD = false
    /\ sources resp = map source_of rs.
Proof.
  unfold chat, chat_body, try_except, bind. intros H Hne.
  destruct (get_llm_client svc w) as [[c | ex] w1] eqn:Hc;
    [| destruct ex; cbn in H; discriminate].
  destruct (is_simple_greeting (query request)).
  { unfold create, external in H.
    destruct c; [| cbn in H; discriminate].
    destruct (completions_create svc _ _ _) as [a | ex];
      [| destruct ex; cbn in H; discriminate].
    inversion H; subst. now cbn in Hne. }
  destruct (get_embedding svc (query request) true w1) as [[e | ex] w2] eqn:He;
    [| destruct ex; cbn in H; discriminate].
  destruct (search_similar_chunks svc e (top_k request) w2)
    as [[rs | ex] w3] eqn:Hs;
    [| destruct ex; cbn in H; discriminate].
  destruct rs as [| r rs].
  { unfold create, external in H.
    destruct c; [| cbn in H; discriminate].
    destruct (completions_create svc _ _ _) as [a | ex];
      [| destruct ex; cbn in H; discriminate].
    inversion H; subst. now cbn in Hne. }
  destruct (PrimFloat.ltb (max_score (r :: rs)) RELEVANCE_THRESHOLD) eqn:Hgate.
  { unfold create, external in H.
    destruct c; [| cbn in H; discriminate].
    destruct (completions_create svc _ _ _) as [a | ex];
      [| destruct ex; cbn in H; discriminate].
    inversion H; subst. now cbn in Hne. }
  pose proof (rag_loop_sources (r :: rs) 1 [] []) as Hsrc.
  destruct (rag_loop 1 (r :: rs) [] []) as [cp ss]. cbn [snd] in Hsrc.
  rewrite app_nil_l in Hsrc. subst ss.
  unfold create, external in H.
  destruct c; [| cbn in H; discriminate].
  destruct (completions_create svc _ _ _) as [a | ex];
    [| destruct ex; cbn in H; discriminate].
  inversion H; subst. cbn [sources].
  exists (Some s), w1, e, w2, (r :: rs), w3. auto.
Qed.

Lemma item_ok {A} (l : list A) i w a w' :
  item l i w = (Ok a, w') -> nth_error l i = Some a /\ w' = w.
Proof.
  unfold item. destruct (nth_error l i); cbn; intros H; inversion H; auto.
Qed.

Lemma for_each_nth {A B} (f : A -> M B) l : forall w ys w',
  for_each f l w = (Ok ys, w') ->
  length ys = length l
  /\ forall i y, nth_error ys i = Some y ->
       exists x wa wb, nth_error l i = Some x /\ f x wa = (Ok y, wb).
Proof.
  induction l as [| x l IH]; intros w ys w' H; cbn in H.
  - inversion H; subst. split; [reflexivity |].
    intros [| i] y Hy; discriminate.
  - unfold bind in H.
    destruct (f x w) as [[y0 | ex] wa] eqn:Hf; [| discriminate].
    destruct (for_each f l wa) as [[ys0 | ex] wb] eqn:Hr; [| discriminate].
    inversion H; subst. destruct (IH _ _ _ Hr) as [Hlen Hnth].
    split; [cbn; now rewrite Hlen |].
    intros [| i] y Hy; cbn in Hy.
    + inversion Hy; subst. exists x, w, wa. auto.
    + destruct (Hnth i y Hy) as (x' & w1 & w2 & H1 & H2).
      exists x', w1, w2. auto.
Qed.

(** The score that [format_result] reports at index [i]. *)
Lemma format_result_score results i w sr w' :
  format_result results i w = (Ok sr, w') ->
  match qr_distances results with
  | Some distances =>
      exists d0 d, nth_error distances 0 = Some d0
                   /\ nth_error d0 i = Some d
                   /\ sr_score sr = (1 - d)%float
  | None => sr_score sr = 0%float
  end.
Proof.
  unfold format_result, bind. intros H.
  destruct (item (qr_ids results) 0 w) as [[ids0 | ex] wa]; [| discriminate].
  destruct (item ids0 i wa) as [[id | ex] wb]; [| discriminate].
  destruct (qr_distances results) as [distances |].
  - destruct (item distances 0 wb) as [[d0 | ex] wc] eqn:H0; [| discriminate].
    destruct (item d0 i wc) as [[d | ex] wd] eqn:H1; [| discriminate].
    apply item_ok in H0, H1. destruct H0 as [H0 _], H1 as [H1 _].
    cbn in H.
    destruct (item (qr_metadatas results) 0 wd) as [[md0 | ex] we];
      [| discriminate].
    destruct (item md0 i we) as [[md | ex] wf]; [| discriminate].
    destruct (qr_documents results) as [documents |].
    + destruct (item documents 0 wf) as [[t0 | ex] wg]; [| discriminate].
      destruct (item t0 i wg) as [[t | ex] wh]; [| discriminate].
      inversion H; subst. cbn. eauto.
    + inversion H; subst. cbn. eauto.
  - cbn in H.
    destruct (item (qr_metadatas results) 0 wb) as [[md0 | ex] we];
      [| discriminate].
    destruct (item md0 i we) as [[md | ex] wf]; [| discriminate].
    destruct (qr_documents results) as [documents |].
    + destruct (item documents 0 wf) as [[t0 | ex] wg]; [| discriminate].
      destruct (item t0 i wg) as [[t | ex] wh]; [| discriminate].
      inversion H; subst. reflexivity.
    + inversion H; subst. reflexivity.
Qed.

(** The search results are the formatted rows of what the index returned. *)
Lemma search_similar_chunks_inv svc e k w rs w' :
  search_similar_chunks svc e k w = (Ok rs, w') ->
  exists results,
    collection_query svc (calls w) (collection w) e k = Ok results
    /\ forall i sr, nth_error rs i = Some sr ->
         exists wa wb, format_result results i wa = (Ok sr, wb).
Proof.
  unfold search_similar_chunks, bind, get_collection, external. intros H.
  destruct (get_collection_error svc (calls w)); [discriminate |].
  destruct (collection_query svc (calls w) (collection w) e k)
    as [results | ex]; [| discriminate].
  exists results. split; [reflexivity |].
  unfold format_results in H.
  destruct (qr_ids results) as [| ids0 rest].
  { inversion H; subst. intros [| i] sr Hsr; discriminate. }
  destruct (0 <? length ids0).
  - apply for_each_nth in H. destruct H as [_ Hnth].
    intros i sr Hsr. destruct (Hnth i sr Hsr) as (x & wa & wb & Hx & Hf).
    apply nth_error_In in Hx as Hin. apply in_seq in Hin.
    assert (x = i).
    { assert (Hi : i < length (seq 0 (length ids0))).
      { apply nth_error_Some. congruence. }
      rewrite length_seq in Hi.
      rewrite (nth_error_nth' _ 0) in Hx by now rewrite length_seq.
      rewrite seq_nth in Hx by assumption. inversion Hx. reflexivity. }
    subst x. eauto.
  - inversion H; subst. intros [| i] sr Hsr; discriminate.
Qed.

(** ** The order of binary64 floats, from its specification *)

Ltac sf_cases :=
  repeat match goal with
    | b : bool |- _ => destruct b
    end;
  cbn in *; try congruence;
  repeat match goal with
    | H : context [(?a ?= ?b)%Z] |- _ =>
        destruct (Z.compare_spec a b); subst
    | |- context [(?a ?= ?b)%Z] =>
        destruct (Z.compare_spec a b); subst
    end;
  cbn in *; try congruence; try lia;
  repeat match goal with
    | H : context [Pos.compare ?a ?b] |- _ =>
        destruct (Pos.compare_spec a b); subst
    | |- context [Pos.compare ?a ?b] =>
        destruct (Pos.compare_spec a b); subst
    end;
  cbn in *; try congruence; try lia.

Lemma SFltb_trans a b c :
  SpecFloat.SFltb a b = true -> SpecFloat.SFltb a c = false ->
  SpecFloat.SFltb b c = false.
Proof.
  unfold SpecFloat.SFltb, SpecFloat.SFcompare.
  change (PosDef.Pos.compare_cont Eq) with Pos.compare.
  destruct a as [sa | sa | | sa ma ea], b as [sb | sb | | sb mb eb],
    c as [sc | sc | | sc mc ec]; sf_cases.
Qed.

Lemma SFltb_irrefl a : SpecFloat.SFltb a a = false.
Proof.
  unfold SpecFloat.SFltb, SpecFloat.SFcompare.
  change (PosDef.Pos.compare_cont Eq) with Pos.compare.
  destruct a as [sa | sa | | sa ma ea]; sf_cases.
Qed.

Lemma SFltb_leb_trans a b c :
  SpecFloat.SFltb a b = true -> SpecFloat.SFleb b c = true ->
  SpecFloat.SFltb a c = true.
Proof.
  unfold SpecFloat.SFltb, SpecFloat.SFleb, SpecFloat.SFcompare.
  change (PosDef.Pos.compare_cont Eq) with Pos.compare.
  destruct a as [sa | sa | | sa ma ea], b as [sb | sb | | sb mb eb],
    c as [sc | sc | | sc mc ec]; sf_cases.
Qed.

Lemma SFleb_not_ltb a b :
  SpecFloat.SFleb b a = true -> SpecFloat.SFltb a b = false.
Proof.
  unfold SpecFloat.SFltb, SpecFloat.SFleb, SpecFloat.SFcompare.
  change (PosDef.Pos.compare_cont Eq) with Pos.compare.
  destruct a as [sa | sa | | sa ma ea], b as [sb | sb | | sb mb eb]; sf_cases.
Qed.

(** Once [x] compares greater than [m], whatever was not greater than [m] is
    not greater than [x]. *)
Lemma float_ltb_trans m x y :
  PrimFloat.ltb m x = true -> PrimFloat.ltb m y = false ->
  PrimFloat.ltb x y = false.
Proof. rewrite !FloatAxioms.ltb_spec. apply SFltb_trans. Qed.

Lemma float_ltb_irrefl m : PrimFloat.ltb m m = false.
Proof. rewrite FloatAxioms.ltb_spec. apply SFltb_irrefl. Qed.

Lemma float_ltb_leb_trans a b c :
  PrimFloat.ltb a b = true -> PrimFloat.leb b c = true ->
  PrimFloat.ltb a c = true.
Proof.
  rewrite !FloatAxioms.ltb_spec, FloatAxioms.leb_spec.
  apply SFltb_leb_trans.
Qed.

Lemma float_leb_not_ltb a b :
  PrimFloat.leb b a = true -> PrimFloat.ltb a b = false.
Proof.
  rewrite FloatAxioms.ltb_spec, FloatAxioms.leb_spec. apply SFleb_not_ltb.
Qed.

(** ** Python's [max] *)

Lemma py_max_cons m x rest :
  py_max m (x :: rest) = py_max (if PrimFloat.ltb m x then x else m) rest.
Proof. reflexivity. Qed.

(** A score that is not greater than the running maximum is not greater than
    the final one. *)
Lemma py_max_above rest : forall m y,
  PrimFloat.ltb m y = false -> PrimFloat.ltb (py_max m rest) y = false.
Proof.
  induction rest as [| x rest IH]; intros m y H; [exact H |].
  rewrite py_max_cons. apply IH.
  destruct (PrimFloat.ltb m x) eqn:Hx; [| exact H].
  exact (float_ltb_trans _ _ _ Hx H).
Qed.

(** No item compares greater than the result of [max]. *)
Lemma py_max_upper rest : forall m,
  Forall (fun x => PrimFloat.ltb (py_max m rest) x = false) (m :: rest).
Proof.
  induction rest as [| x rest IH]; intros m.
  - constructor; [apply float_ltb_irrefl | constructor].
  - rewrite py_max_cons.
    pose proof (IH (if PrimFloat.ltb m x then x else m)) as Hrest.
    inversion Hrest as [| ? ? _ Htail]; subst.
    constructor; [| constructor; [| exact Htail]].
    + apply py_max_above. destruct (PrimFloat.ltb m x) eqn:Hx.
      * exact (float_ltb_trans _ _ _ Hx (float_ltb_irrefl m)).
      * apply float_ltb_irrefl.
    + apply py_max_above. destruct (PrimFloat.ltb m x) eqn:Hx.
      * apply float_ltb_irrefl.
      * exact Hx.
Qed.

(** The result of [max] is one of the items. *)
Lemma py_max_in rest : forall m, In (py_max m rest) (m :: rest).
Proof.
  induction rest as [| x rest IH]; intros m; [now left |].
  rewrite py_max_cons.
  destruct (IH (if PrimFloat.ltb m x then x else m)) as [H | H].
  - rewrite <- H. destruct (PrimFloat.ltb m x); [right | ]; now left.
  - right; now right.
Qed.

(** On scores from the best match down, [max] is the first. *)
Lemma py_max_descending m rest :
  descending (m :: rest) -> py_max m rest = m.
Proof.
  intros H. apply StronglySorted_inv in H. destruct H as [_ H].
  induction rest as [| x rest IH]; [reflexivity |].
  inversion H as [| ? ? Hx Hrest]; subst.
  rewrite py_max_cons, (float_leb_not_ltb _ _ Hx). now apply IH.
Qed.

Lemma max_score_spec rs :
  rs <> [] ->
  In (max_score rs) (map sr_score rs)
  /\ Forall (fun r => PrimFloat.ltb (max_score rs) (sr_score r) = false) rs.
Proof.
  intros Hne. destruct rs as [| r rs]; [contradiction |].
  unfold max_score. cbn [map]. split; [apply py_max_in |].
  pose proof (py_max_upper (map sr_score rs) (sr_score r)) as H.
  change (sr_score r :: map sr_score rs) with (map sr_score (r :: rs)) in H.
  now rewrite Forall_map in H.
Qed.

(** C2: once a query is past greeting detection and the search returns a
    non-empty result list, the chat answers.  When the maximum score is below
    0.3 it asks the language model under the low-relevance framing and its
    sources are empty; otherwise it asks under the RAG prompt, and its sources
    hold one record per search result, in the order (and with the scores) of
    the results.  The maximum is the largest score: it is the score of one of
    the results and no result has a greater one, so that below the threshold
    no result reaches 0.3 and otherwise some result is not below it, wherever
    in the list it stands.  The sources keep the order of the results: they
    run from the best score down whenever the results do, and then the first
    result decides the gate.  Scores [0.1, 0.05] give no source, and neither
    do [0.05, 0.1]; scores [0.9, 0.4] give exactly two sources, in that
    order, from the best score down; scores [0.1, 0.9] give two sources as
    well. *)
Theorem relevance_gate svc request w c w1 e w2 rs w3 :
  is_simple_greeting (query request) = false ->
  get_llm_client svc w = (Ok (Some c), w1) ->
  get_embedding svc (query request) true w1 = (Ok e, w2) ->
  search_similar_chunks svc e (top_k request) w2 = (Ok rs, w3) ->
  rs <> [] ->
  (forall m t, exists a, completions_create svc (calls w3) m t = Ok a) ->
  (exists a,
     chat svc request w
     = if PrimFloat.ltb (max_score rs) 0.3%float
       then (Ok {| answer := a; sources := [] |},
             set_calls
               (calls w3
                ++ [CallCompletions
                      [("system", low_relevance_system);
                       ("user", query request)] 0.7%float]) w3)
       else (Ok {| answer := a; sources := map source_of rs |},
             set_calls
               (calls w3
                ++ [CallCompletions
                      [("system", rag_system);
                       ("user",
                        rag_prompt
                          (PyStr.join (nl ++ nl)%string
                             (fst (rag_loop 1 rs [] [])))
                          (query request))] 0.3%float]) w3))
  /\ length (map source_of rs) = length rs
  /\ map src_score (map source_of rs) = map sr_score rs
  /\ (forall rs', map sr_score rs' = [0.1; 0.05]%float ->
        gated_sources rs' = [])
  /\ (forall rs', map sr_score rs' = [0.9; 0.4]%float ->
        gated_sources rs' = map source_of rs'
        /\ length (gated_sources rs') = 2
        /\ map src_score (gated_sources rs') = [0.9; 0.4]%float)
  /\ In (max_score rs) (map sr_score rs)
  /\ Forall (fun r => PrimFloat.ltb (max_score rs) (sr_score r) = false) rs
  /\ (PrimFloat.ltb (max_score rs) 0.3%float = true ->
      Forall (fun r => PrimFloat.leb 0.3%float (sr_score r) = false) rs)
  /\ (PrimFloat.ltb (max_score rs) 0.3%float = false ->
      Exists (fun r => PrimFloat.ltb (sr_score r) 0.3%float = false) rs)
  /\ (descending (map sr_score rs) ->
      descending (map src_score (map source_of rs))
      /\ max_score rs = hd 0%float (map sr_score rs))
  /\ (forall rs', map sr_score rs' = [0.05; 0.1]%float ->
        gated_sources rs' = [])
  /\ (forall rs', map sr_score rs' = [0.1; 0.9]%float ->
        gated_sources rs' = map source_of rs'
        /\ map src_score (gated_sources rs') = [0.1; 0.9]%float)
  /\ (forall rs', map sr_score rs' = [0.9; 0.4]%float ->
        descending (map src_score (gated_sources rs'))).
Proof.
  intros Hg Hc He Hs Hne Hllm.
  destruct (max_score_spec rs Hne) as [Hin Hupper].
  assert (Hkeep : forall rs' a b,
            map sr_score rs' = [a; b] ->
            PrimFloat.ltb (py_max a [b]) RELEVANCE_THRESHOLD = false ->
            gated_sources rs' = map source_of rs'
            /\ map src_score (gated_sources rs') = [a; b]).
  { intros rs' a b H Hmax.
    assert (Hgs : gated_sources rs' = map source_of rs').
    { unfold gated_sources, max_score. rewrite H.
      destruct rs'; [discriminate |]. now rewrite Hmax. }
    rewrite Hgs, source_scores. auto. }
  assert (Hdrop : forall rs' a b,
            map sr_score rs' = [a; b] ->
            PrimFloat.ltb (py_max a [b]) RELEVANCE_THRESHOLD = true ->
            gated_sources rs' = []).
  { intros rs' a b H Hmax. unfold gated_sources, max_score. rewrite H.
    destruct rs'; [reflexivity |]. now rewrite Hmax. }
  split.
  { destruct (chat_retrieval svc request w c w1 e w2 rs w3 Hg Hc He Hs Hllm)
      as (a & H).
    exists a. rewrite H. unfold gated_sources, answer_call.
    destruct rs; [contradiction |].
    change RELEVANCE_THRESHOLD with 0.3%float.
    now destruct (PrimFloat.ltb _ _). }
  split; [apply length_map |]. split; [apply source_scores |].
  split; [intros rs' H; now apply (Hdrop rs' _ _ H) |].
  split.
  { intros rs' H. destruct (Hkeep rs' _ _ H eq_refl) as [Hgs Hsc].
    split; [exact Hgs |]. split; [| exact Hsc].
    apply (f_equal (@length _)) in Hsc. now rewrite length_map in Hsc. }
  split; [exact Hin |]. split; [exact Hupper |].
  split.
  { intros Hlow. eapply Forall_impl; [| exact Hupper].
    intros r Hr. cbv beta in Hr.
    destruct (PrimFloat.leb 0.3%float (sr_score r)) eqn:Hle; [| reflexivity].
    rewrite (float_ltb_leb_trans _ _ _ Hlow Hle) in Hr. discriminate. }
  split.
  { intros Hhigh. apply in_map_iff in Hin. destruct Hin as (r & Hr & Hin).
    apply Exists_exists. exists r. split; [exact Hin |]. now rewrite Hr. }
  split.
  { intros Hdesc. rewrite source_scores. split; [exact Hdesc |].
    unfold max_score. destruct (map sr_score rs) as [| m rest];
      [reflexivity |].
    now apply py_max_descending. }
  split; [intros rs' H; now apply (Hdrop rs' _ _ H) |].
  split; [intros rs' H; now apply (Hkeep rs' _ _ H) |].
  intros rs' H. destruct (Hkeep rs' _ _ H eq_refl) as [_ Hsc]. rewrite Hsc.
  repeat constructor.
Qed.

(** The gate at work on the collection [Demo.w1]: at distances [0.1, 0.6] the
    chat returns two sources with scores [0.9, 0.4]; at distances
    [0.9, 0.95] it returns none; at distances [0.95, 0.2], where the best
    match comes second, it returns both sources in the order of the
    results. *)
Lemma relevance_gate_witness :
  (exists a w4,
     chat (Demo.svc [0.1; 0.6]%float "")
       {| query := "what is machine learning"; top_k := Some 2%Z |} Demo.w1
     = (Ok {| answer := a;
              sources :=
                [ {| src_file_name := "report.pdf"; src_page := 1;
                     src_chunk_id := 0; src_score := 0.9%float;
                     src_text := "alpha" |};
                  {| src_file_name := "report.pdf"; src_page := 3;
                     src_chunk_id := 1; src_score := 0.4%float;
                     src_text := "beta" |} ] |}, w4))
  /\ fst (chat (Demo.svc [0.9; 0.95]%float "")
            {| query := "what is machine learning"; top_k := Some 2%Z |}
            Demo.w1)
     = Ok {| answer := "answer"; sources := [] |}
  /\ (exists ss,
        fst (chat (Demo.svc [0.95; 0.2]%float "")
               {| query := "what is machine learning"; top_k := Some 2%Z |}
               Demo.w1)
        = Ok {| answer := "answer"; sources := ss |}
        /\ map src_chunk_id ss = [0; 1]
        /\ map (fun s => PrimFloat.ltb (src_score s) 0.3%float) ss
           = [true; false]).
Proof.
  split; [| split; [reflexivity |]].
  - edestruct (relevance_gate (Demo.svc [0.1; 0.6]%float "")
                 {| query := "what is machine learning"; top_k := Some 2%Z |}
                 Demo.w1)
      as ((a & H) & _).
    + reflexivity.
    + lazy. reflexivity.
    + lazy. reflexivity.
    + lazy. reflexivity.
    + discriminate.
    + intros m t. exists "answer". reflexivity.
    + exists a. eexists. rewrite H. reflexivity.
  - eexists. split; [vm_compute; reflexivity |].
    split; vm_compute; reflexivity.
Defined.

(** ** Normalization on vectors of extreme magnitude *)


Lemma legacy_loop_sources pts : forall idx context_parts sources,
  snd (Legacy.loop idx pts context_parts sources)
  = sources ++ map Legacy.source_of pts.
Proof.
  induction pts as [| p pts IH]; intros idx cp ss; cbn.
  - now rewrite app_nil_r.
  - rewrite IH, <- app_assoc. reflexivity.
Qed.

Lemma legacy_source_scores pts :
  map Legacy.src_score (map Legacy.source_of pts) = map Legacy.sp_score pts.
Proof. rewrite map_map. reflexivity. Qed.

(** The older pipeline reports the scores of the index as they are. *)
Lemma legacy_chat_scores svc request resp :
  Legacy.chat svc request = Ok resp ->
  exists e pts,
    Legacy.embed_query svc (query request) = Ok e
    /\ Legacy.qdrant_search svc e (top_k request) = Ok pts
    /\ map Legacy.src_score (Legacy.sources resp) = map Legacy.sp_score pts.
Proof.
  unfold Legacy.chat, Legacy.chat_body, Legacy.and_then. intros H.
  destruct (Legacy.embed_query svc (query request)) as [e | ex] eqn:He;
    [| discriminate].
  destruct (Legacy.qdrant_search svc e (top_k request)) as [pts | ex] eqn:Hp;
    [| discriminate].
  exists e, pts. split; [reflexivity |]. split; [exact Hp |].
  destruct pts as [| p pts].
  - inversion H; subst. reflexivity.
  - pose proof (legacy_loop_sources (p :: pts) 1 [] []) as Hsrc.
    destruct (Legacy.loop 1 (p :: pts) [] []) as [cp ss].
    cbn [snd] in Hsrc. rewrite app_nil_l in Hsrc. subst ss.
    destruct (Legacy.llm_invoke svc _); [| discriminate].
    inversion H; subst.
    exact (legacy_source_scores (p :: pts)).
Qed.

(** C5: every score that [search_similar_chunks] reports is [1 - distance]
    of the distance the index reported at the same position; a response of
    [chat] that carries sources carries, record by record, the scores of the
    search results, which are the values the relevance gate took the maximum
    of; and the older pipeline, whose index reports similarity, attaches the
    scores of the index unconverted. *)
Theorem score_conversion_uniform :
  (forall svc e k w rs w',
     search_similar_chunks svc e k w = (Ok rs, w') ->
     exists results,
       collection_query svc (calls w) (collection w) e k = Ok results
       /\ forall i sr, nth_error rs i = Some sr ->
            match qr_distances results with
            | Some distances =>
                exists d0 d, nth_error distances 0 = Some d0
                             /\ nth_error d0 i = Some d
                             /\ sr_score sr = (1 - d)%float
            | None => sr_score sr = 0%float
            end)
  /\ (forall svc request w resp w',
        chat svc request w = (Ok resp, w') ->
        sources resp <> [] ->
        exists e w2 rs w3,
          search_similar_chunks svc e (top_k request) w2 = (Ok rs, w3)
          /\ map src_score (sources resp) = map sr_score rs
          /\ max_score rs
             = match map src_score (sources resp) with
               | x :: r => py_max x r
               | [] => 0%float
               end
          /\ PrimFloat.ltb (max_score rs) 0.3%float = false)
  /\ (forall svc request resp,
        Legacy.chat svc request = Ok resp ->
        exists e pts,
          Legacy.embed_query svc (query request) = Ok e
          /\ Legacy.qdrant_search svc e (top_k request) = Ok pts
          /\ map Legacy.src_score (Legacy.sources resp)
             = map Legacy.sp_score pts).
Proof.
  split; [| split].
  - intros svc e k w rs w' H.
    destruct (search_similar_chunks_inv _ _ _ _ _ _ H) as (results & Hq & Hf).
    exists results. split; [exact Hq |].
    intros i sr Hsr. destruct (Hf i sr Hsr) as (wa & wb & Hr).
    exact (format_result_score _ _ _ _ _ Hr).
  - intros svc request w resp w' H Hne.
    destruct (chat_sources_inv _ _ _ _ _ H Hne)
      as (c & w1 & e & w2 & rs & w3 & _ & _ & Hs & Hgate & Hsrc).
    exists e, w2, rs, w3. split; [exact Hs |].
    rewrite Hsrc, source_scores. auto.
  - exact legacy_chat_scores.
Qed.

(** The three parts on the demo deployment: distances [0.25, 0.5] are
    reported as scores [0.75, 0.5], by the search and by the chat alike; the
    older pipeline reports [0.82, 0.31] as the index gave them. *)
Lemma score_conversion_uniform_witness :
  (exists rs,
     fst (search_similar_chunks (Demo.svc [0.25; 0.5]%float "")
            [0.6; 0.8]%float (Some 2%Z) Demo.w1) = Ok rs
     /\ map sr_score rs = [0.75; 0.5]%float)
  /\ (exists resp,
        fst (chat (Demo.svc [0.25; 0.5]%float "")
               {| query := "what is machine learning"; top_k := Some 2%Z |}
               Demo.w1) = Ok resp
        /\ map src_score (sources resp) = [0.75; 0.5]%float)
  /\ (exists resp,
        Legacy.chat Demo.legacy
          {| query := "what is machine learning"; top_k := Some 2%Z |}
        = Ok resp
        /\ map Legacy.src_score (Legacy.sources resp) = [0.82; 0.31]%float).
Proof.
  destruct score_conversion_uniform as (H1 & H2 & H3).
  split; [| split].
  - destruct (search_similar_chunks (Demo.svc [0.25; 0.5]%float "")
                [0.6; 0.8]%float (Some 2%Z) Demo.w1) as [r w'] eqn:Hs.
    lazy in Hs. inversion Hs; subst r w'. clear Hs.
    eexists. split; [reflexivity |]. reflexivity.
  - eexists. split; [lazy; reflexivity |]. reflexivity.
  - destruct (Legacy.chat Demo.legacy
                {| query := "what is machine learning"; top_k := Some 2%Z |})
      as [resp | ex] eqn:Hc; [| discriminate].
    exists resp. split; [reflexivity |].
    destruct (H3 _ _ _ Hc) as (e & pts & He & Hp & Hscores).
    rewrite Hscores. inversion Hp; subst pts. reflexivity.
Defined.

(** ** Ingestion: what runs before the write *)

Lemma all_answered_app svc l1 : forall h l2,
  all_answered svc h (l1 ++ l2)
  = all_answered svc h l1 && all_answered svc (h ++ l1) l2.
Proof.
  induction l1 as [| c l1 IH]; intros h l2; cbn.
  - now rewrite app_nil_r.
  - rewrite IH, <- app_assoc, andb_assoc. reflexivity.
Qed.

Section Quiet.

Variable svc : services.

Lemma quiet_ret {A} (a : A) : quiet svc (ret a).
Proof.
  intros w r w' H. inversion H; subst.
  split; [reflexivity |]. split; [lia |].
  exists []. now rewrite app_nil_r.
Qed.

Lemma quiet_raise {A} e : quiet svc (@raise A e).
Proof.
  intros w r w' H. inversion H; subst.
  split; [reflexivity |]. split; [lia |].
  exists []. rewrite app_nil_r. now repeat split.
Qed.

Lemma quiet_bind {A B} (m : M A) (k : A -> M B) :
  quiet svc m -> (forall a, quiet svc (k a)) -> quiet svc (bind m k).
Proof.
  intros Hm Hk w r w' H. unfold bind in H.
  destruct (m w) as [[a | e] w1] eqn:Em.
  - destruct (Hm _ _ _ Em) as (Hc1 & Hu1 & l1 & Hl1 & Hw1 & Ha1).
    destruct (Hk a _ _ _ H) as (Hc2 & Hu2 & l2 & Hl2 & Hw2 & Ha2).
    split; [congruence |]. split; [lia |].
    exists (l1 ++ l2). rewrite Hl2, Hl1, app_assoc.
    split; [reflexivity |]. split.
    + rewrite forallb_app, Hw1, Hw2. reflexivity.
    + intros Hok. rewrite all_answered_app, Ha1 by reflexivity.
      rewrite <- Hl1. now apply Ha2.
  - inversion H; subst.
    destruct (Hm _ _ _ Em) as (Hc1 & Hu1 & l1 & Hl1 & Hw1 & _).
    split; [assumption |]. split; [assumption |].
    exists l1. repeat split; try assumption. discriminate.
Qed.

Lemma quiet_external {A} c (f : list call -> result A) :
  is_write c = false ->
  (forall h, answered svc h c = is_ok (f h)) ->
  quiet svc (external c f).
Proof.
  intros Hc Hf w r w' H. unfold external in H. inversion H; subst. cbn.
  split; [reflexivity |]. split; [lia |].
  exists [c]. split; [reflexivity |]. cbn. rewrite Hc. split; [reflexivity |].
  intros Hok. now rewrite Hf, Hok.
Qed.

Lemma quiet_uuid4 : quiet svc uuid4.
Proof.
  intros w r w' H. unfold uuid4 in H. inversion H; subst. cbn.
  split; [reflexivity |]. split; [lia |].
  exists []. now rewrite app_nil_r.
Qed.

Lemma quiet_get_collection : quiet svc (get_collection svc).
Proof.
  intros w r w' H. unfold get_collection in H.
  destruct (get_collection_error svc (calls w)); inversion H; subst;
    (split; [reflexivity |]); (split; [lia |]);
    exists []; rewrite app_nil_r; now repeat split.
Qed.

Lemma quiet_get_embeddings_client : quiet svc (get_embeddings_client svc).
Proof.
  intros w r w' H.
  destruct (get_embeddings_client_frame _ _ _ _ H) as (Hc & Hcol & Hu).
  split; [assumption |]. split; [lia |].
  exists []. now rewrite app_nil_r.
Qed.

Lemma quiet_fold_m {S A} (f : S -> A -> M S) l :
  (forall s x, quiet svc (f s x)) -> forall s, quiet svc (fold_m f l s).
Proof.
  intros Hf. induction l as [| x l IH]; intros s; cbn.
  - apply quiet_ret.
  - apply quiet_bind; [apply Hf | intros s'; apply IH].
Qed.

Lemma quiet_get_embedding text is_query :
  quiet svc (get_embedding svc text is_query).
Proof.
  unfold get_embedding.
  apply quiet_bind; [apply quiet_get_embeddings_client |]. intros client.
  apply quiet_bind.
  { destruct client; [| apply quiet_raise].
    apply quiet_external; [reflexivity | reflexivity]. }
  intros result. apply quiet_bind; [| intros; apply quiet_ret].
  destruct result as [v | [| v rows]];
    [apply quiet_ret | apply quiet_raise | apply quiet_ret].
Qed.

Lemma quiet_extract_text file_path file_name :
  quiet svc (extract_text svc file_path file_name).
Proof.
  unfold extract_text, extract_text_from_pdf, extract_text_from_docx,
    extract_text_from_txt.
  repeat match goal with
    | |- quiet _ (if ?b then _ else _) => destruct b
    end;
    try apply quiet_raise;
    (apply quiet_bind;
     [apply quiet_external; reflexivity | intros; apply quiet_ret]).
Qed.

Lemma quiet_split_text text : quiet svc (split_text svc text).
Proof. apply quiet_external; reflexivity. Qed.

Lemma quiet_chunk_step d file_name ts page_num acc chunk :
  quiet svc (chunk_step svc d file_name ts page_num acc chunk).
Proof.
  unfold chunk_step. destruct acc as [all_rows n].
  apply quiet_bind; [apply quiet_get_embedding |]. intros embedding.
  apply quiet_bind; [apply quiet_uuid4 |]. intros chunk_uuid.
  apply quiet_ret.
Qed.

Lemma quiet_page_step d file_name ts acc text_page :
  quiet svc (page_step svc d file_name ts acc text_page).
Proof.
  unfold page_step. destruct text_page as [text page_num].
  apply quiet_bind; [apply quiet_split_text |]. intros chunks.
  apply quiet_fold_m. intros s x. apply quiet_chunk_step.
Qed.

End Quiet.


(** ** Ingestion: the rows of the batch *)

Lemma chunk_row_weaken d fn ts lo hi lo' hi' r :
  lo' <= lo -> hi <= hi' -> chunk_row d fn ts lo hi r ->
  chunk_row d fn ts lo' hi' r.
Proof.
  intros H1 H2 (Hd & Hf & Ht & k & Hk & Hid).
  repeat split; try assumption. exists k. split; [lia | assumption].
Qed.

Lemma chunk_step_ok svc d fn ts p rows n chunk w acc w' :
  chunk_step svc d fn ts p (rows, n) chunk w = (Ok acc, w') ->
  exists r,
    acc = (rows ++ [r], n + 1)
    /\ row_document r = chunk
    /\ chunk_id (row_metadata r) = n
    /\ page (row_metadata r) = p
    /\ chunk_row d fn ts (uuids w) (uuids w') r
    /\ uuids w < uuids w'.
Proof.
  unfold chunk_step, bind. intros H.
  destruct (get_embedding svc chunk false w) as [[e | ex] wa] eqn:He;
    [| discriminate].
  destruct (quiet_get_embedding svc _ _ _ _ _ He) as (_ & Hu & _).
  unfold uuid4, ret in H. inversion H; subst. cbn.
  eexists. split; [reflexivity |]. cbn.
  split; [reflexivity |]. split; [reflexivity |]. split; [reflexivity |].
  split; [| lia].
  unfold chunk_row. cbn. split; [reflexivity |]. split; [reflexivity |].
  split; [reflexivity |].
  exists (uuids wa). split; [lia | reflexivity].
Qed.

Lemma chunk_loop_ok svc d fn ts p chunks : forall rows n w acc w',
  fold_m (chunk_step svc d fn ts p) chunks (rows, n) w = (Ok acc, w') ->
  exists new,
    acc = (rows ++ new, n + length chunks)
    /\ map row_document new = chunks
    /\ map (fun r => chunk_id (row_metadata r)) new = seq n (length chunks)
    /\ Forall (fun r => page (row_metadata r) = p) new
    /\ Forall (chunk_row d fn ts (uuids w) (uuids w')) new
    /\ uuids w <= uuids w'.
Proof.
  induction chunks as [| c chunks IH]; intros rows n w acc w' H;
    cbn [fold_m] in H.
  - inversion H; subst. exists []. rewrite app_nil_r, Nat.add_0_r.
    repeat split; auto.
  - unfold bind in H.
    destruct (chunk_step svc d fn ts p (rows, n) c w) as [[acc1 | ex] w1] eqn:Hs;
      [| discriminate].
    destruct (chunk_step_ok _ _ _ _ _ _ _ _ _ _ _ Hs)
      as (r & -> & Hdoc & Hid & Hp & Hrow & Hu).
    destruct (IH _ _ _ _ _ H) as (new & -> & Hdocs & Hids & Hps & Hrows & Hu').
    exists (r :: new). rewrite <- app_assoc. cbn [app length map seq].
    rewrite Hdoc, Hid, Hdocs, Hids.
    replace (n + 1 + length chunks) with (n + S (length chunks)) by lia.
    replace (n + 1) with (S n) by lia.
    repeat split; try lia.
    + constructor; assumption.
    + constructor.
      * eapply chunk_row_weaken; [| | exact Hrow]; lia.
      * eapply Forall_impl; [| exact Hrows]. intros r' Hr'.
        eapply chunk_row_weaken; [| | exact Hr']; lia.
Qed.

Lemma page_loop_ok svc d fn ts pages : forall rows n w acc w',
  fold_m (page_step svc d fn ts) pages (rows, n) w = (Ok acc, w') ->
  exists chunkss new,
    Forall2 (fun tp cs =>
               exists h, text_splitter_split_text svc h (fst tp) = Ok cs)
      pages chunkss
    /\ acc = (rows ++ new, n + length new)
    /\ map (fun r => (row_document r, page (row_metadata r))) new
       = chunks_in_order pages chunkss
    /\ map (fun r => chunk_id (row_metadata r)) new = seq n (length new)
    /\ Forall (chunk_row d fn ts (uuids w) (uuids w')) new
    /\ uuids w <= uuids w'.
Proof.
  induction pages as [| [text p] pages IH]; intros rows n w acc w' H;
    cbn [fold_m] in H.
  - inversion H; subst. exists [], []. rewrite app_nil_r, Nat.add_0_r.
    repeat split; auto.
  - unfold bind in H.
    destruct (page_step svc d fn ts (rows, n) (text, p) w)
      as [[acc1 | ex] w1] eqn:Hs; [| discriminate].
    unfold page_step, bind in Hs.
    destruct (split_text svc text w) as [[chunks | ex] w0] eqn:Hsp;
      [| discriminate].
    assert (Hu0 : uuids w0 = uuids w /\
                  text_splitter_split_text svc (calls w) text = Ok chunks).
    { unfold split_text, external in Hsp. inversion Hsp; subst. auto. }
    destruct Hu0 as [Hu0 Hsplit].
    destruct (chunk_loop_ok _ _ _ _ _ _ _ _ _ _ _ Hs)
      as (new1 & -> & Hdocs1 & Hids1 & Hps1 & Hrows1 & Hu1).
    destruct (IH _ _ _ _ _ H)
      as (chunkss & new2 & HF & -> & Hdocs2 & Hids2 & Hrows2 & Hu2).
    exists (chunks :: chunkss), (new1 ++ new2).
    assert (Hlen1 : length new1 = length chunks).
    { rewrite <- Hdocs1. now rewrite length_map. }
    split; [constructor; [exists (calls w); exact Hsplit | exact HF] |].
    split; [rewrite <- app_assoc, length_app, Hlen1; f_equal; lia |].
    split.
    { unfold chunks_in_order in *. cbn [combine flat_map fst snd].
      rewrite map_app, Hdocs2. f_equal.
      rewrite <- Hdocs1. clear - Hps1.
      induction Hps1 as [| r l Hr _ IHl]; cbn; [reflexivity |].
      rewrite Hr, IHl. reflexivity. }
    split.
    { rewrite map_app, length_app, seq_app, Hids1, Hids2, Hlen1.
      reflexivity. }
    split; [| lia].
    apply Forall_app. split.
    + eapply Forall_impl; [| exact Hrows1]. intros r Hr.
      eapply chunk_row_weaken; [| | exact Hr]; lia.
    + eapply Forall_impl; [| exact Hrows2]. intros r Hr.
      eapply chunk_row_weaken; [| | exact Hr]; lia.
Qed.

(** What a successful ingestion has done. *)
Lemma process_ok svc file_path fn ts w st w' :
  process_and_store_document svc file_path fn ts w = (Ok st, w') ->
  exists text_pages w1 chunkss batch,
    extract_text svc file_path fn w = (Ok text_pages, w1)
    /\ Forall2 (fun tp cs =>
                  exists h, text_splitter_split_text svc h (fst tp) = Ok cs)
         text_pages chunkss
    /\ collection w' = collection w ++ batch
    /\ chunks_created st = length batch
    /\ map (fun r => (row_document r, page (row_metadata r))) batch
       = chunks_in_order text_pages chunkss
    /\ map (fun r => chunk_id (row_metadata r)) batch = seq 0 (length batch)
    /\ (exists k, uuids w <= k < uuids w' /\ st_doc_id st = uuid_str k)
    /\ Forall (chunk_row (st_doc_id st) fn ts (uuids w) (uuids w')) batch.
Proof.
  unfold process_and_store_document, bind. intros H.
  destruct (extract_text svc file_path fn w) as [[pages | e] w1] eqn:E1;
    [| discriminate].
  destruct (quiet_extract_text svc _ _ _ _ _ E1) as (Hc1 & Hu1 & _).
  destruct pages as [| pg pages]; [discriminate |].
  destruct (uuid4 w1) as [[d | e] w2] eqn:E2; [| discriminate].
  unfold uuid4 in E2. inversion E2; subst d w2. clear E2.
  destruct (get_collection svc (set_uuids (S (uuids w1)) w1))
    as [[[] | e] w3] eqn:E3; [| discriminate].
  destruct (quiet_get_collection svc _ _ _ E3) as (Hc3 & Hu3 & _).
  cbn in Hc3, Hu3.
  destruct (fold_m (page_step svc (uuid_str (uuids w1)) fn ts) (pg :: pages)
              ([], 0) w3) as [[acc | e] w4] eqn:E4; [| discriminate].
  destruct (quiet_fold_m svc _ (pg :: pages)
              (quiet_page_step svc (uuid_str (uuids w1)) fn ts) _ _ _ _ E4)
    as (Hc4 & _ & _).
  destruct (page_loop_ok _ _ _ _ _ _ _ _ _ _ E4)
    as (chunkss & batch & HF & -> & Hdocs & Hids & Hrows & Hu4).
  unfold collection_add in H. cbn [fst] in H.
  destruct (collection_add_error svc (calls w4) ([] ++ batch));
    [discriminate |].
  inversion H; subst. cbn.
  exists (pg :: pages), w1, chunkss, batch.
  split; [reflexivity |]. split; [exact HF |].
  split; [congruence |]. split; [reflexivity |].
  split; [exact Hdocs |]. split; [exact Hids |].
  split; [exists (uuids w1); split; [lia | reflexivity] |].
  eapply Forall_impl; [| exact Hrows]. intros r Hr.
  eapply chunk_row_weaken; [| | exact Hr]; lia.
Qed.

(** C6: the rows that a successful ingestion adds hold the chunks of the
    extracted pages, page after page and, within a page, in the order of the
    split; their [chunk_id]s, in that order, are 0, 1, ... up to
    [chunks_created - 1], and all carry the returned [doc_id]. *)
Theorem chunk_index_contiguous svc file_path fn ts w st w' :
  process_and_store_document svc file_path fn ts w = (Ok st, w') ->
  exists text_pages w1 chunkss batch,
    extract_text svc file_path fn w = (Ok text_pages, w1)
    /\ Forall2 (fun tp cs =>
                  exists h, text_splitter_split_text svc h (fst tp) = Ok cs)
         text_pages chunkss
    /\ collection w' = collection w ++ batch
    /\ length batch = chunks_created st
    /\ Forall (fun r => doc_id (row_metadata r) = st_doc_id st) batch
    /\ map (fun r => (row_document r, page (row_metadata r))) batch
       = chunks_in_order text_pages chunkss
    /\ map (fun r => chunk_id (row_metadata r)) batch
       = seq 0 (chunks_created st).
Proof.
  intros H.
  destruct (process_ok _ _ _ _ _ _ _ H)
    as (text_pages & w1 & chunkss & batch
        & He & HF & Hcol & Hn & Hdocs & Hids & _ & Hrows).
  exists text_pages, w1, chunkss, batch.
  rewrite Hn. repeat split; try assumption.
  eapply Forall_impl; [| exact Hrows]. now intros r (Hd & _).
Qed.

(** The upload of [report.pdf]: pages 1, 3 and 4 carry text, and their
    chunks get the indices 0, 1, 2. *)
Lemma chunk_index_contiguous_witness :
  map (fun r => (row_document r, page (row_metadata r),
                 chunk_id (row_metadata r)))
    (collection Demo.w1)
  = [("alpha", 1, 0); ("beta", 3, 1); ("gamma", 4, 2)]
  /\ exists batch,
       collection Demo.w1 = collection Demo.w0 ++ batch
       /\ map (fun r => chunk_id (row_metadata r)) batch = seq 0 3.
Proof.
  split; [reflexivity |].
  destruct (chunk_index_contiguous (Demo.svc [] "") "/tmp/a" "report.pdf"
              Demo.ts1 Demo.w0
              {| st_doc_id := "uuid-0"; chunks_created := 3 |} Demo.w1)
    as (text_pages & w1 & chunkss & batch & _ & _ & Hcol & _ & _ & _ & Hids).
  - vm_compute. reflexivity.
  - exists batch. split; [exact Hcol | exact Hids].
Defined.

(** C3: whatever an ingestion returns, the only write it can have made is
    one [collection.add], made last; when it raises, the collection is as it
    was before; when it returns, every extraction, chunking and embedding
    call it made had been answered, and the collection grew by one batch,
    which holds every chunk of every extracted page and which
    [chunks_created] counts. *)
Theorem ingestion_all_or_nothing svc file_path file_name ts w r w' :
  process_and_store_document svc file_path file_name ts w = (r, w') ->
  exists prior,
    forallb (fun c => negb (is_write c)) prior = true
    /\ match r with
       | Raise e =>
           collection w' = collection w
           /\ (calls w' = calls w ++ prior
               \/ exists batch,
                    calls w' = calls w ++ prior ++ [CallAdd batch]
                    /\ collection_add_error svc (calls w ++ prior) batch
                       = Some e)
       | Ok st =>
           exists batch text_pages chunkss,
             calls w' = calls w ++ prior ++ [CallAdd batch]
             /\ all_answered svc (calls w) prior = true
             /\ collection w' = collection w ++ batch
             /\ chunks_created st = length batch
             /\ Forall2 (fun tp cs =>
                           exists h,
                             text_splitter_split_text svc h (fst tp) = Ok cs)
                  text_pages chunkss
             /\ map (fun r => (row_document r, page (row_metadata r))) batch
                = chunks_in_order text_pages chunkss
       end.
Proof.
  unfold process_and_store_document, bind. intros H.
  destruct (extract_text svc file_path file_name w) as [[pages | e] w1] eqn:E1;
    destruct (quiet_extract_text svc _ _ _ _ _ E1)
      as (Hc1 & _ & l1 & Hl1 & Hw1 & Ha1).
  2:{ inversion H; subst. exists l1. auto. }
  destruct pages as [| pg pages].
  { inversion H; subst. exists l1. auto. }
  destruct (uuid4 w1) as [[d | e] w2] eqn:E2;
    destruct (quiet_uuid4 svc _ _ _ E2) as (Hc2 & _ & l2 & Hl2 & Hw2 & Ha2).
  2:{ inversion H; subst. exists (l1 ++ l2).
      rewrite forallb_app, Hw1, Hw2, Hl2, Hl1, app_assoc.
      split; [reflexivity |]. split; [congruence | auto]. }
  destruct (get_collection svc w2) as [[[] | e] w3] eqn:E3;
    destruct (quiet_get_collection svc _ _ _ E3)
      as (Hc3 & _ & l3 & Hl3 & Hw3 & Ha3).
  2:{ inversion H; subst. exists (l1 ++ l2 ++ l3).
      rewrite !forallb_app, Hw1, Hw2, Hw3, Hl3, Hl2, Hl1, !app_assoc.
      split; [reflexivity |]. split; [congruence | auto]. }
  destruct (fold_m (page_step svc d file_name ts) (pg :: pages) ([], 0) w3)
    as [[acc | e] w4] eqn:E4;
    destruct (quiet_fold_m svc _ (pg :: pages)
                (quiet_page_step svc d file_name ts) _ _ _ _ E4)
      as (Hc4 & _ & l4 & Hl4 & Hw4 & Ha4).
  2:{ inversion H; subst. exists (l1 ++ l2 ++ l3 ++ l4).
      rewrite !forallb_app, Hw1, Hw2, Hw3, Hw4, Hl4, Hl3, Hl2, Hl1, !app_assoc.
      split; [reflexivity |]. split; [congruence | auto]. }
  exists (l1 ++ l2 ++ l3 ++ l4).
  rewrite !forallb_app, Hw1, Hw2, Hw3, Hw4. split; [reflexivity |].
  assert (Hcalls : calls w4 = calls w ++ l1 ++ l2 ++ l3 ++ l4).
  { rewrite Hl4, Hl3, Hl2, Hl1, !app_assoc. reflexivity. }
  assert (Hcol : collection w4 = collection w) by congruence.
  unfold collection_add in H.
  destruct (collection_add_error svc (calls w4) (fst acc)) as [e |] eqn:Eadd;
    inversion H; subst; cbn.
  - split; [assumption |]. right. exists (fst acc).
    rewrite (app_assoc (calls w)), <- Hcalls. auto.
  - destruct (page_loop_ok _ _ _ _ _ _ _ _ _ _ E4)
      as (chunkss & batch & HF & -> & Hdocs & _).
    exists batch, (pg :: pages), chunkss.
    rewrite (app_assoc (calls w)), <- Hcalls, Hcol.
    split; [reflexivity |]. split; [| repeat split; assumption].
    rewrite !all_answered_app, <- Hl1, <- Hl2, <- Hl3, Ha1, Ha2, Ha3, Ha4
      by reflexivity.
    reflexivity.
Qed.

(** An ingestion that fails on its third chunk, on a collection that holds
    three rows already: the rows are untouched. *)
Lemma ingestion_all_or_nothing_witness :
  fst (process_and_store_document (Demo.svc [] "gamma") "/tmp/c" "draft.pdf"
         Demo.ts2 Demo.w1)
  = Raise (Exception "503 Service Unavailable")
  /\ collection (snd (process_and_store_document (Demo.svc [] "gamma")
                        "/tmp/c" "draft.pdf" Demo.ts2 Demo.w1))
     = collection Demo.w1.
Proof.
  assert (Hfst : fst (process_and_store_document (Demo.svc [] "gamma")
                        "/tmp/c" "draft.pdf" Demo.ts2 Demo.w1)
                 = Raise (Exception "503 Service Unavailable"))
    by (vm_compute; reflexivity).
  split; [exact Hfst |].
  destruct (process_and_store_document (Demo.svc [] "gamma")
              "/tmp/c" "draft.pdf" Demo.ts2 Demo.w1) as [r w'] eqn:H.
  cbn [fst snd] in *. subst r.
  destruct (ingestion_all_or_nothing _ _ _ _ _ _ _ H) as (prior & _ & Hcol & _).
  exact Hcol.
Defined.

(** ** Deletion *)

Lemma to_uint_nonnil n : Nat.to_uint n <> Decimal.Nil.
Proof.
  pose proof (DecimalNat.Unsigned.to_of (Nat.to_uint n)) as H.
  rewrite DecimalNat.Unsigned.of_to in H. rewrite H.
  apply DecimalFacts.unorm_nonnil.
Qed.

Lemma of_nat_inj a b : PyStr.of_nat a = PyStr.of_nat b -> a = b.
Proof.
  unfold PyStr.of_nat. intros H.
  apply (f_equal DecimalString.NilZero.uint_of_string) in H.
  rewrite !DecimalString.NilZero.usu in H by apply to_uint_nonnil.
  inversion H. now apply DecimalNat.Unsigned.to_uint_inj.
Qed.

Lemma uuid_str_inj a b : uuid_str a = uuid_str b -> a = b.
Proof.
  unfold uuid_str. intros H. cbn in H. inversion H. now apply of_nat_inj.
Qed.

Lemma filter_none {A} (f : A -> bool) l :
  Forall (fun x => f x = false) l -> filter f l = [].
Proof.
  induction 1 as [| x l Hx _ IH]; cbn; [reflexivity |]. now rewrite Hx.
Qed.

Lemma filter_all {A} (f : A -> bool) l :
  Forall (fun x => f x = true) l -> filter f l = l.
Proof.
  induction 1 as [| x l Hx _ IH]; cbn; [reflexivity |]. now rewrite Hx, IH.
Qed.

(** What [delete_document_chunks] does when the collection can be opened. *)
Lemma delete_document_chunks_run svc d w :
  get_collection_error svc (calls w) = None ->
  exists w',
    delete_document_chunks svc d w
    = (Ok (length (filter (of_document d) (collection w))), w')
    /\ collection w'
       = filter (fun r => negb (PyStr.mem (row_id r)
                                  (map row_id (filter (of_document d)
                                                 (collection w)))))
           (collection w)
    /\ uuids w' = uuids w.
Proof.
  intros Hg. unfold delete_document_chunks, bind, get_collection. rewrite Hg.
  unfold collection_get_ids. cbn [fst snd]. fold (of_document d).
  rewrite length_map.
  destruct (filter (of_document d) (collection w)) as [| r rs] eqn:Hf.
  - cbn. eexists. split; [reflexivity |]. cbn. split; [| reflexivity].
    symmetry. apply filter_all. apply Forall_forall. reflexivity.
  - cbn. eexists. split; [reflexivity |]. cbn. split; reflexivity.
Qed.

Lemma delete_document_run svc d w :
  get_collection_error svc (calls w) = None ->
  exists w',
    delete_document svc d w
    = (match length (filter (of_document d) (collection w)) with
       | 0 => Raise (HTTPException 404 "Document not found")
       | S n => Ok (deleted_message (S n) d)
       end, w')
    /\ collection w'
       = filter (fun r => negb (PyStr.mem (row_id r)
                                  (map row_id (filter (of_document d)
                                                 (collection w)))))
           (collection w)
    /\ uuids w' = uuids w.
Proof.
  intros Hg.
  destruct (delete_document_chunks_run svc d w Hg) as (w' & Hrun & Hcol & Hu).
  exists w'. split; [| split; assumption].
  unfold delete_document, try_except, bind. rewrite Hrun.
  destruct (length (filter (of_document d) (collection w))); reflexivity.
Qed.

Lemma mem_map_row_id (r : row) rows :
  In r rows -> PyStr.mem (row_id r) (map row_id rows) = true.
Proof. intros H. apply mem_In. now apply in_map. Qed.

(** Deleting the document that was just added gives back the collection. *)
Lemma delete_added_batch d fn ts lo hi old batch :
  fresh_from lo old ->
  (exists k, lo <= k /\ d = uuid_str k) ->
  Forall (chunk_row d fn ts lo hi) batch ->
  filter (of_document d) (old ++ batch) = batch
  /\ filter (fun r => negb (PyStr.mem (row_id r) (map row_id batch)))
       (old ++ batch) = old
  /\ filter (of_document d) old = [].
Proof.
  intros Hfresh (k0 & Hk0 & ->) Hrows.
  assert (Hold : filter (of_document (uuid_str k0)) old = []).
  { apply filter_none. apply Forall_forall. intros r Hr.
    unfold of_document. apply String.eqb_neq.
    now apply (Hfresh r k0 Hr Hk0). }
  split; [| split; [| exact Hold]].
  - rewrite filter_app, Hold. cbn. apply filter_all.
    eapply Forall_impl; [| exact Hrows]. intros r (Hd & _).
    unfold of_document. now apply String.eqb_eq.
  - rewrite filter_app.
    rewrite (filter_all _ old), (filter_none _ batch).
    + apply app_nil_r.
    + apply Forall_forall. intros r Hr.
      now rewrite mem_map_row_id.
    + apply Forall_forall. intros r Hr.
      destruct (PyStr.mem (row_id r) (map row_id batch)) eqn:Hm;
        [| reflexivity].
      apply mem_In, in_map_iff in Hm. destruct Hm as (b & Hb & Hin).
      rewrite Forall_forall in Hrows.
      destruct (Hrows b Hin) as (_ & _ & _ & k & Hk & Hid).
      destruct (Hfresh r k Hr) as [Hne _]; [lia |].
      congruence.
Qed.

(** C4 (amended): an upload of a document with three extractable pages,
    each split into exactly one chunk, reports [chunks_created = 3]; deleting
    its [doc_id] then removes every row of the document and no other, and
    answers with a message that states the three deleted chunks; deleting the
    same [doc_id] again finds nothing, answers 404 "Document not found" and
    leaves the collection as it is. *)
Theorem upload_delete_round_trip
    svc file_path fn ts w st w1 t1 p1 t2 p2 t3 p3 w0 :
  fresh_from (uuids w) (collection w) ->
  (forall h, get_collection_error svc h = None) ->
  extract_text svc file_path fn w = (Ok [(t1, p1); (t2, p2); (t3, p3)], w0) ->
  (forall h t, In t [t1; t2; t3] ->
     exists c, text_splitter_split_text svc h t = Ok [c]) ->
  process_and_store_document svc file_path fn ts w = (Ok st, w1) ->
  chunks_created st = 3
  /\ exists w2 w3,
       delete_document svc (st_doc_id st) w1
       = (Ok [("message",
               JStr ("Deleted 3 chunks for document " ++ st_doc_id st)%string)],
          w2)
       /\ collection w2 = collection w
       /\ Forall (fun r => doc_id (row_metadata r) <> st_doc_id st)
            (collection w2)
       /\ delete_document svc (st_doc_id st) w2
          = (Raise (HTTPException 404 "Document not found"), w3)
       /\ collection w3 = collection w2.
Proof.
  intros Hfresh Hget Hext Hsplit Hrun.
  destruct (process_ok _ _ _ _ _ _ _ Hrun)
    as (text_pages & w0' & chunkss & batch
        & He & HF & Hcol & Hn & Hdocs & _ & Hd & Hrows).
  rewrite Hext in He. inversion He; subst text_pages w0'. clear He.
  assert (Hlen : length batch = 3).
  { inversion HF as [| ? cs1 ? l1 (h1 & H1) HF1]; subst.
    inversion HF1 as [| ? cs2 ? l2 (h2 & H2) HF2]; subst.
    inversion HF2 as [| ? cs3 ? l3 (h3 & H3) HF3]; subst.
    inversion HF3; subst. cbn [fst] in H1, H2, H3.
    destruct (Hsplit h1 t1) as [c1 Hc1]; [cbn; auto |].
    destruct (Hsplit h2 t2) as [c2 Hc2]; [cbn; auto |].
    destruct (Hsplit h3 t3) as [c3 Hc3]; [cbn; auto |].
    rewrite Hc1 in H1. rewrite Hc2 in H2. rewrite Hc3 in H3.
    inversion H1; inversion H2; inversion H3; subst.
    apply (f_equal (@length _)) in Hdocs.
    rewrite length_map in Hdocs. exact Hdocs. }
  split; [congruence |].
  destruct Hd as (k & [Hk _] & Hd).
  assert (Hd' : exists k, uuids w <= k /\ st_doc_id st = uuid_str k)
    by eauto.
  destruct (delete_added_batch _ _ _ _ _ _ _ Hfresh Hd' Hrows)
    as (Hf1 & Hf2 & Hf3).
  destruct (delete_document_run svc (st_doc_id st) w1 (Hget _))
    as (w2 & Hdel & Hcol2 & _).
  rewrite Hcol, Hf1, Hlen in Hdel. rewrite Hcol, Hf1, Hf2 in Hcol2.
  destruct (delete_document_run svc (st_doc_id st) w2 (Hget _))
    as (w3 & Hdel' & Hcol3 & _).
  rewrite Hcol2, Hf3 in Hdel'. rewrite Hcol2, Hf3 in Hcol3.
  cbn [length map] in Hdel', Hcol3.
  exists w2, w3. split; [exact Hdel |]. split; [exact Hcol2 |].
  split.
  { rewrite Hcol2. apply Forall_forall. intros r Hr.
    rewrite Hd. now apply (Hfresh r k Hr Hk). }
  split; [exact Hdel' |].
  rewrite Hcol2, Hcol3. apply filter_all. apply Forall_forall. reflexivity.
Qed.

(** C4, as the specification words it, fails: the body that answers a
    successful deletion of three chunks has a [message] and nothing else, so
    no [deleted_count] field equal to 3. *)
Lemma delete_response_has_no_deleted_count :
  fst (process_and_store_document (Demo.svc [] "") "/tmp/a" "report.pdf"
         Demo.ts1 Demo.w0)
  = Ok {| st_doc_id := "uuid-0"; chunks_created := 3 |}
  /\ exists b,
       fst (delete_document (Demo.svc [] "") "uuid-0" Demo.w1) = Ok b
       /\ field "message" b
          = Some (JStr "Deleted 3 chunks for document uuid-0")
       /\ field "deleted_count" b = None
       /\ field "deleted_count" b <> Some (JInt 3).
Proof.
  split; [reflexivity |].
  eexists. split; [vm_compute; reflexivity |].
  split; [reflexivity |]. split; [reflexivity | discriminate].
Qed.

Lemma demo_w1_fresh : fresh_from (uuids Demo.w1) (collection Demo.w1).
Proof.
  intros r k Hr Hk.
  change (uuids Demo.w1) with 4 in Hk.
  assert (Hrows : exists i j, i < 4 /\ j < 4 /\ row_id r = uuid_str i
                              /\ doc_id (row_metadata r) = uuid_str j).
  { vm_compute in Hr.
    destruct Hr as [<- | [<- | [<- | []]]];
      [exists 1, 0 | exists 2, 0 | exists 3, 0];
      (split; [lia |]); (split; [lia |]); split; reflexivity. }
  destruct Hrows as (i & j & Hi & Hj & -> & ->).
  split; intros Heq; apply uuid_str_inj in Heq; lia.
Qed.

(** The round trip on a collection that holds another document: a second
    upload of three pages, its deletion, and the deletion once more. *)
Lemma upload_delete_round_trip_witness :
  exists wa wb wc,
    process_and_store_document (Demo.svc [] "") "/tmp/b" "second.pdf"
      Demo.ts2 Demo.w1
    = (Ok {| st_doc_id := "uuid-4"; chunks_created := 3 |}, wa)
    /\ length (collection wa) = 6
    /\ delete_document (Demo.svc [] "") "uuid-4" wa
       = (Ok [("message", JStr "Deleted 3 chunks for document uuid-4")], wb)
    /\ collection wb = collection Demo.w1
    /\ delete_document (Demo.svc [] "") "uuid-4" wb
       = (Raise (HTTPException 404 "Document not found"), wc)
    /\ collection wc = collection wb.
Proof.
  pose (svc := Demo.svc [] "").
  pose (run := process_and_store_document svc "/tmp/b" "second.pdf"
                 Demo.ts2 Demo.w1).
  assert (Hrun : run
                 = (Ok {| st_doc_id := "uuid-4"; chunks_created := 3 |},
                    snd run)) by (vm_compute; reflexivity).
  assert (Hext : extract_text svc "/tmp/b" "second.pdf" Demo.w1
                 = (Ok [("alpha", 1); ("beta", 3); ("gamma", 4)],
                    snd (extract_text svc "/tmp/b" "second.pdf" Demo.w1)))
    by (vm_compute; reflexivity).
  destruct (upload_delete_round_trip svc "/tmp/b" "second.pdf" Demo.ts2
              Demo.w1 _ _ _ _ _ _ _ _ _
              demo_w1_fresh (fun _ => eq_refl) Hext
              (fun h t _ => ex_intro _ t eq_refl) Hrun)
    as (_ & w2 & w3 & Hdel & Hcol & _ & Hdel' & Hcol').
  exists (snd run), w2, w3.
  split; [exact Hrun |]. split; [vm_compute; reflexivity |].
  split; [exact Hdel |]. split; [exact Hcol |].
  split; [exact Hdel' | exact Hcol'].
Defined.

(** ** The order on strings *)

Lemma ascii_compare_refl c : Ascii.compare c c = Eq.
Proof. unfold Ascii.compare. apply N.compare_refl. Qed.

Lemma ascii_compare_lt_trans a b c :
  Ascii.compare a b = Lt -> Ascii.compare b c = Lt -> Ascii.compare a c = Lt.
Proof.
  unfold Ascii.compare. rewrite !N.compare_lt_iff. apply N.lt_trans.
Qed.

Lemma string_compare_lt_le_trans a : forall b c,
  String.compare a b = Lt -> String.compare b c <> Gt ->
  String.compare a c = Lt.
Proof.
  induction a as [| x a IH]; intros [| y b] [| z c] Hab Hbc; cbn in *;
    try discriminate; try congruence.
  destruct (Ascii.compare x y) eqn:Hxy; try discriminate;
    destruct (Ascii.compare y z) eqn:Hyz; try congruence.
  - apply Ascii.compare_eq_iff in Hxy, Hyz. subst.
    rewrite ascii_compare_refl. now apply (IH b c).
  - apply Ascii.compare_eq_iff in Hxy. subst. now rewrite Hyz.
  - apply Ascii.compare_eq_iff in Hyz. subst. now rewrite Hxy.
  - now rewrite (ascii_compare_lt_trans x y z).
Qed.

Lemma string_ltb_leb_trans a b c :
  String.ltb a b = true -> String.leb b c = true -> String.leb a c = true.
Proof.
  unfold String.ltb, String.leb. intros Hab Hbc.
  rewrite (string_compare_lt_le_trans a b c); [reflexivity | |].
  - destruct (String.compare a b); congruence.
  - destruct (String.compare b c); congruence.
Qed.

Lemma string_compare_refl a : String.compare a a = Eq.
Proof.
  induction a as [| x a IH]; cbn; [reflexivity |].
  now rewrite ascii_compare_refl.
Qed.

Lemma string_leb_refl a : String.leb a a = true.
Proof. unfold String.leb. now rewrite string_compare_refl. Qed.

Lemma string_leb_trans a b c :
  String.leb a b = true -> String.leb b c = true -> String.leb a c = true.
Proof.
  intros Hab Hbc. unfold String.leb in Hab.
  destruct (String.compare a b) eqn:Hc; try discriminate.
  - apply String.compare_eq_iff in Hc. now subst.
  - apply (string_ltb_leb_trans a b c); [| exact Hbc].
    unfold String.ltb. now rewrite Hc.
Qed.

(** ** The stable sort of the catalog *)

Lemma insert_sorted_perm d l : Permutation (d :: l) (insert_sorted d l).
Proof.
  induction l as [| x l IH]; cbn; [reflexivity |].
  destruct (String.leb (d_file_name d) (d_file_name x)); [reflexivity |].
  rewrite perm_swap. now constructor.
Qed.

Lemma sort_by_file_name_perm l : Permutation l (sort_by_file_name l).
Proof.
  induction l as [| x l IH]; cbn; [constructor |].
  rewrite <- insert_sorted_perm. now constructor.
Qed.

Lemma insert_sorted_sorted d l :
  StronglySorted by_file_name l ->
  StronglySorted by_file_name (insert_sorted d l).
Proof.
  induction 1 as [| x l Hl IH Hx]; cbn.
  - repeat constructor.
  - destruct (String.leb (d_file_name d) (d_file_name x)) eqn:Hle.
    + constructor; [now constructor |].
      constructor; [exact Hle |].
      eapply Forall_impl; [| exact Hx]. intros y Hy.
      unfold by_file_name in *. now apply (string_leb_trans _ _ _ Hle).
    + constructor; [exact IH |].
      apply (Permutation_Forall (insert_sorted_perm d l)).
      constructor; [| exact Hx].
      unfold by_file_name.
      destruct (String.leb_total (d_file_name d) (d_file_name x)); congruence.
Qed.

Lemma sort_by_file_name_sorted l :
  StronglySorted by_file_name (sort_by_file_name l).
Proof.
  induction l as [| x l IH]; cbn; [constructor |].
  now apply insert_sorted_sorted.
Qed.

(** ** The catalog: one step of the grouping loop *)

Lemma is_empty_iff s : PyStr.is_empty s = true <-> s = "".
Proof. destruct s; cbn; split; congruence. Qed.

Lemma dm_mem_In k m : dm_mem k m = true <-> In k (map d_doc_id m).
Proof.
  unfold dm_mem. rewrite existsb_exists, in_map_iff. split.
  - intros (e & He & Hk). apply String.eqb_eq in Hk. eauto.
  - intros (e & Hk & He). exists e. split; [exact He |].
    now apply String.eqb_eq.
Qed.

Lemma count_chunk_id ts e : d_doc_id (count_chunk ts e) = d_doc_id e.
Proof. reflexivity. Qed.

Lemma dm_update_keys k ts m :
  map d_doc_id (dm_update k (count_chunk ts) m) = map d_doc_id m.
Proof.
  unfold dm_update. rewrite map_map. apply map_ext. intros e.
  now destruct (String.eqb (d_doc_id e) k).
Qed.

Lemma dm_update_absent k f m :
  ~ In k (map d_doc_id m) -> dm_update k f m = m.
Proof.
  intros H. unfold dm_update. rewrite <- (map_id m) at 2.
  apply map_ext_in. intros e He.
  destruct (String.eqb (d_doc_id e) k) eqn:Hk; [| reflexivity].
  apply String.eqb_eq in Hk. exfalso. apply H. rewrite <- Hk.
  now apply in_map.
Qed.

Lemma dm_update_In k f m e' :
  In e' (dm_update k f m) ->
  exists e, In e m
            /\ e' = if String.eqb (d_doc_id e) k then f e else e.
Proof.
  unfold dm_update. rewrite in_map_iff. intros (e & <- & He). eauto.
Qed.

Lemma group_snoc_other d mds md :
  doc_id md <> d ->
  filter (in_group d) (mds ++ [md]) = filter (in_group d) mds.
Proof.
  intros H. rewrite filter_app. cbn. unfold in_group at 2.
  apply String.eqb_neq in H. rewrite H. apply app_nil_r.
Qed.

Lemma group_snoc_same mds md :
  filter (in_group (doc_id md)) (mds ++ [md])
  = filter (in_group (doc_id md)) mds ++ [md].
Proof.
  rewrite filter_app. cbn. unfold in_group at 2.
  now rewrite String.eqb_refl.
Qed.

(** An entry of another document is not affected by the chunk. *)
Lemma entry_ok_other mds md e :
  doc_id md <> d_doc_id e -> entry_ok mds e -> entry_ok (mds ++ [md]) e.
Proof.
  intros H. unfold entry_ok. cbv zeta. now rewrite (group_snoc_other _ _ _ H).
Qed.

Lemma ltb_false_leb a b : String.ltb a b = false -> String.leb b a = true.
Proof.
  unfold String.ltb, String.leb. rewrite (String.compare_antisym b a).
  destruct (String.compare a b); cbn; congruence.
Qed.

(** The entry of the chunk's document counts the chunk and keeps the
    earliest non-empty timestamp. *)
Lemma entry_ok_same mds md e :
  doc_id md = d_doc_id e -> entry_ok mds e ->
  entry_ok (mds ++ [md]) (count_chunk (upload_timestamp md) e).
Proof.
  intros Hk (Hcount & (md0 & rest & Hfirst & Hname) & (mdt & Hmdt & Hts) & Hmin).
  unfold entry_ok. cbv zeta. rewrite count_chunk_id, <- Hk, group_snoc_same.
  rewrite Hk. split; [| split; [| split]].
  - cbn. rewrite length_app, Hcount. reflexivity.
  - exists md0, (rest ++ [md]). rewrite Hfirst. split; [reflexivity | exact Hname].
  - cbn [count_chunk d_upload_timestamp].
    destruct (upload_timestamp md) as [t |] eqn:Ht.
    + match goal with
      | |- context [if ?b then _ else _] => destruct b
      end.
      * exists md. split; [apply in_or_app; right; now left | exact Ht].
      * exists mdt. split; [apply in_or_app; now left | exact Hts].
    + exists mdt. split; [apply in_or_app; now left | exact Hts].
  - intros md' t' Hin Ht' Hne. cbn [count_chunk d_upload_timestamp].
    apply in_app_or in Hin. destruct Hin as [Hin | [<- | []]].
    + destruct (Hmin md' t' Hin Ht' Hne) as (c & Hc & Hcne & Hle).
      rewrite Hc. cbn [truthy].
      assert (Hce : PyStr.is_empty c = false).
      { destruct c; [congruence | reflexivity]. }
      rewrite Hce. cbn [negb orb].
      destruct (upload_timestamp md) as [t |]; [| eauto].
      destruct (PyStr.is_empty t) eqn:Hte; cbn [negb andb]; [eauto |].
      destruct (String.ltb t c) eqn:Hlt; [| eauto].
      exists t. split; [reflexivity |]. split.
      * intros ->. discriminate.
      * now apply (string_ltb_leb_trans t c t').
    + rewrite Ht'.
      assert (Hte : PyStr.is_empty t' = false).
      { destruct t'; [congruence | reflexivity]. }
      rewrite Hte. cbn [negb andb].
      destruct (d_upload_timestamp e) as [c |] eqn:Hc; cbn [truthy negb orb].
      * destruct (PyStr.is_empty c) eqn:Hce; cbn [negb orb].
        -- exists t'. auto using string_leb_refl.
        -- destruct (String.ltb t' c) eqn:Hlt.
           ++ exists t'. auto using string_leb_refl.
           ++ exists c. split; [reflexivity |]. split.
              ** intros ->. discriminate.
              ** now apply ltb_false_leb.
      * exists t'. auto using string_leb_refl.
Qed.

(** The first chunk of a document opens its entry. *)
Lemma entry_ok_new mds md :
  filter (in_group (doc_id md)) mds = [] ->
  entry_ok (mds ++ [md])
    (count_chunk (upload_timestamp md)
       {| d_doc_id := doc_id md; d_file_name := file_name md;
          chunks_count := 0; d_upload_timestamp := upload_timestamp md |}).
Proof.
  intros Hnone. unfold entry_ok. cbv zeta.
  rewrite count_chunk_id. cbn [d_doc_id]. rewrite group_snoc_same, Hnone.
  cbn [app length count_chunk chunks_count d_file_name d_upload_timestamp].
  assert (Hts :
    match upload_timestamp md with
    | Some t =>
        if negb (PyStr.is_empty t)
           && (negb (truthy (upload_timestamp md))
               || match upload_timestamp md with
                  | Some c => String.ltb t c
                  | None => false
                  end)
        then upload_timestamp md else upload_timestamp md
    | None => upload_timestamp md
    end = upload_timestamp md).
  { destruct (upload_timestamp md) as [t |]; [| reflexivity].
    now destruct (negb (PyStr.is_empty t) && _). }
  rewrite Hts. split; [reflexivity |]. split; [eauto |].
  split; [exists md; split; [now left | reflexivity] |].
  intros md' t [<- | []] Ht Hne. exists t.
  split; [exact Ht |]. split; [exact Hne | apply string_leb_refl].
Qed.

Lemma group_empty d mds :
  (forall md, In md mds -> doc_id md <> d) -> filter (in_group d) mds = [].
Proof.
  intros H. apply filter_none. apply Forall_forall. intros md Hmd.
  unfold in_group. apply String.eqb_neq. now apply H.
Qed.

Lemma catalog_step_inv mds m md :
  catalog_inv mds m -> catalog_inv (mds ++ [md]) (catalog_step m md).
Proof.
  intros (Hnd & Hkeys & Hentries). unfold catalog_step.
  set (k := doc_id md).
  assert (Hkeys' : forall m',
            map d_doc_id m' = map d_doc_id m ++ (if dm_mem k m then []
                                                 else [k]) ->
            k <> "" ->
            forall d, In d (map d_doc_id m') <->
                      d <> "" /\ exists md', In md' (mds ++ [md])
                                             /\ doc_id md' = d).
  { intros m' Hm' Hk d. rewrite Hm', in_app_iff, Hkeys. split.
    - intros [(Hd & md' & Hin & Hid) | Hd].
      + split; [exact Hd |]. exists md'. split; [| exact Hid].
        apply in_or_app. now left.
      + destruct (dm_mem k m); [contradiction |].
        destruct Hd as [<- | []]. split; [exact Hk |].
        exists md. split; [apply in_or_app; right; now left | reflexivity].
    - intros (Hd & md' & Hin & Hid). apply in_app_or in Hin.
      destruct Hin as [Hin | [<- | []]]; [left; eauto |].
      fold k in Hid. subst d.
      destruct (dm_mem k m) eqn:Hmem; [| right; now left].
      left. apply Hkeys. now apply dm_mem_In. }
  destruct (PyStr.is_empty k) eqn:Hempty; cbn [negb andb].
  - (* a chunk without document id is skipped *)
    apply is_empty_iff in Hempty.
    assert (Hmem : dm_mem k m = false).
    { destruct (dm_mem k m) eqn:Hmem; [| reflexivity].
      apply dm_mem_In, Hkeys in Hmem. destruct Hmem. congruence. }
    rewrite Hmem. split; [exact Hnd |]. split.
    + intros d. rewrite Hkeys. split.
      * intros (Hd & md' & Hin & Hid). split; [exact Hd |].
        exists md'. split; [apply in_or_app; now left | exact Hid].
      * intros (Hd & md' & Hin & Hid). split; [exact Hd |].
        apply in_app_or in Hin. destruct Hin as [Hin | [<- | []]]; [eauto |].
        fold k in Hid. congruence.
    + intros e He. apply entry_ok_other; [| now apply Hentries].
      fold k. rewrite Hempty. intros Heq.
      assert (Hin : In "" (map d_doc_id m)).
      { rewrite Heq. now apply in_map. }
      apply Hkeys in Hin. destruct Hin. congruence.
  - assert (Hk : k <> "").
    { intros Hk. apply is_empty_iff in Hk. congruence. }
    destruct (dm_mem k m) eqn:Hmem; cbn [negb].
    + (* a further chunk of a known document *)
      rewrite Hmem. split; [now rewrite dm_update_keys |].
      split.
      * apply Hkeys'; [| exact Hk].
        rewrite dm_update_keys. now rewrite app_nil_r.
      * intros e' He'. apply dm_update_In in He'.
        destruct He' as (e & He & ->).
        destruct (String.eqb (d_doc_id e) k) eqn:Hek.
        -- apply String.eqb_eq in Hek. apply entry_ok_same; [| auto].
           now rewrite Hek.
        -- apply String.eqb_neq in Hek. apply entry_ok_other; [| auto].
           fold k. congruence.
    + (* the first chunk of a document *)
      assert (Hnotin : ~ In k (map d_doc_id m)).
      { intros Hin. apply dm_mem_In in Hin. congruence. }
      assert (Hmem' : dm_mem k (m ++ [{| d_doc_id := k;
                                         d_file_name := file_name md;
                                         chunks_count := 0;
                                         d_upload_timestamp :=
                                           upload_timestamp md |}]) = true).
      { apply dm_mem_In. rewrite map_app. apply in_or_app. right. now left. }
      rewrite Hmem'. unfold dm_update. rewrite map_app.
      fold (dm_update k (count_chunk (upload_timestamp md)) m).
      rewrite (dm_update_absent _ _ _ Hnotin). cbn [map d_doc_id].
      rewrite String.eqb_refl.
      split; [| split].
      * rewrite map_app. cbn [map]. rewrite count_chunk_id. cbn [d_doc_id].
        apply NoDup_app; [exact Hnd | repeat constructor; now intros [] |].
        intros x Hx [<- | []]. contradiction.
      * apply Hkeys'; [| exact Hk].
        rewrite map_app. reflexivity.
      * intros e He. apply in_app_or in He. destruct He as [He | [<- | []]].
        -- apply entry_ok_other; [| auto]. fold k. intros Heq.
           apply Hnotin. rewrite Heq. now apply in_map.
        -- apply entry_ok_new. apply group_empty. intros md' Hin Heq.
           apply Hnotin. apply Hkeys. split; [exact Hk | eauto].
Qed.

Lemma catalog_fold_inv mds : catalog_inv mds (fold_left catalog_step mds []).
Proof.
  induction mds as [| md mds IH] using rev_ind.
  - cbn. split; [constructor |]. split; [| now intros e []].
    intros d. cbn. split; [now intros [] | now intros (_ & md & [] & _)].
  - rewrite fold_left_app. cbn. now apply catalog_step_inv.
Qed.

(** ** The catalog as a whole *)

Lemma catalog_properties rows :
  NoDup (map d_doc_id (catalog rows))
  /\ (forall d, In d (map d_doc_id (catalog rows)) <->
                d <> "" /\ exists r, In r rows /\ doc_id (row_metadata r) = d)
  /\ (forall e, In e (catalog rows) -> entry_ok (map row_metadata rows) e)
  /\ StronglySorted by_file_name (catalog rows).
Proof.
  destruct rows as [| r0 rows].
  { cbn. split; [constructor |]. split; [| split; [now intros e [] |]].
    - intros d. split; [now intros [] | now intros (_ & r & [] & _)].
    - constructor. }
  unfold catalog. set (rs := r0 :: rows).
  destruct (catalog_fold_inv (map row_metadata rs)) as (Hnd & Hkeys & Hent).
  pose proof (sort_by_file_name_perm
                (fold_left catalog_step (map row_metadata rs) [])) as Hperm.
  split; [| split; [| split]].
  - eapply Permutation_NoDup; [| exact Hnd]. now apply Permutation_map.
  - intros d. rewrite <- (Permutation_in' (eq_refl d)
                            (Permutation_map d_doc_id Hperm)).
    rewrite Hkeys. split.
    + intros (Hd & md & Hin & Hid). split; [exact Hd |].
      apply in_map_iff in Hin. destruct Hin as (r & <- & Hr). eauto.
    + intros (Hd & r & Hr & Hid). split; [exact Hd |].
      exists (row_metadata r). split; [now apply in_map | exact Hid].
  - intros e He. apply Hent.
    apply (Permutation_in _ (Permutation_sym Hperm) He).
  - apply sort_by_file_name_sorted.
Qed.

Lemma get_all_documents_run svc w :
  get_collection_error svc (calls w) = None ->
  get_all_documents svc w
  = (Ok (catalog (collection w)), set_calls (calls w ++ [CallGet None]) w).
Proof.
  intros Hg. unfold get_all_documents, bind, get_collection. rewrite Hg.
  unfold collection_get_all. cbn.
  destruct (collection w); reflexivity.
Qed.





Lemma uuid_str_nonempty k : uuid_str k <> "".
Proof. discriminate. Qed.

Lemma chunk_rows_uploaded d fn ts lo hi batch :
  Forall (chunk_row d fn ts lo hi) batch ->
  Forall (uploaded_as d fn ts) batch.
Proof.
  apply Forall_impl. intros r (Hd & Hf & Ht & _). now repeat split.
Qed.



(** * Further properties of the code *)

(** ** The client caches of [config.py] *)

Lemma get_llm_client_again svc svc' w r w1 :
  get_llm_client svc w = (r, w1) -> get_llm_client svc' w1 = (r, w1).
Proof.
  unfold get_llm_client. intros H.
  destruct (llm_client w) eqn:Hc, (llm_error w) eqn:He;
    repeat match type of H with
      | context [match ?x with _ => _ end] => destruct x eqn:?
      end;
    inversion H; subst; cbn in *; try congruence;
    repeat match goal with
      | E : Some _ = Some _ |- _ => injection E as E; subst
      end;
    repeat match goal with
      | E : _ = _ |- _ => rewrite E
      end; try reflexivity.
Qed.

Lemma get_embeddings_client_again svc svc' w r w1 :
  get_embeddings_client svc w = (r, w1) ->
  get_embeddings_client svc' w1 = (r, w1).
Proof.
  unfold get_embeddings_client. intros H.
  destruct (embeddings_client w) eqn:Hc, (embeddings_error w) eqn:He;
    repeat match type of H with
      | context [match ?x with _ => _ end] => destruct x eqn:?
      end;
    inversion H; subst; cbn in *; try congruence;
    repeat match goal with
      | E : Some _ = Some _ |- _ => injection E as E; subst
      end;
    repeat match goal with
      | E : _ = _ |- _ => rewrite E
      end; try reflexivity.
Qed.

(** X1: the clients are initialised at most once.  Whatever the first call
    of [get_llm_client] (or [get_embeddings_client]) returned, a client or
    the error of a failed initialisation, every later call returns the same
    and changes nothing, whatever the environment has become since. *)
Theorem clients_initialised_once svc svc' w :
  get_llm_client svc' (snd (get_llm_client svc w)) = get_llm_client svc w
  /\ get_embeddings_client svc' (snd (get_embeddings_client svc w))
     = get_embeddings_client svc w.
Proof.
  split.
  - destruct (get_llm_client svc w) as [r w1] eqn:H. cbn [snd].
    exact (get_llm_client_again _ _ _ _ _ H).
  - destruct (get_embeddings_client svc w) as [r w1] eqn:H. cbn [snd].
    exact (get_embeddings_client_again _ _ _ _ _ H).
Qed.

(** ** Text extraction *)

Lemma pdf_loop_spec pages : forall n,
  Forall (fun tp => has_text (fst tp) = true
                    /\ n <= snd tp
                    /\ nth_error pages (snd tp - n) = Some (fst tp))
    (pdf_loop n pages)
  /\ map fst (pdf_loop n pages) = filter has_text pages.
Proof.
  induction pages as [| text pages IH]; intros n; cbn.
  - split; constructor.
  - destruct (IH (S n)) as [Hall Hmap].
    assert (Htail : Forall (fun tp => has_text (fst tp) = true
                                      /\ n <= snd tp
                                      /\ nth_error (text :: pages) (snd tp - n)
                                         = Some (fst tp))
                      (pdf_loop (S n) pages)).
    { eapply Forall_impl; [| exact Hall]. intros [t k] (Ht & Hk & Hnth).
      cbn [fst snd] in *. split; [exact Ht |]. split; [lia |].
      replace (k - n) with (S (k - S n)) by lia. exact Hnth. }
    destruct (has_text text) eqn:Htext.
    + split.
      * constructor; [| exact Htail]. cbn [fst snd].
        rewrite Nat.sub_diag. auto.
      * cbn. now rewrite Hmap.
    + split; [exact Htail | exact Hmap].
Qed.

Lemma pdf_loop_sorted pages : forall n,
  StronglySorted lt (map snd (pdf_loop n pages)).
Proof.
  induction pages as [| text pages IH]; intros n; cbn; [constructor |].
  destruct (has_text text); [| apply IH].
  cbn. constructor; [apply IH |].
  destruct (pdf_loop_spec pages (S n)) as [Hall _].
  apply Forall_map. eapply Forall_impl; [| exact Hall].
  intros [t k] (_ & Hk & _). cbn in *. lia.
Qed.

(** X2: whatever the file type, [extract_text] returns no page whose text
    is empty or blank; page numbers start at 1 and increase strictly.  For a
    PDF the pages returned are exactly the pages of the file that have text,
    each under its own 1-based number; for the other types there is at most
    one page, numbered 1. *)
Theorem extracted_pages_have_text svc file_path file_name w tps w' :
  extract_text svc file_path file_name w = (Ok tps, w') ->
  Forall (fun tp => has_text (fst tp) = true /\ 1 <= snd tp) tps
  /\ StronglySorted lt (map snd tps)
  /\ (extension_of file_name = "pdf" ->
      exists pages,
        pdf_pages svc (calls w) file_path = Ok pages
        /\ map fst tps = filter has_text pages
        /\ Forall (fun tp => nth_error pages (snd tp - 1) = Some (fst tp)) tps)
  /\ (extension_of file_name <> "pdf" ->
      tps = [] \/ exists text, tps = [(text, 1)]).
Proof.
  unfold extract_text. fold (extension_of file_name). intros H.
  assert (Hone : forall text, has_text text = true ->
            Forall (fun tp => has_text (fst tp) = true /\ 1 <= snd tp)
              [(text, 1)]
            /\ StronglySorted lt (map snd [(text, 1)])).
  { intros text Ht. split; repeat constructor. exact Ht. }
  destruct (String.eqb (extension_of file_name) "pdf") eqn:Hpdf.
  - apply String.eqb_eq in Hpdf.
    unfold extract_text_from_pdf, bind, external in H.
    destruct (pdf_pages svc (calls w) file_path) as [pages | e] eqn:Hp;
      [| discriminate].
    inversion H; subst tps w'. clear H.
    destruct (pdf_loop_spec pages 1) as [Hall Hmap].
    split; [| split; [apply pdf_loop_sorted | split]].
    + eapply Forall_impl; [| exact Hall]. now intros tp (? & ? & _).
    + intros _. exists pages. split; [reflexivity |]. split; [exact Hmap |].
      eapply Forall_impl; [| exact Hall]. now intros tp (_ & _ & ?).
    + congruence.
  - apply String.eqb_neq in Hpdf.
    assert (Hshape : (tps = [] \/ exists text, tps = [(text, 1)])
                     /\ Forall (fun tp => has_text (fst tp) = true
                                          /\ 1 <= snd tp) tps
                     /\ StronglySorted lt (map snd tps)).
    { destruct (PyStr.mem (extension_of file_name) ["docx"; "doc"]).
      - unfold extract_text_from_docx, bind, external in H.
        destruct (docx_paragraphs svc (calls w) file_path) as [paragraphs | e];
          [| discriminate].
        inversion H; subst tps w'.
        destruct (has_text (PyStr.join nl (filter has_text paragraphs)))
          eqn:Ht.
        + split; [right; eauto | now apply Hone].
        + split; [now left | split; constructor].
      - destruct (String.eqb (extension_of file_name) "txt");
          [| discriminate].
        unfold extract_text_from_txt, bind, external in H.
        destruct (txt_read svc (calls w) file_path) as [text | e];
          [| discriminate].
        inversion H; subst tps w'.
        destruct (has_text text) eqn:Ht.
        + split; [right; eauto | now apply Hone].
        + split; [now left | split; constructor]. }
    destruct Hshape as (Hs & Hall & Hsorted).
    split; [exact Hall |]. split; [exact Hsorted |].
    split; [congruence | auto].
Qed.

(** The four pages of the demo PDF, the second one blank. *)
Lemma extracted_pages_have_text_witness :
  fst (extract_text (Demo.svc [] "") "/tmp/a" "Report.PDF" Demo.w0)
  = Ok [("alpha", 1); ("beta", 3); ("gamma", 4)]
  /\ Forall (fun tp => has_text (fst tp) = true /\ 1 <= snd tp)
       [("alpha", 1); ("beta", 3); ("gamma", 4)].
Proof.
  split; [reflexivity |].
  destruct (extracted_pages_have_text (Demo.svc [] "") "/tmp/a" "Report.PDF"
              Demo.w0 [("alpha", 1); ("beta", 3); ("gamma", 4)]
              (snd (extract_text (Demo.svc [] "") "/tmp/a" "Report.PDF"
                      Demo.w0)))
    as (H & _).
  - reflexivity.
  - exact H.
Defined.

(** ** The file type *)

Lemma lower_char_idempotent c :
  PyStr.lower_char (PyStr.lower_char c) = PyStr.lower_char c.
Proof. destruct c as [[] [] [] [] [] [] [] []]; reflexivity. Qed.

Lemma lower_char_dot c :
  Ascii.eqb (PyStr.lower_char c) "." = Ascii.eqb c ".".
Proof. destruct c as [[] [] [] [] [] [] [] []]; reflexivity. Qed.

Lemma lower_idempotent s : PyStr.lower (PyStr.lower s) = PyStr.lower s.
Proof.
  induction s as [| c s IH]; cbn; [reflexivity |].
  now rewrite lower_char_idempotent, IH.
Qed.

Lemma lower_app a b :
  PyStr.lower (a ++ b) = (PyStr.lower a ++ PyStr.lower b)%string.
Proof. induction a as [| c a IH]; cbn; [reflexivity | now rewrite IH]. Qed.

Lemma dot_free_lower s : dot_free (PyStr.lower s) = dot_free s.
Proof.
  induction s as [| c s IH]; cbn; [reflexivity |].
  now rewrite lower_char_dot, IH.
Qed.

Lemma string_app_assoc (a b c : string) :
  ((a ++ b) ++ c = a ++ (b ++ c))%string.
Proof. induction a as [| x a IH]; cbn; [reflexivity | now rewrite IH]. Qed.

Lemma split_on_dot_free s : forall tok,
  dot_free s = true -> split_on "." tok s = [(tok ++ s)%string].
Proof.
  induction s as [| c s IH]; intros tok H; cbn in *.
  - f_equal. induction tok as [| x tok IHt]; cbn; [reflexivity |].
    now rewrite IHt at 1.
  - apply andb_prop in H. destruct H as [Hc Hs].
    apply negb_true_iff in Hc. rewrite Hc, (IH _ Hs), string_app_assoc.
    reflexivity.
Qed.

Lemma split_on_nonempty sep s : forall tok, split_on sep tok s <> [].
Proof.
  induction s as [| c s IH]; intros tok; cbn; [discriminate |].
  destruct (Ascii.eqb c sep); [discriminate | apply IH].
Qed.

Lemma last_split_on_dot stem ext : forall tok,
  dot_free ext = true ->
  last (split_on "." tok (stem ++ String "." ext)) "" = ext.
Proof.
  induction stem as [| c stem IH]; intros tok H.
  - cbn. now rewrite (split_on_dot_free _ "" H).
  - cbn [append split_on]. destruct (Ascii.eqb c ".").
    + pose proof (split_on_nonempty "." (stem ++ String "." ext) "") as Hne.
      pose proof (IH "" H) as Hl.
      destruct (split_on "." "" (stem ++ String "." ext)) as [| x l];
        [contradiction | exact Hl].
    + apply IH, H.
Qed.

(** X3: the file type is the lowercased text after the last dot of the file
    name, and the whole lowercased name when there is no dot; upper and lower
    case make no difference.  A type other than pdf, docx, doc and txt makes
    [extract_text] raise a [ValueError] that names it, before any file is
    read. *)
Theorem file_type_dispatch :
  (forall stem ext,
     dot_free ext = true ->
     extension_of (stem ++ String "." ext) = PyStr.lower ext)
  /\ (forall file_name,
        dot_free file_name = true ->
        extension_of file_name = PyStr.lower file_name)
  /\ (forall file_name,
        extension_of (PyStr.lower file_name) = extension_of file_name)
  /\ (forall svc file_path file_name w,
        extract_text svc file_path (PyStr.lower file_name) w
        = extract_text svc file_path file_name w)
  /\ (forall svc file_path file_name w,
        PyStr.mem (extension_of file_name) supported_extensions = false ->
        extract_text svc file_path file_name w
        = (Raise (ValueError ("Unsupported file type: "
                              ++ extension_of file_name)%string), w)).
Proof.
  split; [| split; [| split; [| split]]].
  - intros stem ext H. unfold extension_of.
    rewrite lower_app. cbn [PyStr.lower].
    change (PyStr.lower_char ".") with "."%char.
    apply last_split_on_dot. now rewrite dot_free_lower.
  - intros file_name H. unfold extension_of.
    rewrite split_on_dot_free by now rewrite dot_free_lower.
    reflexivity.
  - intros file_name. unfold extension_of. now rewrite lower_idempotent.
  - intros svc file_path file_name w. unfold extract_text.
    now rewrite lower_idempotent.
  - intros svc file_path file_name w H. unfold extract_text.
    fold (extension_of file_name).
    unfold supported_extensions, PyStr.mem in *. cbn [existsb] in *.
    repeat (apply orb_false_elim in H; destruct H as [? H]).
    repeat match goal with
      | E : String.eqb _ _ = false |- _ => rewrite E; clear E
      end.
    reflexivity.
Qed.

(** A PDF under an upper-case suffix, a name without a dot, and a type that
    is not supported. *)
Lemma file_type_dispatch_witness :
  extension_of "Annual.Report.PDF" = "pdf"
  /\ extension_of "TXT" = "txt"
  /\ extract_text (Demo.svc [] "") "/tmp/x" "setup.exe" Demo.w0
     = (Raise (ValueError "Unsupported file type: exe"), Demo.w0).
Proof.
  destruct file_type_dispatch as (H1 & H2 & _ & _ & H5).
  split; [| split].
  - exact (H1 "Annual.Report" "PDF" eq_refl).
  - exact (H2 "TXT" eq_refl).
  - exact (H5 (Demo.svc [] "") "/tmp/x" "setup.exe" Demo.w0 eq_refl).
Defined.

(** ** Documents without text *)

Lemma pdf_loop_blank pages : forall n,
  Forall (fun text => has_text text = false) pages -> pdf_loop n pages = [].
Proof.
  induction pages as [| text pages IH]; intros n H; cbn; [reflexivity |].
  inversion H as [| ? ? Ht Hrest]; subst. rewrite Ht. now apply IH.
Qed.

(** X4: a document without any text is refused at once.  When every page of
    a PDF, every paragraph of a Word file or the content of a text file is
    blank, [process_and_store_document] raises
    [ValueError("No text could be extracted from the document.")] right after
    reading the file: no identifier is drawn, nothing is split, embedded or
    written. *)
Theorem blank_document_is_refused svc file_path file_name ts w :
  let refused read :=
    process_and_store_document svc file_path file_name ts w
    = (Raise (ValueError "No text could be extracted from the document."),
       set_calls (calls w ++ [read]) w) in
  (extension_of file_name = "pdf" ->
   forall pages,
     pdf_pages svc (calls w) file_path = Ok pages ->
     Forall (fun text => has_text text = false) pages ->
     refused (CallPdfReader file_path))
  /\ (PyStr.mem (extension_of file_name) ["docx"; "doc"] = true ->
      forall paragraphs,
        docx_paragraphs svc (calls w) file_path = Ok paragraphs ->
        Forall (fun text => has_text text = false) paragraphs ->
        refused (CallDocxDocument file_path))
  /\ (extension_of file_name = "txt" ->
      forall text,
        txt_read svc (calls w) file_path = Ok text ->
        has_text text = false ->
        refused (CallOpen file_path)).
Proof.
  cbv zeta. unfold process_and_store_document, extract_text, bind.
  fold (extension_of file_name).
  split; [| split].
  - intros Hext pages Hp Hblank. rewrite Hext, String.eqb_refl.
    unfold extract_text_from_pdf, bind, external. rewrite Hp. cbn.
    now rewrite (pdf_loop_blank _ _ Hblank).
  - intros Hext paragraphs Hp Hblank.
    destruct (String.eqb (extension_of file_name) "pdf") eqn:Hpdf.
    { apply String.eqb_eq in Hpdf. rewrite Hpdf in Hext. discriminate. }
    rewrite Hext.
    unfold extract_text_from_docx, bind, external. rewrite Hp. cbn.
    rewrite (filter_none _ _ Hblank). reflexivity.
  - intros Hext text Ht Hblank. rewrite Hext.
    change (String.eqb "txt" "pdf") with false.
    change (PyStr.mem "txt" ["docx"; "doc"]) with false.
    change (String.eqb "txt" "txt") with true. cbv iota.
    unfold extract_text_from_txt, bind, external. rewrite Ht. cbn.
    now rewrite Hblank.
Qed.

(** ** Similarity search, result by result *)

Lemma format_result_fields results i w sr w' :
  format_result results i w = (Ok sr, w') ->
  w' = w
  /\ exists ids0 md0 md,
       nth_error (qr_ids results) 0 = Some ids0
       /\ nth_error ids0 i = Some (sr_id sr)
       /\ nth_error (qr_metadatas results) 0 = Some md0
       /\ nth_error md0 i = Some md
       /\ p_file_name (sr_payload sr) = file_name md
       /\ p_page (sr_payload sr) = page md
       /\ p_chunk_id (sr_payload sr) = chunk_id md
       /\ p_doc_id (sr_payload sr) = doc_id md
       /\ match qr_documents results with
          | Some documents =>
              exists t0, nth_error documents 0 = Some t0
                         /\ nth_error t0 i = Some (p_text (sr_payload sr))
          | None => p_text (sr_payload sr) = ""
          end.
Proof.
  unfold format_result, bind. intros H.
  destruct (item (qr_ids results) 0 w) as [[ids0 | ex] wa] eqn:H1;
    [| discriminate].
  destruct (item ids0 i wa) as [[id | ex] wb] eqn:H2; [| discriminate].
  apply item_ok in H1, H2. destruct H1 as [H1 ->], H2 as [H2 ->].
  assert (Hscore : exists score,
            (match qr_distances results with
             | Some distances =>
                 bind (item distances 0)
                   (fun d0 => bind (item d0 i) (fun d => ret (1 - d)%float))
             | None => ret 0%float
             end) w = (Ok score, w)
            \/ exists ex w0,
                 (match qr_distances results with
                  | Some distances =>
                      bind (item distances 0)
                        (fun d0 => bind (item d0 i)
                                     (fun d => ret (1 - d)%float))
                  | None => ret 0%float
                  end) w = (Raise ex, w0)).
  { destruct (qr_distances results) as [distances |]; unfold bind, ret.
    - destruct (item distances 0 w) as [[d0 | ex] wc] eqn:H3.
      + apply item_ok in H3. destruct H3 as [_ ->].
        destruct (item d0 i w) as [[d | ex] wd] eqn:H4.
        * apply item_ok in H4. destruct H4 as [_ ->]. eexists. left. eauto.
        * exists 0%float. right. eauto.
      + exists 0%float. right. eauto.
    - exists 0%float. left. reflexivity. }
  unfold bind in Hscore.
  destruct Hscore as [score [Hs | (ex & w0 & Hs)]]; rewrite Hs in H;
    [| discriminate].
  destruct (item (qr_metadatas results) 0 w) as [[md0 | ex] we] eqn:H5;
    [| discriminate].
  destruct (item md0 i we) as [[md | ex] wf] eqn:H6; [| discriminate].
  apply item_ok in H5, H6. destruct H5 as [H5 ->], H6 as [H6 ->].
  destruct (qr_documents results) as [documents |].
  - destruct (item documents 0 w) as [[t0 | ex] wg] eqn:H7; [| discriminate].
    destruct (item t0 i wg) as [[t | ex] wh] eqn:H8; [| discriminate].
    apply item_ok in H7, H8. destruct H7 as [H7 ->], H8 as [H8 ->].
    inversion H; subst. cbn. split; [reflexivity |].
    exists ids0, md0, md. repeat split; eauto.
  - inversion H; subst. cbn. split; [reflexivity |].
    exists ids0, md0, md. repeat split; eauto.
Qed.

(** X5: [search_similar_chunks] returns one result per id of the first id
    list of the index's answer, in that order; each result carries the id,
    the metadata and the document text found at its own position.  An answer
    without ids gives the empty list, not an error.  The search logs its one
    query and leaves the collection as it is. *)
Theorem search_results_follow_ids svc e k w rs w' :
  search_similar_chunks svc e k w = (Ok rs, w') ->
  exists results,
    collection_query svc (calls w) (collection w) e k = Ok results
    /\ w' = set_calls (calls w ++ [CallQuery e k]) w
    /\ map sr_id rs = hd [] (qr_ids results)
    /\ forall i sr, nth_error rs i = Some sr ->
         exists md,
           nth_error (hd [] (qr_metadatas results)) i = Some md
           /\ p_file_name (sr_payload sr) = file_name md
           /\ p_page (sr_payload sr) = page md
           /\ p_chunk_id (sr_payload sr) = chunk_id md
           /\ p_doc_id (sr_payload sr) = doc_id md
           /\ match qr_documents results with
              | Some documents =>
                  nth_error (hd [] documents) i = Some (p_text (sr_payload sr))
              | None => p_text (sr_payload sr) = ""
              end.
Proof.
  intros H.
  destruct (search_similar_chunks_inv _ _ _ _ _ _ H) as (results & Hq & Hf).
  exists results. split; [exact Hq |].
  unfold search_similar_chunks, bind, get_collection, external in H.
  destruct (get_collection_error svc (calls w)); [discriminate |].
  rewrite Hq in H.
  set (w1 := set_calls (calls w ++ [CallQuery e k]) w) in *.
  assert (Hw : w' = w1 /\ length rs = length (hd [] (qr_ids results))).
  { unfold format_results in H.
    destruct (qr_ids results) as [| ids0 rest]; [now inversion H |].
    destruct (0 <? length ids0) eqn:Hlen.
    - pose proof H as H'. apply for_each_nth in H'. destruct H' as [Hl _].
      rewrite length_seq in Hl. split; [| exact Hl].
      clear - H. revert rs w1 H.
      generalize (seq 0 (length ids0)) as l.
      induction l as [| x l IH]; intros rs w1 H; cbn in H.
      + now inversion H.
      + unfold bind in H.
        destruct (format_result results x w1) as [[y | ex] wa] eqn:Hx;
          [| discriminate].
        apply format_result_fields in Hx. destruct Hx as [-> _].
        destruct (for_each (format_result results) l w1) as [[ys | ex] wb]
          eqn:Hr; [| discriminate].
        inversion H; subst. now apply (IH ys).
    - inversion H; subst. apply Nat.ltb_ge in Hlen. cbn.
      split; [reflexivity | lia]. }
  destruct Hw as [Hw Hlen]. split; [exact Hw |].
  assert (Hfields : forall i sr, nth_error rs i = Some sr ->
            exists ids0 md0 md,
              nth_error (qr_ids results) 0 = Some ids0
              /\ nth_error ids0 i = Some (sr_id sr)
              /\ nth_error (qr_metadatas results) 0 = Some md0
              /\ nth_error md0 i = Some md
              /\ p_file_name (sr_payload sr) = file_name md
              /\ p_page (sr_payload sr) = page md
              /\ p_chunk_id (sr_payload sr) = chunk_id md
              /\ p_doc_id (sr_payload sr) = doc_id md
              /\ match qr_documents results with
                 | Some documents =>
                     exists t0, nth_error documents 0 = Some t0
                                /\ nth_error t0 i
                                   = Some (p_text (sr_payload sr))
                 | None => p_text (sr_payload sr) = ""
                 end).
  { intros i sr Hsr. destruct (Hf i sr Hsr) as (wa & wb & Hr).
    now apply format_result_fields in Hr. }
  split.
  - apply nth_error_ext. intros i. rewrite nth_error_map.
    destruct (nth_error rs i) as [sr |] eqn:Hsr; cbn.
    + destruct (Hfields i sr Hsr) as (ids0 & _ & _ & H0 & Hi & _).
      destruct (qr_ids results); [discriminate |].
      cbn in H0. inversion H0; subst. cbn. now rewrite Hi.
    + symmetry. apply nth_error_None. rewrite <- Hlen.
      now apply nth_error_None.
  - intros i sr Hsr.
    destruct (Hfields i sr Hsr)
      as (ids0 & md0 & md & _ & _ & Hm0 & Hmi & Hf1 & Hf2 & Hf3 & Hf4 & Ht).
    exists md. destruct (qr_metadatas results); [discriminate |].
    cbn in Hm0. inversion Hm0; subst. cbn.
    repeat (split; [assumption |]).
    destruct (qr_documents results) as [documents |]; [| exact Ht].
    destruct Ht as (t0 & Ht0 & Hti).
    destruct documents; [discriminate |].
    cbn in Ht0. inversion Ht0; subst. exact Hti.
Qed.

(** A search over the demo collection, and over an index that has nothing. *)
Lemma search_results_follow_ids_witness :
  (exists rs w',
     search_similar_chunks (Demo.svc [0.25; 0.5]%float "") [0.6; 0.8]%float
       (Some 2%Z) Demo.w1 = (Ok rs, w')
     /\ map sr_id rs = ["uuid-1"; "uuid-2"])
  /\ fst (search_similar_chunks (Demo.svc [] "") [0.6; 0.8]%float
            (Some 5%Z) Demo.w0) = Ok [].
Proof.
  split; [| reflexivity].
  destruct (search_similar_chunks (Demo.svc [0.25; 0.5]%float "")
              [0.6; 0.8]%float (Some 2%Z) Demo.w1) as [[rs | ex] w'] eqn:H.
  - exists rs, w'. split; [reflexivity |].
    destruct (search_results_follow_ids _ _ _ _ _ _ H)
      as (results & Hq & _ & Hids & _).
    rewrite Hids. vm_compute in Hq. inversion Hq; subst results. reflexivity.
  - exfalso. vm_compute in H. discriminate.
Defined.

(** The refusal of a scanned PDF. *)
Lemma blank_document_is_refused_witness :
  process_and_store_document Cases.scanned "/tmp/s" "scan.pdf" Demo.ts1 Demo.w1
  = (Raise (ValueError "No text could be extracted from the document."),
     set_calls (calls Demo.w1 ++ [CallPdfReader "/tmp/s"]) Demo.w1).
Proof.
  destruct (blank_document_is_refused Cases.scanned "/tmp/s" "scan.pdf"
              Demo.ts1 Demo.w1) as (H & _).
  apply (H eq_refl ["  "; ""; nl]); [reflexivity |].
  repeat constructor.
Defined.

(** ** The errors of the routes *)

Lemma internal_error_http (m : M ChatResponse) w e w' :
  try_except m internal_error w = (Raise e, w') ->
  exists code detail, e = HTTPException code detail.
Proof.
  unfold try_except. destruct (m w) as [[a | ex] w1]; [discriminate |].
  destruct ex; cbn; intros H; inversion H; eauto.
Qed.

(** X6: [chat] raises nothing but [HTTPException].  When the language-model
    client cannot be initialised it answers 503 before anything else, a
    greeting included, and calls no service; when the query is no greeting
    and the embedding of the query raises a [ValueError] it answers 503 for
    the embedding service, and neither the search nor the language model is
    called. *)
Theorem chat_error_mapping svc request w :
  (forall e w', chat svc request w = (Raise e, w') ->
                exists code detail, e = HTTPException code detail)
  /\ (forall msg w1,
        get_llm_client svc w = (Raise (ValueError msg), w1) ->
        chat svc request w
        = (Raise (HTTPException 503
                    ("LLM service is not available: " ++ msg
                     ++ ". Please check your DEEPSEEK_API_KEY environment variable.")%string),
           w1)
        /\ calls w1 = calls w)
  /\ (forall c w1 msg w2,
        is_simple_greeting (query request) = false ->
        get_llm_client svc w = (Ok c, w1) ->
        get_embedding svc (query request) true w1
        = (Raise (ValueError msg), w2) ->
        chat svc request w
        = (Raise (HTTPException 503
                    ("Embedding service is not available: " ++ msg
                     ++ ". Please check your HF_API_KEY environment variable.")%string),
           w2)
        /\ (calls w2 = calls w
            \/ calls w2
               = calls w
                 ++ [CallFeatureExtraction
                       (format_text (query request) true)])).
Proof.
  split; [| split].
  - intros e w' H. exact (internal_error_http _ _ _ _ H).
  - intros msg w1 H.
    destruct (get_llm_client_frame _ _ _ _ H) as (Hc & _).
    split; [| exact Hc].
    unfold chat, chat_body, try_except, bind. rewrite H. reflexivity.
  - intros c w1 msg w2 Hg Hc He.
    split.
    + unfold chat, chat_body, try_except, bind. rewrite Hc, Hg, He.
      reflexivity.
    + destruct (get_llm_client_frame _ _ _ _ Hc) as (Hc1 & _).
      rewrite <- Hc1.
      unfold get_embedding, bind in He.
      destruct (get_embeddings_client svc w1) as [[client | ex] wa] eqn:Hcl;
        destruct (get_embeddings_client_frame _ _ _ _ Hcl) as (Ha & _).
      * destruct client as [cl |]; [| inversion He].
        unfold external in He.
        destruct (feature_extraction svc (calls wa) _)
          as [[v | [| v rows]] | ex]; inversion He; subst; cbn;
          rewrite Ha; now right.
      * inversion He; subst. now left.
Qed.

(** Without any key even a greeting is answered 503; with the language-model
    key alone a question is answered 503 for the embedding service. *)
Lemma chat_error_mapping_witness :
  fst (chat Cases.no_keys {| query := "hello"; top_k := None |} Demo.w0)
  = Raise (HTTPException 503
      "LLM service is not available: LLM client not initialized: DEEPSEEK_API_KEY not found in environment variables. Please check your DEEPSEEK_API_KEY environment variable.")
  /\ fst (chat Cases.llm_key_only
            {| query := "what is machine learning"; top_k := None |} Demo.w0)
     = Raise (HTTPException 503
         "Embedding service is not available: Embeddings client not initialized: HF_API_KEY not found in environment variables. Get your free API key at https://huggingface.co/settings/tokens. Please check your HF_API_KEY environment variable.").
Proof.
  split.
  - destruct (chat_error_mapping Cases.no_keys
                {| query := "hello"; top_k := None |} Demo.w0) as (_ & H & _).
    edestruct H as [Hc _]; [lazy; reflexivity |].
    rewrite Hc. reflexivity.
  - destruct (chat_error_mapping Cases.llm_key_only
                {| query := "what is machine learning"; top_k := None |}
                Demo.w0) as (_ & _ & H).
    edestruct H as [Hc _]; [reflexivity | lazy; reflexivity
                           | lazy; reflexivity |].
    rewrite Hc. reflexivity.
Defined.

(** ** What leaves the store alone *)

Lemma keeps_ret {A} (a : A) : keeps_store (ret a).
Proof. intros w r w' H. inversion H; subst. auto. Qed.

Lemma keeps_raise {A} e : keeps_store (@raise A e).
Proof. intros w r w' H. inversion H; subst. auto. Qed.

Lemma keeps_bind {A B} (m : M A) (k : A -> M B) :
  keeps_store m -> (forall a, keeps_store (k a)) -> keeps_store (bind m k).
Proof.
  intros Hm Hk w r w' H. unfold bind in H.
  destruct (m w) as [[a | e] w1] eqn:Em; destruct (Hm _ _ _ Em) as [Hc Hu].
  - destruct (Hk a _ _ _ H) as [Hc' Hu']. split; [congruence | lia].
  - inversion H; subst. auto.
Qed.

Lemma keeps_try_except {A} (m : M A) h :
  keeps_store m ->
  (forall e k, h e = Some k -> keeps_store k) ->
  keeps_store (try_except m h).
Proof.
  intros Hm Hh w r w' H. unfold try_except in H.
  destruct (m w) as [[a | e] w1] eqn:Em; destruct (Hm _ _ _ Em) as [Hc Hu].
  - inversion H; subst. auto.
  - destruct (h e) as [k |] eqn:Ek.
    + destruct (Hh _ _ Ek _ _ _ H) as [Hc' Hu']. split; [congruence | lia].
    + inversion H; subst. auto.
Qed.

Lemma keeps_external {A} c (f : list call -> result A) :
  keeps_store (external c f).
Proof. intros w r w' H. unfold external in H. inversion H; subst. auto. Qed.

Lemma quiet_keeps svc {A} (m : M A) : quiet svc m -> keeps_store m.
Proof.
  intros Hq w r w' H. destruct (Hq _ _ _ H) as (Hc & Hu & _). auto.
Qed.

Lemma keeps_get_llm_client svc : keeps_store (get_llm_client svc).
Proof.
  intros w r w' H. destruct (get_llm_client_frame _ _ _ _ H) as (_ & Hc & Hu).
  split; [exact Hc | lia].
Qed.

Lemma keeps_for_each {A B} (f : A -> M B) l :
  (forall x, keeps_store (f x)) -> keeps_store (for_each f l).
Proof.
  intros Hf. induction l as [| x l IH]; cbn; [apply keeps_ret |].
  apply keeps_bind; [apply Hf |]. intros y.
  apply keeps_bind; [exact IH |]. intros ys. apply keeps_ret.
Qed.

Lemma keeps_item {A} (l : list A) i : keeps_store (item l i).
Proof.
  unfold item. destruct (nth_error l i); [apply keeps_ret | apply keeps_raise].
Qed.

Lemma keeps_format_result results i : keeps_store (format_result results i).
Proof.
  unfold format_result.
  repeat first
    [ apply keeps_ret
    | apply keeps_item
    | apply keeps_bind; [| intros ?]
    | match goal with
      | |- keeps_store (match ?x with _ => _ end) => destruct x
      end ].
Qed.

Lemma keeps_search svc e k : keeps_store (search_similar_chunks svc e k).
Proof.
  unfold search_similar_chunks.
  apply keeps_bind; [apply (quiet_keeps svc), quiet_get_collection |].
  intros _. apply keeps_bind.
  - intros w r w' H. exact (keeps_external _ _ _ _ _ H).
  - intros results. unfold format_results.
    destruct (qr_ids results) as [| ids0 rest]; [apply keeps_ret |].
    destruct (0 <? length ids0); [| apply keeps_ret].
    apply keeps_for_each. intros i. apply keeps_format_result.
Qed.

Lemma keeps_create svc client messages temperature :
  keeps_store (create svc client messages temperature).
Proof.
  unfold create. destruct client; [apply keeps_external | apply keeps_raise].
Qed.

Lemma keeps_chat svc request : keeps_store (chat svc request).
Proof.
  unfold chat. apply keeps_try_except.
  2:{ intros e k H. destruct e; inversion H; apply keeps_raise. }
  unfold chat_body.
  apply keeps_bind.
  { apply keeps_try_except; [apply keeps_get_llm_client |].
    intros e k H. destruct e; inversion H. apply keeps_raise. }
  intros client. destruct (is_simple_greeting (query request)).
  { apply keeps_bind; [apply keeps_create | intros; apply keeps_ret]. }
  apply keeps_bind.
  { apply keeps_try_except;
      [apply (quiet_keeps svc), quiet_get_embedding |].
    intros e k H. destruct e; inversion H. apply keeps_raise. }
  intros e. apply keeps_bind; [apply keeps_search |]. intros rs.
  destruct rs as [| r rs].
  { apply keeps_bind; [apply keeps_create | intros; apply keeps_ret]. }
  destruct (PrimFloat.ltb (max_score (r :: rs)) RELEVANCE_THRESHOLD).
  { apply keeps_bind; [apply keeps_create | intros; apply keeps_ret]. }
  destruct (rag_loop 1 (r :: rs) [] []) as [cp ss].
  apply keeps_bind; [apply keeps_create | intros; apply keeps_ret].
Qed.

Lemma keeps_get_all_documents svc : keeps_store (get_all_documents svc).
Proof.
  unfold get_all_documents.
  apply keeps_bind; [apply (quiet_keeps svc), quiet_get_collection |].
  intros _. apply keeps_bind.
  - intros w r w' H. unfold collection_get_all in H. inversion H; subst. auto.
  - intros rows. destruct rows; apply keeps_ret.
Qed.

(** ** What an ingestion does to the store *)

Lemma chunk_row_id_bounds d fn ts lo hi rows :
  Forall (chunk_row d fn ts lo hi) rows ->
  forall x, In x (map row_id rows) -> exists k, lo <= k < hi /\ x = uuid_str k.
Proof.
  intros H x Hx. apply in_map_iff in Hx. destruct Hx as (r & <- & Hr).
  rewrite Forall_forall in H. destruct (H r Hr) as (_ & _ & _ & k & Hk & Hid).
  eauto.
Qed.

Lemma NoDup_ids_app d fn ts lo mid hi rows1 rows2 :
  Forall (chunk_row d fn ts lo mid) rows1 ->
  Forall (chunk_row d fn ts mid hi) rows2 ->
  NoDup (map row_id rows1) -> NoDup (map row_id rows2) ->
  NoDup (map row_id (rows1 ++ rows2)).
Proof.
  intros H1 H2 N1 N2. rewrite map_app. apply NoDup_app; [exact N1 | exact N2 |].
  intros x Hx1 Hx2.
  destruct (chunk_row_id_bounds _ _ _ _ _ _ H1 x Hx1) as (k1 & Hk1 & ->).
  destruct (chunk_row_id_bounds _ _ _ _ _ _ H2 _ Hx2) as (k2 & Hk2 & Heq).
  apply uuid_str_inj in Heq. lia.
Qed.

Lemma chunk_loop_nodup svc d fn ts p chunks : forall rows n w acc w',
  fold_m (chunk_step svc d fn ts p) chunks (rows, n) w = (Ok acc, w') ->
  forall new, fst acc = rows ++ new -> NoDup (map row_id new).
Proof.
  induction chunks as [| c chunks IH]; intros rows n w acc w' H new Hnew;
    cbn [fold_m] in H.
  - inversion H; subst. cbn in Hnew.
    rewrite <- (app_nil_r rows) in Hnew at 1.
    apply app_inv_head in Hnew. subst. constructor.
  - unfold bind in H.
    destruct (chunk_step svc d fn ts p (rows, n) c w) as [[acc1 | ex] w1] eqn:Hs;
      [| discriminate].
    destruct (chunk_step_ok _ _ _ _ _ _ _ _ _ _ _ Hs)
      as (r & -> & _ & _ & _ & Hrow & Hu).
    destruct (chunk_loop_ok _ _ _ _ _ _ _ _ _ _ _ H)
      as (new2 & -> & _ & _ & _ & Hrows2 & _).
    cbn [fst] in Hnew. rewrite <- app_assoc in Hnew.
    apply app_inv_head in Hnew. subst new.
    apply (NoDup_ids_app d fn ts (uuids w) (uuids w1) (uuids w') [r] new2);
      [constructor; [exact Hrow | constructor] | exact Hrows2
      | constructor; [now intros [] | constructor] |].
    apply (IH _ _ _ _ _ H). cbn. reflexivity.
Qed.

Lemma page_loop_nodup svc d fn ts pages : forall rows n w acc w',
  fold_m (page_step svc d fn ts) pages (rows, n) w = (Ok acc, w') ->
  forall new, fst acc = rows ++ new -> NoDup (map row_id new).
Proof.
  induction pages as [| [text p] pages IH]; intros rows n w acc w' H new Hnew;
    cbn [fold_m] in H.
  - inversion H; subst. cbn in Hnew.
    rewrite <- (app_nil_r rows) in Hnew at 1.
    apply app_inv_head in Hnew. subst. constructor.
  - unfold bind in H.
    destruct (page_step svc d fn ts (rows, n) (text, p) w)
      as [[acc1 | ex] w1] eqn:Hs; [| discriminate].
    unfold page_step, bind in Hs.
    destruct (split_text svc text w) as [[chunks | ex] w0] eqn:Hsp;
      [| discriminate].
    assert (Hu0 : uuids w0 = uuids w).
    { unfold split_text, external in Hsp. now inversion Hsp. }
    pose proof (chunk_loop_nodup _ _ _ _ _ _ _ _ _ _ _ Hs) as Hn1.
    destruct (chunk_loop_ok _ _ _ _ _ _ _ _ _ _ _ Hs)
      as (new1 & -> & _ & _ & _ & Hrows1 & _).
    destruct (page_loop_ok _ _ _ _ _ _ _ _ _ _ H)
      as (chunkss & new2 & _ & -> & _ & _ & Hrows2 & _).
    cbn [fst] in Hnew. rewrite <- app_assoc in Hnew.
    apply app_inv_head in Hnew. subst new.
    rewrite Hu0 in Hrows1.
    apply (NoDup_ids_app d fn ts (uuids w) (uuids w1) (uuids w') new1 new2);
      [exact Hrows1 | exact Hrows2 | now apply Hn1 |].
    apply (IH _ _ _ _ _ H). cbn. reflexivity.
Qed.

(** The rows of one ingestion have ids of their own. *)
Lemma process_ok_ids svc file_path fn ts w st w' :
  process_and_store_document svc file_path fn ts w = (Ok st, w') ->
  forall batch, collection w' = collection w ++ batch ->
                NoDup (map row_id batch).
Proof.
  unfold process_and_store_document, bind. intros H batch Hbatch.
  destruct (extract_text svc file_path fn w) as [[pages | e] w1] eqn:E1;
    [| discriminate].
  destruct (quiet_extract_text svc _ _ _ _ _ E1) as (Hc1 & _).
  destruct pages as [| pg pages]; [discriminate |].
  destruct (uuid4 w1) as [[d | e] w2] eqn:E2; [| discriminate].
  destruct (quiet_uuid4 svc _ _ _ E2) as (Hc2 & _).
  destruct (get_collection svc w2) as [[[] | e] w3] eqn:E3; [| discriminate].
  destruct (quiet_get_collection svc _ _ _ E3) as (Hc3 & _).
  destruct (fold_m (page_step svc d fn ts) (pg :: pages) ([], 0) w3)
    as [[acc | e] w4] eqn:E4; [| discriminate].
  destruct (quiet_fold_m svc _ (pg :: pages)
              (quiet_page_step svc d fn ts) _ _ _ _ E4) as (Hc4 & _).
  pose proof (page_loop_nodup _ _ _ _ _ _ _ _ _ _ E4 (fst acc) eq_refl) as Hnd.
  unfold collection_add in H.
  destruct (collection_add_error svc (calls w4) (fst acc)); [discriminate |].
  inversion H; subst. cbn in Hbatch.
  rewrite Hc4, Hc3, Hc2, Hc1 in Hbatch.
  apply app_inv_head in Hbatch. now subst.
Qed.

(** A failed ingestion leaves the collection and never takes an identifier
    back. *)
Lemma process_frame svc file_path fn ts w r w' :
  process_and_store_document svc file_path fn ts w = (r, w') ->
  uuids w <= uuids w'
  /\ (forall e, r = Raise e -> collection w' = collection w).
Proof.
  unfold process_and_store_document, bind. intros H.
  destruct (extract_text svc file_path fn w) as [[pages | e] w1] eqn:E1;
    destruct (quiet_extract_text svc _ _ _ _ _ E1) as (Hc1 & Hu1 & _).
  2:{ inversion H; subst. auto. }
  destruct pages as [| pg pages]; [inversion H; subst; auto |].
  destruct (uuid4 w1) as [[d | e] w2] eqn:E2;
    destruct (quiet_uuid4 svc _ _ _ E2) as (Hc2 & Hu2 & _).
  2:{ inversion H; subst. split; [lia | intros; congruence]. }
  destruct (get_collection svc w2) as [[[] | e] w3] eqn:E3;
    destruct (quiet_get_collection svc _ _ _ E3) as (Hc3 & Hu3 & _).
  2:{ inversion H; subst. split; [lia | intros; congruence]. }
  destruct (fold_m (page_step svc d fn ts) (pg :: pages) ([], 0) w3)
    as [[acc | e] w4] eqn:E4;
    destruct (quiet_fold_m svc _ (pg :: pages)
                (quiet_page_step svc d fn ts) _ _ _ _ E4)
      as (Hc4 & Hu4 & _).
  2:{ inversion H; subst. split; [lia | intros; congruence]. }
  unfold collection_add in H.
  destruct (collection_add_error svc (calls w4) (fst acc));
    inversion H; subst; cbn; (split; [lia |]); intros e' He';
    [congruence | discriminate].
Qed.

(** ** Deletion, on any collection *)

Lemma NoDup_map_injective {A B} (f : A -> B) l :
  NoDup (map f l) ->
  forall x y, In x l -> In y l -> f x = f y -> x = y.
Proof.
  induction l as [| a l IH]; cbn; intros Hnd x y Hx Hy Heq; [contradiction |].
  inversion Hnd as [| ? ? Hnotin Hnd']; subst.
  destruct Hx as [<- | Hx], Hy as [<- | Hy].
  - reflexivity.
  - exfalso. apply Hnotin. rewrite Heq. now apply in_map.
  - exfalso. apply Hnotin. rewrite <- Heq. now apply in_map.
  - now apply IH.
Qed.

(** With unique row ids, deleting by the ids of a document's rows deletes
    the document's rows. *)
Lemma delete_by_ids d rows :
  NoDup (map row_id rows) ->
  filter (fun r => negb (PyStr.mem (row_id r)
                           (map row_id (filter (of_document d) rows)))) rows
  = filter (fun r => negb (of_document d r)) rows.
Proof.
  intros Hnd. apply filter_ext_in. intros r Hr. f_equal.
  destruct (of_document d r) eqn:Hd.
  - apply mem_map_row_id. apply filter_In. auto.
  - destruct (PyStr.mem (row_id r) _) eqn:Hm; [| reflexivity].
    apply mem_In, in_map_iff in Hm. destruct Hm as (r' & Hid & Hin).
    apply filter_In in Hin. destruct Hin as [Hin Hd'].
    rewrite (NoDup_map_injective row_id rows Hnd r' r Hin Hr Hid) in Hd'.
    congruence.
Qed.

Lemma delete_document_frame svc d w r w' :
  delete_document svc d w = (r, w') ->
  uuids w' = uuids w
  /\ (collection w' = collection w
      \/ collection w'
         = filter (fun r => negb (PyStr.mem (row_id r)
                                    (map row_id (filter (of_document d)
                                                   (collection w)))))
             (collection w)).
Proof.
  intros H. destruct (get_collection_error svc (calls w)) as [e |] eqn:Hg.
  - unfold delete_document, try_except, delete_document_chunks, bind,
      get_collection in H.
    rewrite Hg in H. destruct e; cbn in H; inversion H; subst; auto.
  - destruct (delete_document_run svc d w Hg) as (w'' & Hrun & Hcol & Hu).
    rewrite Hrun in H. inversion H; subst. auto.
Qed.

(** X7: on a collection whose row ids are unique, [delete_document] removes
    exactly the rows of the document and keeps every other row, in order.
    It answers with the message that counts them when there was at least
    one, and with 404 "Document not found" when there was none; in that case
    it has only read the collection. *)
Theorem delete_removes_the_document svc d w :
  get_collection_error svc (calls w) = None ->
  NoDup (map row_id (collection w)) ->
  exists w',
    delete_document svc d w
    = (match length (filter (of_document d) (collection w)) with
       | 0 => Raise (HTTPException 404 "Document not found")
       | S n =>
           Ok [("message",
                JStr ("Deleted " ++ PyStr.of_nat (S n)
                      ++ " chunks for document " ++ d)%string)]
       end, w')
    /\ collection w' = filter (fun r => negb (of_document d r)) (collection w)
    /\ uuids w' = uuids w
    /\ calls w'
       = calls w ++ CallGet (Some d)
                    :: match filter (of_document d) (collection w) with
                       | [] => []
                       | r :: rs => [CallDelete (map row_id (r :: rs))]
                       end.
Proof.
  intros Hg Hnd.
  destruct (delete_document_run svc d w Hg) as (w' & Hrun & Hcol & Hu).
  exists w'. split; [exact Hrun |].
  split; [now rewrite Hcol, delete_by_ids |]. split; [exact Hu |].
  unfold delete_document, try_except, delete_document_chunks, bind,
    get_collection, collection_get_ids in Hrun.
  rewrite Hg in Hrun. cbn [fst snd] in Hrun. fold (of_document d) in Hrun.
  rewrite length_map in Hrun.
  destruct (filter (of_document d) (collection w)) as [| r rs];
    cbn in Hrun; inversion Hrun; subst; cbn; rewrite <- ?app_assoc;
    reflexivity.
Qed.

(** Deleting the demo document out of two, and deleting an unknown id. *)
Lemma delete_removes_the_document_witness :
  (exists w',
     delete_document (Demo.svc [] "") "uuid-0" Demo.w2
     = (Ok [("message", JStr "Deleted 3 chunks for document uuid-0")], w')
     /\ map row_id (collection w') = ["uuid-5"])
  /\ (exists w',
        delete_document (Demo.svc [] "") "uuid-9" Demo.w2
        = (Raise (HTTPException 404 "Document not found"), w')
        /\ collection w' = collection Demo.w2).
Proof.
  assert (Hnd : NoDup (map row_id (collection Demo.w2))).
  { vm_compute. repeat constructor; cbn; intuition discriminate. }
  split.
  - destruct (delete_removes_the_document (Demo.svc [] "") "uuid-0" Demo.w2
                eq_refl Hnd) as (w' & Hrun & Hcol & _).
    exists w'. split.
    + rewrite Hrun. f_equal.
    + rewrite Hcol. vm_compute. reflexivity.
  - destruct (delete_removes_the_document (Demo.svc [] "") "uuid-9" Demo.w2
                eq_refl Hnd) as (w' & Hrun & Hcol & _).
    exists w'. split.
    + rewrite Hrun. f_equal.
    + rewrite Hcol. vm_compute. reflexivity.
Defined.

(** ** The invariant of the store *)

Lemma known_row_mono n m r : n <= m -> known_row n r -> known_row m r.
Proof.
  intros Hle ((k1 & Hk1 & H1) & (k2 & Hk2 & H2)).
  split; [exists k1 | exists k2]; split; auto; lia.
Qed.

Lemma store_ok_empty w : collection w = [] -> store_ok w.
Proof.
  intros H. unfold store_ok, chunk_ids_of. rewrite H. cbn.
  split; [constructor |]. split; [constructor | reflexivity].
Qed.

Lemma store_ok_kept w w' :
  collection w' = collection w -> uuids w <= uuids w' ->
  store_ok w -> store_ok w'.
Proof.
  intros Hc Hu (Hnd & Hknown & Hids). unfold store_ok. rewrite Hc.
  split; [exact Hnd |]. split; [| exact Hids].
  eapply Forall_impl; [| exact Hknown]. intros r. now apply known_row_mono.
Qed.

Lemma filter_of_document_other d d' rows :
  d' <> d ->
  filter (of_document d') (filter (fun r => negb (of_document d r)) rows)
  = filter (of_document d') rows.
Proof.
  intros Hne. induction rows as [| r rows IH]; cbn; [reflexivity |].
  destruct (of_document d r) eqn:Hd; cbn.
  - destruct (of_document d' r) eqn:Hd'; [| exact IH].
    unfold of_document in *. apply String.eqb_eq in Hd, Hd'. congruence.
  - destruct (of_document d' r); now rewrite IH.
Qed.

Lemma filter_of_document_same d rows :
  filter (of_document d) (filter (fun r => negb (of_document d r)) rows) = [].
Proof.
  induction rows as [| r rows IH]; cbn; [reflexivity |].
  destruct (of_document d r) eqn:Hd; cbn; [exact IH |]. now rewrite Hd.
Qed.

Lemma store_ok_delete svc d w r w' :
  delete_document svc d w = (r, w') -> store_ok w -> store_ok w'.
Proof.
  intros H Hok. destruct (delete_document_frame _ _ _ _ _ H) as [Hu [Hc | Hc]].
  - apply (store_ok_kept w); [exact Hc | lia | exact Hok].
  - destruct Hok as (Hnd & Hknown & Hids).
    rewrite delete_by_ids in Hc by exact Hnd.
    unfold store_ok, chunk_ids_of. rewrite Hc, Hu.
    split; [| split].
    + clear - Hnd. induction (collection w) as [| x l IH]; cbn; [constructor |].
      inversion Hnd as [| ? ? Hnotin Hnd']; subst.
      destruct (of_document d x); cbn; [now apply IH |].
      constructor; [| now apply IH].
      intros Hin. apply Hnotin. apply in_map_iff in Hin.
      destruct Hin as (y & Hy & Hin). apply filter_In in Hin.
      rewrite <- Hy. apply in_map. tauto.
    + apply Forall_forall. intros x Hx. apply filter_In in Hx.
      rewrite Forall_forall in Hknown. now apply Hknown.
    + intros d'. destruct (String.eqb_spec d' d) as [-> | Hne].
      * now rewrite filter_of_document_same.
      * rewrite (filter_of_document_other _ _ _ Hne). apply Hids.
Qed.

Lemma store_ok_upload svc file_path fn ts w r w' :
  process_and_store_document svc file_path fn ts w = (r, w') ->
  store_ok w -> store_ok w'.
Proof.
  intros H Hok. destruct (process_frame _ _ _ _ _ _ _ H) as [Hu Hraise].
  destruct r as [st | e].
  2:{ apply (store_ok_kept w); auto. now apply (Hraise e). }
  destruct Hok as (Hnd & Hknown & Hids).
  destruct (process_ok _ _ _ _ _ _ _ H)
    as (_ & _ & _ & batch & _ & _ & Hcol & _ & _ & Hcids
        & (k0 & Hk0 & Hd) & Hrows).
  pose proof (process_ok_ids _ _ _ _ _ _ _ H batch Hcol) as Hndb.
  assert (Hold_id : forall x, In x (map row_id (collection w)) ->
                              exists k, k < uuids w /\ x = uuid_str k).
  { intros x Hx. apply in_map_iff in Hx. destruct Hx as (r & <- & Hr).
    rewrite Forall_forall in Hknown. destruct (Hknown r Hr) as [Hid _].
    exact Hid. }
  assert (Hold_doc : filter (of_document (st_doc_id st)) (collection w) = []).
  { apply filter_none. apply Forall_forall. intros r Hr.
    rewrite Forall_forall in Hknown.
    destruct (Hknown r Hr) as [_ (k & Hk & Hdoc)].
    unfold of_document. apply String.eqb_neq. rewrite Hdoc, Hd.
    intros Heq. apply uuid_str_inj in Heq. lia. }
  unfold store_ok, chunk_ids_of. rewrite Hcol.
  split; [| split].
  - rewrite map_app. apply NoDup_app; [exact Hnd | exact Hndb |].
    intros x Hx Hxb. destruct (Hold_id x Hx) as (k & Hk & ->).
    destruct (chunk_row_id_bounds _ _ _ _ _ _ Hrows _ Hxb)
      as (k' & Hk' & Heq).
    apply uuid_str_inj in Heq. lia.
  - apply Forall_app. split.
    + eapply Forall_impl; [| exact Hknown]. intros r.
      now apply known_row_mono.
    + eapply Forall_impl; [| exact Hrows].
      intros r (Hdoc & _ & _ & k & Hk & Hid).
      split; [exists k | exists k0]; split; try lia; congruence.
  - intros d. rewrite filter_app, map_app, length_app.
    destruct (String.eqb_spec d (st_doc_id st)) as [-> | Hne].
    + rewrite Hold_doc. cbn [map app length Nat.add].
      rewrite (filter_all _ batch).
      * now rewrite Hcids, length_seq.
      * eapply Forall_impl; [| exact Hrows]. intros r (Hdoc & _).
        unfold of_document. now apply String.eqb_eq.
    + rewrite (filter_none _ batch).
      * cbn. rewrite !app_nil_r, Nat.add_0_r. apply Hids.
      * eapply Forall_impl; [| exact Hrows]. intros r (Hdoc & _).
        unfold of_document. apply String.eqb_neq. congruence.
Qed.

Lemma store_ok_serve svc w rq : store_ok w -> store_ok (serve svc w rq).
Proof.
  intros Hok. destruct rq as [file_path fn ts | d | r |]; cbn.
  - destruct (process_and_store_document svc file_path fn ts w) as [res w']
      eqn:H.
    exact (store_ok_upload _ _ _ _ _ _ _ H Hok).
  - destruct (delete_document svc d w) as [res w'] eqn:H.
    exact (store_ok_delete _ _ _ _ _ H Hok).
  - destruct (chat svc r w) as [res w'] eqn:H.
    destruct (keeps_chat _ _ _ _ _ H) as [Hc Hu].
    exact (store_ok_kept _ _ Hc Hu Hok).
  - destruct (get_all_documents svc w) as [res w'] eqn:H.
    destruct (keeps_get_all_documents _ _ _ _ H) as [Hc Hu].
    exact (store_ok_kept _ _ Hc Hu Hok).
Qed.

(** X8: the store keeps its invariant under every sequence of uploads,
    deletions, chats and listings, whether they succeed or fail: starting
    from an empty collection, row ids stay unique, every row carries a row id
    and a document id that were drawn before, and the chunk indices of every
    document in the collection are 0, 1, 2, ... in order. *)
Theorem store_invariant svc rqs w :
  store_ok w -> store_ok (serve_all svc rqs w).
Proof.
  unfold serve_all. revert w.
  induction rqs as [| rq rqs IH]; intros w Hok; cbn; [exact Hok |].
  apply IH. now apply store_ok_serve.
Qed.

(** Two uploads, a failed upload, a chat, a deletion and a listing, from
    the empty collection. *)
Lemma store_invariant_witness :
  store_ok
    (serve_all (Demo.svc [0.1; 0.6]%float "beta")
       [Upload "/tmp/t" "notes.txt" Demo.ts1;
        Upload "/tmp/u" "more.docx" Demo.ts2;
        Upload "/tmp/a" "report.pdf" Demo.ts2;
        Chat {| query := "what is machine learning"; top_k := Some 2%Z |};
        Delete "uuid-0";
        ListDocuments]
       Demo.w0)
  /\ map (fun r => (row_id r, doc_id (row_metadata r),
                    chunk_id (row_metadata r)))
       (collection
          (serve_all (Demo.svc [0.1; 0.6]%float "beta")
             [Upload "/tmp/t" "notes.txt" Demo.ts1;
              Upload "/tmp/u" "more.docx" Demo.ts2;
              Upload "/tmp/a" "report.pdf" Demo.ts2;
              Chat {| query := "what is machine learning";
                      top_k := Some 2%Z |};
              Delete "uuid-0";
              ListDocuments]
             Demo.w0))
     = [("uuid-3", "uuid-2", 0)].
Proof.
  split; [| vm_compute; reflexivity].
  apply store_invariant. now apply store_ok_empty.
Defined.

(** ** The listing after an upload and after a deletion *)

Lemma catalog_eq rows :
  catalog rows
  = sort_by_file_name (fold_left catalog_step (map row_metadata rows) []).
Proof. now destruct rows. Qed.

Lemma get_all_documents_ok svc w docs w' :
  get_all_documents svc w = (Ok docs, w') -> docs = catalog (collection w).
Proof.
  intros H. destruct (get_collection_error svc (calls w)) as [e |] eqn:Hg.
  - unfold get_all_documents, bind, get_collection in H. rewrite Hg in H.
    discriminate.
  - rewrite (get_all_documents_run _ _ Hg) in H. congruence.
Qed.

Lemma dm_mem_filter d k m :
  k <> d -> dm_mem k (filter (other_than d) m) = dm_mem k m.
Proof.
  intros Hk. unfold dm_mem.
  induction m as [| e m IH]; cbn [filter existsb]; [reflexivity |].
  unfold other_than at 1.
  destruct (String.eqb (d_doc_id e) d) eqn:Hd; cbn [negb existsb]; rewrite IH;
    [| reflexivity].
  apply String.eqb_eq in Hd.
  assert (He : String.eqb (d_doc_id e) k = false).
  { apply String.eqb_neq. congruence. }
  now rewrite He.
Qed.

Lemma dm_update_filter d k ts m :
  filter (other_than d) (dm_update k (count_chunk ts) m)
  = dm_update k (count_chunk ts) (filter (other_than d) m).
Proof.
  unfold dm_update.
  induction m as [| e m IH]; cbn [map filter]; [reflexivity |].
  assert (Hsame : other_than d
                    (if String.eqb (d_doc_id e) k then count_chunk ts e else e)
                  = other_than d e).
  { now destruct (String.eqb (d_doc_id e) k). }
  rewrite Hsame. destruct (other_than d e); cbn [map]; now rewrite IH.
Qed.

Lemma dm_update_filter_same d ts m :
  filter (other_than d) (dm_update d (count_chunk ts) m)
  = filter (other_than d) m.
Proof.
  rewrite dm_update_filter. apply dm_update_absent.
  rewrite in_map_iff. intros (e & He & Hin). apply filter_In in Hin.
  destruct Hin as [_ Hin]. unfold other_than in Hin.
  apply String.eqb_eq in He. rewrite He in Hin. discriminate.
Qed.

Lemma catalog_step_filter_other d m md :
  doc_id md <> d ->
  filter (other_than d) (catalog_step m md)
  = catalog_step (filter (other_than d) m) md.
Proof.
  intros Hk. unfold catalog_step. rewrite (dm_mem_filter _ _ _ Hk).
  assert (Hnew : forall e, d_doc_id e = doc_id md ->
                           filter (other_than d) (m ++ [e])
                           = filter (other_than d) m ++ [e]).
  { intros e He. rewrite filter_app. cbn. unfold other_than at 2.
    rewrite He. apply String.eqb_neq in Hk. now rewrite Hk. }
  destruct (negb (PyStr.is_empty (doc_id md)) && negb (dm_mem (doc_id md) m)).
  - rewrite <- Hnew by reflexivity. rewrite (dm_mem_filter _ _ _ Hk).
    destruct (dm_mem (doc_id md) _); [apply dm_update_filter | reflexivity].
  - rewrite (dm_mem_filter _ _ _ Hk).
    destruct (dm_mem (doc_id md) m); [apply dm_update_filter | reflexivity].
Qed.

Lemma catalog_step_filter_same d m md :
  doc_id md = d ->
  filter (other_than d) (catalog_step m md) = filter (other_than d) m.
Proof.
  intros <-. unfold catalog_step.
  assert (Hnew : forall e, d_doc_id e = doc_id md ->
                           filter (other_than (doc_id md)) (m ++ [e])
                           = filter (other_than (doc_id md)) m).
  { intros e He. rewrite filter_app. cbn. unfold other_than at 2.
    rewrite He, String.eqb_refl. apply app_nil_r. }
  destruct (negb (PyStr.is_empty (doc_id md)) && negb (dm_mem (doc_id md) m)).
  - destruct (dm_mem (doc_id md) _).
    + rewrite dm_update_filter_same. now apply Hnew.
    + now apply Hnew.
  - destruct (dm_mem (doc_id md) m); [apply dm_update_filter_same | reflexivity].
Qed.

Lemma catalog_fold_filter d mds :
  filter (other_than d) (fold_left catalog_step mds [])
  = fold_left catalog_step (filter (fun md => negb (in_group d md)) mds) [].
Proof.
  induction mds as [| md mds IH] using rev_ind; [reflexivity |].
  rewrite filter_app, !fold_left_app. cbn [fold_left filter].
  unfold in_group at 1. destruct (String.eqb_spec (doc_id md) d) as [Hd | Hd].
  - cbn [negb fold_left]. rewrite <- IH. now apply catalog_step_filter_same.
  - cbn [negb fold_left]. rewrite <- IH.
    now apply catalog_step_filter_other.
Qed.

Lemma insert_sorted_first x l :
  Forall (by_file_name x) l -> insert_sorted x l = x :: l.
Proof.
  intros H. destruct l as [| y l]; [reflexivity |]. cbn.
  inversion H as [| ? ? Hy _]; subst. unfold by_file_name in Hy.
  now rewrite Hy.
Qed.

Lemma filter_insert_sorted (p : document -> bool) x l :
  StronglySorted by_file_name l ->
  filter p (insert_sorted x l)
  = if p x then insert_sorted x (filter p l) else filter p l.
Proof.
  induction 1 as [| y l Hs IH Hy]; cbn.
  - now destruct (p x).
  - destruct (String.leb (d_file_name x) (d_file_name y)) eqn:Hxy.
    + cbn. destruct (p x); [| reflexivity].
      symmetry. apply insert_sorted_first.
      assert (Hall : Forall (by_file_name x) (y :: l)).
      { constructor; [exact Hxy |].
        eapply Forall_impl; [| exact Hy]. intros z Hz.
        exact (string_leb_trans _ _ _ Hxy Hz). }
      apply Forall_forall. intros z Hz.
      rewrite Forall_forall in Hall. apply Hall.
      change (In z (filter p (y :: l))) in Hz.
      apply filter_In in Hz. tauto.
    + cbn. rewrite IH. destruct (p y), (p x); cbn; try reflexivity.
      now rewrite Hxy.
Qed.

Lemma sort_filter (p : document -> bool) l :
  filter p (sort_by_file_name l) = sort_by_file_name (filter p l).
Proof.
  induction l as [| x l IH]; [reflexivity |].
  cbn [sort_by_file_name fold_right filter].
  fold (sort_by_file_name l).
  rewrite filter_insert_sorted by apply sort_by_file_name_sorted.
  rewrite IH. now destruct (p x).
Qed.

(** The catalog without the rows of a document is the catalog without the
    entry of the document. *)
Lemma catalog_filter d rows :
  catalog (filter (fun r => negb (of_document d r)) rows)
  = filter (other_than d) (catalog rows).
Proof.
  rewrite !catalog_eq, sort_filter, catalog_fold_filter. f_equal. f_equal.
  induction rows as [| r rows IH]; cbn; [reflexivity |].
  unfold in_group at 1, of_document at 1.
  destruct (String.eqb (doc_id (row_metadata r)) d); cbn; now rewrite IH.
Qed.

Lemma delete_document_ok svc d w b w' :
  NoDup (map row_id (collection w)) ->
  delete_document svc d w = (Ok b, w') ->
  collection w' = filter (fun r => negb (of_document d r)) (collection w)
  /\ filter (of_document d) (collection w) <> [].
Proof.
  intros Hnd H. destruct (get_collection_error svc (calls w)) as [e |] eqn:Hg.
  - unfold delete_document, try_except, delete_document_chunks, bind,
      get_collection in H.
    rewrite Hg in H. destruct e; cbn in H; discriminate.
  - destruct (delete_document_run svc d w Hg) as (w'' & Hrun & Hcol & _).
    rewrite Hrun in H.
    destruct (filter (of_document d) (collection w)) as [| r rs] eqn:Hf;
      [discriminate |].
    inversion H; subst. split; [| discriminate].
    rewrite Hcol, <- Hf. now apply delete_by_ids.
Qed.

(** X9: after a successful [delete_document], the listing is the listing
    from before without the entry of the deleted document: every other entry
    is as it was, and they are in the same order. *)
Theorem delete_then_list svc d w b w1 :
  NoDup (map row_id (collection w)) ->
  delete_document svc d w = (Ok b, w1) ->
  get_collection_error svc (calls w1) = None ->
  exists w2,
    get_all_documents svc w1
    = (Ok (filter (other_than d) (catalog (collection w))), w2)
    /\ (d <> "" -> In d (map d_doc_id (catalog (collection w))))
    /\ ~ In d (map d_doc_id (filter (other_than d) (catalog (collection w)))).
Proof.
  intros Hnd Hdel Hg.
  destruct (delete_document_ok _ _ _ _ _ Hnd Hdel) as [Hcol Hsome].
  exists (set_calls (calls w1 ++ [CallGet None]) w1).
  split; [| split].
  - rewrite (get_all_documents_run _ _ Hg), Hcol. now rewrite catalog_filter.
  - intros Hd. apply catalog_properties. split; [exact Hd |].
    destruct (filter (of_document d) (collection w)) as [| r rs] eqn:Hf;
      [contradiction |].
    assert (Hin : In r (filter (of_document d) (collection w))).
    { rewrite Hf. now left. }
    apply filter_In in Hin. destruct Hin as [Hin Hr].
    exists r. split; [exact Hin |]. now apply String.eqb_eq.
  - rewrite in_map_iff. intros (e & He & Hin). apply filter_In in Hin.
    destruct Hin as [_ Hin]. unfold other_than in Hin.
    apply String.eqb_eq in He. rewrite He in Hin. discriminate.
Qed.

(** Deleting report.pdf after the two uploads leaves the entry of
    notes.txt. *)
Lemma delete_then_list_witness :
  exists w1 w2,
    delete_document (Demo.svc [] "") "uuid-0" Demo.w2
    = (Ok [("message", JStr "Deleted 3 chunks for document uuid-0")], w1)
    /\ get_all_documents (Demo.svc [] "") w1
       = (Ok [entry_of "uuid-4" "notes.txt" 1 Demo.ts2], w2).
Proof.
  assert (Hr : fst (delete_document (Demo.svc [] "") "uuid-0" Demo.w2)
               = Ok [("message", JStr "Deleted 3 chunks for document uuid-0")]).
  { vm_compute. reflexivity. }
  destruct (delete_document (Demo.svc [] "") "uuid-0" Demo.w2)
    as [r w1] eqn:Hdel.
  cbn [fst] in Hr. subst r.
  assert (Hnd : NoDup (map row_id (collection Demo.w2))).
  { vm_compute. repeat constructor; cbn; intuition discriminate. }
  destruct (delete_then_list (Demo.svc [] "") "uuid-0" Demo.w2 _ w1 Hnd Hdel
              eq_refl) as (w2 & Hlist & _).
  exists w1, w2. split; [reflexivity |].
  rewrite Hlist. f_equal.
Defined.

Lemma count_chunk_entry d fn n ts :
  count_chunk ts (entry_of d fn n ts) = entry_of d fn (n + 1) ts.
Proof.
  unfold count_chunk, entry_of. cbn. f_equal.
  destruct ts as [t |]; [| reflexivity].
  now destruct (negb (PyStr.is_empty t) && _).
Qed.

(** The first chunk of an upload opens the entry of the upload. *)
Lemma catalog_step_first m md :
  doc_id md <> "" -> ~ In (doc_id md) (map d_doc_id m) ->
  catalog_step m md
  = m ++ [entry_of (doc_id md) (file_name md) 1 (upload_timestamp md)].
Proof.
  intros Hd Hnotin. unfold catalog_step.
  assert (He : PyStr.is_empty (doc_id md) = false).
  { destruct (PyStr.is_empty (doc_id md)) eqn:He; [| reflexivity].
    now apply is_empty_iff in He. }
  assert (Hm : dm_mem (doc_id md) m = false).
  { destruct (dm_mem (doc_id md) m) eqn:Hm; [| reflexivity].
    now apply dm_mem_In in Hm. }
  rewrite He, Hm. cbn [negb andb].
  fold (entry_of (doc_id md) (file_name md) 0 (upload_timestamp md)).
  assert (Hm' : dm_mem (doc_id md)
                  (m ++ [entry_of (doc_id md) (file_name md) 0
                           (upload_timestamp md)]) = true).
  { apply dm_mem_In. rewrite map_app. apply in_or_app. right. now left. }
  rewrite Hm'. unfold dm_update. rewrite map_app.
  fold (dm_update (doc_id md) (count_chunk (upload_timestamp md)) m).
  rewrite (dm_update_absent _ _ _ Hnotin). cbn [map entry_of d_doc_id].
  rewrite String.eqb_refl.
  fold (entry_of (doc_id md) (file_name md) 0 (upload_timestamp md)).
  now rewrite count_chunk_entry.
Qed.

(** A further chunk of the upload is counted in its entry. *)
Lemma catalog_step_next m md n :
  ~ In (doc_id md) (map d_doc_id m) ->
  catalog_step
    (m ++ [entry_of (doc_id md) (file_name md) n (upload_timestamp md)]) md
  = m ++ [entry_of (doc_id md) (file_name md) (n + 1) (upload_timestamp md)].
Proof.
  intros Hnotin. unfold catalog_step.
  assert (Hm' : dm_mem (doc_id md)
                  (m ++ [entry_of (doc_id md) (file_name md) n
                           (upload_timestamp md)]) = true).
  { apply dm_mem_In. rewrite map_app. apply in_or_app. right. now left. }
  rewrite Hm'. rewrite andb_false_r. rewrite Hm'.
  unfold dm_update. rewrite map_app.
  fold (dm_update (doc_id md) (count_chunk (upload_timestamp md)) m).
  rewrite (dm_update_absent _ _ _ Hnotin). cbn [map entry_of d_doc_id].
  rewrite String.eqb_refl.
  fold (entry_of (doc_id md) (file_name md) n (upload_timestamp md)).
  now rewrite count_chunk_entry.
Qed.

Lemma catalog_fold_upload d fn ts mds : forall m n,
  ~ In d (map d_doc_id m) ->
  Forall (fun md => doc_id md = d /\ file_name md = fn
                    /\ upload_timestamp md = ts) mds ->
  fold_left catalog_step mds (m ++ [entry_of d fn n ts])
  = m ++ [entry_of d fn (n + length mds) ts].
Proof.
  induction mds as [| md mds IH]; intros m n Hnotin Hall.
  - cbn. now rewrite Nat.add_0_r.
  - inversion Hall as [| ? ? (Hd & Hf & Ht) Hall']; subst.
    cbn [fold_left length]. rewrite catalog_step_next by exact Hnotin.
    rewrite IH by assumption.
    replace (n + 1 + length mds) with (n + S (length mds)) by lia.
    reflexivity.
Qed.

Lemma catalog_fold_new_upload d fn ts md mds m :
  d <> "" -> ~ In d (map d_doc_id m) ->
  Forall (fun md => doc_id md = d /\ file_name md = fn
                    /\ upload_timestamp md = ts) (md :: mds) ->
  fold_left catalog_step (md :: mds) m
  = m ++ [entry_of d fn (length (md :: mds)) ts].
Proof.
  intros Hd Hnotin Hall.
  inversion Hall as [| ? ? (Hd' & Hf & Ht) Hall']; subst.
  cbn [fold_left]. rewrite catalog_step_first by assumption.
  now rewrite catalog_fold_upload.
Qed.

Lemma filter_other_than_split d (l1 l2 : list document) e :
  d_doc_id e = d -> NoDup (map d_doc_id (l1 ++ e :: l2)) ->
  filter (other_than d) (l1 ++ e :: l2) = l1 ++ l2.
Proof.
  intros He Hnd. rewrite filter_app. cbn [filter]. unfold other_than at 2.
  rewrite He, String.eqb_refl. cbn [negb].
  rewrite map_app in Hnd. cbn [map] in Hnd.
  pose proof (NoDup_remove_2 _ _ _ Hnd) as Hnotin. rewrite He in Hnotin.
  assert (Hkeep : forall l, (forall x, In x l -> In (d_doc_id x)
                                        (map d_doc_id l1 ++ map d_doc_id l2)) ->
                            filter (other_than d) l = l).
  { intros l Hl. apply filter_all. apply Forall_forall. intros x Hx.
    unfold other_than. destruct (String.eqb_spec (d_doc_id x) d) as [Hxd |];
      [| reflexivity].
    exfalso. apply Hnotin. rewrite <- Hxd. now apply Hl. }
  rewrite (Hkeep l1), (Hkeep l2); [reflexivity | |];
    intros x Hx; apply in_or_app; [right | left]; now apply in_map.
Qed.

(** The catalog after the rows of a new document have been appended. *)
Lemma catalog_after_upload d fn ts old batch :
  d <> "" -> batch <> [] ->
  Forall (fun r => doc_id (row_metadata r) <> d) old ->
  Forall (uploaded_as d fn ts) batch ->
  exists before after,
    catalog (old ++ batch)
    = before ++ entry_of d fn (length batch) ts :: after
    /\ catalog old = before ++ after.
Proof.
  intros Hd Hne Hold Hbatch.
  assert (Hin : In (entry_of d fn (length batch) ts) (catalog (old ++ batch))).
  { rewrite catalog_eq, map_app, fold_left_app.
    destruct (catalog_fold_inv (map row_metadata old)) as (_ & Hkeys & _).
    destruct batch as [| r batch]; [contradiction |].
    cbn [map]. rewrite (catalog_fold_new_upload d fn ts).
    - eapply Permutation_in; [apply sort_by_file_name_perm |].
      apply in_or_app. right. left. cbn [length]. now rewrite length_map.
    - exact Hd.
    - rewrite Hkeys. intros (_ & md & Hmd & Hid).
      apply in_map_iff in Hmd. destruct Hmd as (r' & <- & Hr').
      rewrite Forall_forall in Hold. now apply (Hold r').
    - change (Forall (fun md => doc_id md = d /\ file_name md = fn
                                /\ upload_timestamp md = ts)
                (map row_metadata (r :: batch))).
      apply Forall_map. eapply Forall_impl; [| exact Hbatch].
      now intros x Hx. }
  apply in_split in Hin. destruct Hin as (before & after & Hsplit).
  exists before, after. split; [exact Hsplit |].
  destruct (catalog_properties (old ++ batch)) as (Hnd & _).
  rewrite Hsplit in Hnd.
  rewrite <- (filter_other_than_split d before after
                (entry_of d fn (length batch) ts) eq_refl Hnd).
  rewrite <- Hsplit, <- catalog_filter, filter_app.
  rewrite (filter_all _ old), (filter_none _ batch).
  - now rewrite app_nil_r.
  - eapply Forall_impl; [| exact Hbatch]. intros r (Hr & _).
    unfold of_document. rewrite Hr, String.eqb_refl. reflexivity.
  - eapply Forall_impl; [| exact Hold]. intros r Hr.
    unfold of_document. apply String.eqb_neq in Hr. now rewrite Hr.
Qed.

(** X10: after a successful upload of at least one chunk into a store that
    satisfies its invariant, the listing is the listing from before with one
    new entry: the document id that the upload returned, the file name, the
    number of chunks created and the upload timestamp.  The other entries
    are as they were and in the same order.  An upload that created no chunk
    leaves the listing as it was. *)
Theorem upload_then_list svc file_path fn ts w st w1 :
  store_ok w ->
  process_and_store_document svc file_path fn ts w = (Ok st, w1) ->
  get_collection_error svc (calls w1) = None ->
  exists docs w2,
    get_all_documents svc w1 = (Ok docs, w2)
    /\ (0 < chunks_created st ->
        exists before after,
          docs = before
                 ++ entry_of (st_doc_id st) fn (chunks_created st) ts :: after
          /\ catalog (collection w) = before ++ after)
    /\ (chunks_created st = 0 -> docs = catalog (collection w)).
Proof.
  intros (_ & Hknown & _) Hrun Hg.
  exists (catalog (collection w1)), (set_calls (calls w1 ++ [CallGet None]) w1).
  split; [now apply get_all_documents_run |].
  destruct (process_ok _ _ _ _ _ _ _ Hrun)
    as (_ & _ & _ & batch & _ & _ & Hcol & Hlen & _ & _
        & (k & Hk & Hd) & Hrows).
  rewrite Hcol, Hlen. split.
  - intros Hpos. apply catalog_after_upload.
    + rewrite Hd. apply uuid_str_nonempty.
    + destruct batch; [cbn in Hpos; lia | discriminate].
    + eapply Forall_impl; [| exact Hknown].
      intros r (_ & k' & Hk' & Hr). rewrite Hr, Hd. intros Heq.
      apply uuid_str_inj in Heq. lia.
    + now apply (chunk_rows_uploaded _ _ _ (uuids w) (uuids w1)).
  - intros Hzero. destruct batch; [| discriminate]. now rewrite app_nil_r.
Qed.

(** Uploading more.docx after report.pdf and notes.txt. *)
Lemma upload_then_list_witness :
  store_ok Demo.w2
  /\ fst (get_all_documents (Demo.svc [] "") Demo.w2)
     = Ok [entry_of "uuid-4" "notes.txt" 1 Demo.ts2;
           entry_of "uuid-0" "report.pdf" 3 Demo.ts1]
  /\ exists w1,
       process_and_store_document (Demo.svc [] "") "/tmp/u" "more.docx"
         Demo.ts1 Demo.w2
       = (Ok {| st_doc_id := "uuid-6"; chunks_created := 1 |}, w1)
       /\ fst (get_all_documents (Demo.svc [] "") w1)
          = Ok [entry_of "uuid-6" "more.docx" 1 Demo.ts1;
                entry_of "uuid-4" "notes.txt" 1 Demo.ts2;
                entry_of "uuid-0" "report.pdf" 3 Demo.ts1]
       /\ exists docs w2,
            get_all_documents (Demo.svc [] "") w1 = (Ok docs, w2)
            /\ (0 < 1 ->
                exists before after,
                  docs = before ++ entry_of "uuid-6" "more.docx" 1 Demo.ts1
                                   :: after
                  /\ catalog (collection Demo.w2) = before ++ after)
            /\ (1 = 0 -> docs = catalog (collection Demo.w2)).
Proof.
  assert (Hok : store_ok Demo.w2).
  { unfold Demo.w2, Demo.w1.
    eapply store_ok_upload; [apply surjective_pairing |].
    eapply store_ok_upload; [apply surjective_pairing |].
    now apply store_ok_empty. }
  split; [exact Hok |]. split; [vm_compute; reflexivity |].
  assert (Hst : fst (process_and_store_document (Demo.svc [] "") "/tmp/u"
                       "more.docx" Demo.ts1 Demo.w2)
                = Ok {| st_doc_id := "uuid-6"; chunks_created := 1 |}).
  { vm_compute. reflexivity. }
  assert (Hdocs : fst (get_all_documents (Demo.svc [] "")
                         (snd (process_and_store_document (Demo.svc [] "")
                                 "/tmp/u" "more.docx" Demo.ts1 Demo.w2)))
                  = Ok [entry_of "uuid-6" "more.docx" 1 Demo.ts1;
                        entry_of "uuid-4" "notes.txt" 1 Demo.ts2;
                        entry_of "uuid-0" "report.pdf" 3 Demo.ts1]).
  { vm_compute. reflexivity. }
  destruct (process_and_store_document (Demo.svc [] "") "/tmp/u" "more.docx"
              Demo.ts1 Demo.w2) as [r w1] eqn:Hrun.
  cbn [fst snd] in Hst, Hdocs. subst r.
  exists w1. split; [reflexivity |]. split; [exact Hdocs |].
  exact (upload_then_list (Demo.svc [] "") "/tmp/u" "more.docx" Demo.ts1
           Demo.w2 _ w1 Hok Hrun eq_refl).
Defined.

(** ** The counts of the listing *)

Lemma dm_update_sum k ts m :
  NoDup (map d_doc_id m) -> In k (map d_doc_id m) ->
  list_sum (map chunks_count (dm_update k (count_chunk ts) m))
  = list_sum (map chunks_count m) + 1.
Proof.
  induction m as [| e m IH]; intros Hnd Hin; [contradiction |].
  cbn [map] in Hnd. inversion Hnd as [| ? ? Hnotin Hnd']; subst.
  change (dm_update k (count_chunk ts) (e :: m))
    with ((if String.eqb (d_doc_id e) k then count_chunk ts e else e)
          :: dm_update k (count_chunk ts) m).
  change (list_sum (map chunks_count (e :: m)))
    with (chunks_count e + list_sum (map chunks_count m)).
  change (list_sum (map chunks_count (?x :: ?l)))
    with (chunks_count x + list_sum (map chunks_count l)).
  destruct (String.eqb_spec (d_doc_id e) k) as [Hk | Hk].
  - rewrite dm_update_absent by (now rewrite <- Hk). cbn. lia.
  - destruct Hin as [Hin | Hin]; [contradiction |].
    rewrite IH by assumption. lia.
Qed.

Lemma catalog_step_sum mds m md :
  catalog_inv mds m ->
  list_sum (map chunks_count (catalog_step m md))
  = list_sum (map chunks_count m)
    + (if PyStr.is_empty (doc_id md) then 0 else 1).
Proof.
  intros (Hnd & Hkeys & _).
  destruct (PyStr.is_empty (doc_id md)) eqn:He.
  - unfold catalog_step. rewrite He. cbn [negb andb].
    assert (Hm : dm_mem (doc_id md) m = false).
    { destruct (dm_mem (doc_id md) m) eqn:Hm; [| reflexivity].
      apply dm_mem_In, Hkeys in Hm. apply is_empty_iff in He.
      destruct Hm. congruence. }
    rewrite Hm. lia.
  - assert (Hd : doc_id md <> "").
    { intros Hd. apply is_empty_iff in Hd. congruence. }
    destruct (dm_mem (doc_id md) m) eqn:Hm.
    + unfold catalog_step. rewrite He, Hm. cbn [negb andb]. rewrite Hm.
      apply dm_update_sum; [exact Hnd | now apply dm_mem_In].
    + rewrite catalog_step_first; [| exact Hd |].
      * rewrite map_app, list_sum_app. reflexivity.
      * intros Hin. apply dm_mem_In in Hin. congruence.
Qed.

Lemma catalog_fold_sum mds :
  list_sum (map chunks_count (fold_left catalog_step mds []))
  = length (filter (fun md => negb (PyStr.is_empty (doc_id md))) mds).
Proof.
  induction mds as [| md mds IH] using rev_ind; [reflexivity |].
  rewrite fold_left_app. cbn [fold_left].
  rewrite (catalog_step_sum mds) by apply catalog_fold_inv.
  rewrite IH, filter_app, length_app. cbn [filter].
  now destruct (PyStr.is_empty (doc_id md)).
Qed.

Lemma known_row_has_doc_id n r : known_row n r -> has_doc_id r = true.
Proof.
  intros (_ & k & _ & Hd). unfold has_doc_id. now rewrite Hd.
Qed.

(** X11: the chunk counts of the listing add up to the number of stored
    chunks that carry a document id, so no chunk is counted twice and none
    is left out; every listed document has at least one chunk.  In a store
    that satisfies its invariant the counts add up to the size of the
    collection. *)
Theorem listing_counts_every_chunk svc w docs w' :
  get_all_documents svc w = (Ok docs, w') ->
  list_sum (map chunks_count docs) = length (filter has_doc_id (collection w))
  /\ Forall (fun e => 0 < chunks_count e) docs
  /\ (store_ok w ->
      list_sum (map chunks_count docs) = length (collection w)).
Proof.
  intros H. apply get_all_documents_ok in H. subst docs.
  assert (Hsum : list_sum (map chunks_count (catalog (collection w)))
                 = length (filter has_doc_id (collection w))).
  { rewrite catalog_eq.
    rewrite <- (Permutation_list_sum
                  (Permutation_map chunks_count
                     (sort_by_file_name_perm _))).
    rewrite catalog_fold_sum. clear.
    induction (collection w) as [| r rows IH]; [reflexivity |].
    cbn [map filter]. fold (has_doc_id r).
    destruct (has_doc_id r); cbn [length]; now rewrite IH. }
  split; [exact Hsum |]. split.
  - apply Forall_forall. intros e He.
    destruct (catalog_properties (collection w)) as (_ & _ & Hent & _).
    destruct (Hent e He) as (Hcount & (md & rest & Hgroup & _) & _).
    rewrite Hcount, Hgroup. cbn. lia.
  - intros (_ & Hknown & _). rewrite Hsum. f_equal.
    apply filter_all. eapply Forall_impl; [| exact Hknown].
    intros r. apply known_row_has_doc_id.
Qed.

(** The listing after the two uploads counts the four stored chunks. *)
Lemma listing_counts_every_chunk_witness :
  exists docs w',
    get_all_documents (Demo.svc [] "") Demo.w2 = (Ok docs, w')
    /\ map chunks_count docs = [1; 3]
    /\ list_sum (map chunks_count docs)
       = length (filter has_doc_id (collection Demo.w2))
    /\ length (collection Demo.w2) = 4.
Proof.
  destruct (get_all_documents (Demo.svc [] "") Demo.w2) as [r w'] eqn:Hrun.
  assert (Hr : r = Ok (catalog (collection Demo.w2))).
  { rewrite (get_all_documents_run (Demo.svc [] "") Demo.w2 eq_refl) in Hrun.
    congruence. }
  subst r. exists (catalog (collection Demo.w2)), w'.
  split; [reflexivity |]. split; [vm_compute; reflexivity |].
  split; [| vm_compute; reflexivity].
  exact (proj1 (listing_counts_every_chunk _ _ _ _ Hrun)).
Defined.

(** ** The upload route *)

Lemma upload_failed_spec (m : M uploaded) w :
  try_except m upload_failed w
  = match m w with
    | (Ok a, w') => (Ok a, w')
    | (Raise e, w') => (Raise (upload_error e), w')
    end.
Proof.
  unfold try_except. destruct (m w) as [[a | e] w']; [reflexivity |].
  now destruct e.
Qed.

Lemma upload_error_http e : exists code detail, upload_error e = HTTPException code detail.
Proof. destruct e; cbn; eauto. Qed.

Lemma length_zero_empty (s : string) :
  (N.of_nat (String.length s) =? 0)%N = true <-> s = "".
Proof.
  rewrite N.eqb_eq. destruct s; cbn; split; try congruence; try lia.
Qed.

(** The run of the route on a file that passes its checks. *)
Lemma upload_document_accepted svc os file name content w :
  accepted file name content ->
  upload_document svc os file w
  = match NamedTemporaryFile os ("." ++ extension_of name) content with
    | Raise e => (Raise (upload_error e), w)
    | Ok path =>
        let rw := process_and_store_document svc path name
                    (Some (now_isoformat os 0)) w in
        (match unlink os path with
         | Some e => Raise (upload_error e)
         | None =>
             match fst rw with
             | Ok st =>
                 Ok {| up_message := uploaded_message;
                       up_doc_id := st_doc_id st;
                       up_file_name := name;
                       up_chunks_created := chunks_created st;
                       up_upload_timestamp := now_isoformat os 0 |}
             | Raise e => Raise (upload_error e)
             end
         end, snd rw)
    end.
Proof.
  intros (Hname & Hne & Hext & Hread & Hcontent & Hsize).
  unfold upload_document. rewrite upload_failed_spec.
  rewrite Hname. cbn [truthy].
  assert (He : PyStr.is_empty name = false).
  { destruct name; [contradiction | reflexivity]. }
  rewrite He. cbn [negb].
  fold (extension_of name). fold supported_extensions. rewrite Hext.
  cbn [negb]. unfold bind at 1. rewrite Hread. unfold lift at 1.
  assert (Hbig : (MAX_FILE_SIZE <? N.of_nat (String.length content))%N = false).
  { apply N.ltb_ge. exact Hsize. }
  assert (Hzero : (N.of_nat (String.length content) =? 0)%N = false).
  { destruct (N.of_nat (String.length content) =? 0)%N eqn:Hz;
      [| reflexivity].
    apply length_zero_empty in Hz. contradiction. }
  rewrite Hbig, Hzero. unfold bind at 1, lift at 1.
  destruct (NamedTemporaryFile os ("." ++ extension_of name) content)
    as [path | e]; [| reflexivity].
  unfold finally_unlink, bind.
  destruct (process_and_store_document svc path name
              (Some (now_isoformat os 0)) w) as [[st | e] w'];
    cbn [fst snd ret]; destruct (unlink os path); reflexivity.
Qed.

(** The run of the route on a file that it turns away. *)
Lemma upload_document_turned_away svc os file w :
  turned_away file ->
  exists detail,
    upload_document svc os file w = (Raise (HTTPException 400 detail), w).
Proof.
  intros Hbad. unfold upload_document. rewrite upload_failed_spec.
  destruct (truthy (filename file)) eqn:Hname; cbn [negb];
    [| eexists; reflexivity].
  destruct (filename file) as [name |] eqn:Hfile; [| discriminate].
  fold (extension_of name). fold supported_extensions.
  destruct (PyStr.mem (extension_of name) supported_extensions) eqn:Hext;
    cbn [negb]; [| eexists; reflexivity].
  destruct Hbad as [Hbad | [(name' & Heq & Hbad) | (content & Hread & Hbad)]];
    [congruence | congruence |].
  unfold bind, lift. rewrite Hread.
  destruct (MAX_FILE_SIZE <? N.of_nat (String.length content))%N eqn:Hbig;
    [eexists; reflexivity |].
  destruct (N.of_nat (String.length content) =? 0)%N eqn:Hzero;
    [eexists; reflexivity |].
  exfalso. destruct Hbad as [-> | Hbad]; [discriminate |].
  apply N.ltb_ge in Hbig. lia.
Qed.

(** Every file is turned away, cannot be read, or is accepted. *)
Lemma upload_file_cases file :
  turned_away file
  \/ (exists e, read file = Raise e /\ truthy (filename file) = true
                /\ forall name, filename file = Some name ->
                     PyStr.mem (extension_of name) supported_extensions = true)
  \/ exists name content, accepted file name content.
Proof.
  unfold turned_away, accepted.
  destruct (filename file) as [name |] eqn:Hname; [| now left; left].
  destruct (PyStr.is_empty name) eqn:He.
  { left; left. cbn. now rewrite He. }
  destruct (PyStr.mem (extension_of name) supported_extensions) eqn:Hext.
  2:{ left; right; left. eauto. }
  destruct (read file) as [content | e] eqn:Hread.
  2:{ right; left. exists e. split; [reflexivity |]. split.
      - cbn. now rewrite He.
      - intros name' Heq. congruence. }
  destruct (String.eqb_spec content "") as [Hc | Hc].
  { left; right; right. eauto. }
  destruct (N.ltb_spec MAX_FILE_SIZE (N.of_nat (String.length content))).
  { left; right; right. eauto. }
  right; right. exists name, content.
  repeat split; try assumption; try reflexivity.
  intros ->. discriminate.
Qed.

Lemma upload_document_unreadable svc os file e w :
  read file = Raise e -> truthy (filename file) = true ->
  (forall name, filename file = Some name ->
     PyStr.mem (extension_of name) supported_extensions = true) ->
  upload_document svc os file w = (Raise (upload_error e), w).
Proof.
  intros Hread Hname Hext. unfold upload_document. rewrite upload_failed_spec.
  rewrite Hname. cbn [negb].
  destruct (filename file) as [name |]; [| discriminate].
  fold (extension_of name). fold supported_extensions.
  rewrite (Hext name eq_refl). cbn [negb]. unfold bind, lift.
  now rewrite Hread.
Qed.

(** X12: a failed upload is always an [HTTPException]: no [ValueError] and
    no exception of a library leaves the route.  It never takes an
    identifier back, and unless the removal of the temporary file fails it
    leaves the collection as it was.  A file without a name, with an
    extension other than pdf, docx, doc and txt, without content or with
    more than 50 MB of it is answered with status 400 before anything else
    happens: the state is untouched and no service has been called. *)
Theorem upload_failure_is_http svc os file w e w' :
  upload_document svc os file w = (Raise e, w') ->
  (exists code detail, e = HTTPException code detail)
  /\ uuids w <= uuids w'
  /\ ((forall path, unlink os path = None) -> collection w' = collection w)
  /\ (turned_away file -> exists detail, e = HTTPException 400 detail /\ w' = w).
Proof.
  intros H.
  assert (Hlast : turned_away file ->
                  exists detail, e = HTTPException 400 detail /\ w' = w).
  { intros Hbad.
    destruct (upload_document_turned_away svc os file w Hbad) as (d & Hd).
    rewrite Hd in H. inversion H; subst. eauto. }
  destruct (upload_file_cases file)
    as [Hbad | [(e0 & Hread & Hname & Hext) | (name & content & Hacc)]].
  - destruct (Hlast Hbad) as (d & -> & ->).
    split; [eauto |]. split; [lia |]. split; [reflexivity | exact Hlast].
  - rewrite (upload_document_unreadable _ _ _ _ _ Hread Hname Hext) in H.
    inversion H; subst. split; [apply upload_error_http |].
    split; [lia |]. split; [reflexivity | exact Hlast].
  - rewrite (upload_document_accepted _ _ _ _ _ _ Hacc) in H.
    destruct (NamedTemporaryFile os ("." ++ extension_of name) content)
      as [path | e0].
    2:{ inversion H; subst. split; [apply upload_error_http |].
        split; [lia |]. split; [reflexivity | exact Hlast]. }
    cbv zeta in H.
    destruct (process_and_store_document svc path name
                (Some (now_isoformat os 0)) w) as [r w1] eqn:Hrun.
    cbn [fst snd] in H.
    destruct (process_frame _ _ _ _ _ _ _ Hrun) as [Hu Hraise].
    assert (Hw : w1 = w') by (inversion H; reflexivity). subst w1.
    split; [| split; [exact Hu | split; [| exact Hlast]]].
    + destruct (unlink os path) as [e1 |].
      * inversion H. apply upload_error_http.
      * destruct r as [st | e1]; [discriminate |].
        inversion H. apply upload_error_http.
    + intros Hunlink. rewrite (Hunlink path) in H.
      destruct r as [st | e1]; [discriminate |]. now apply (Hraise e1).
Qed.

(** An archive is turned away; so are a file without content and a file
    without a name. *)
Lemma upload_failure_is_http_witness :
  upload_document (Demo.svc [] "") Host.demo Host.archive Demo.w1
  = (Raise (HTTPException 400 unsupported_type_detail), Demo.w1)
  /\ upload_document (Demo.svc [] "") Host.demo Host.empty_notes Demo.w1
     = (Raise (HTTPException 400 empty_file_detail), Demo.w1)
  /\ upload_document (Demo.svc [] "") Host.demo Host.unnamed Demo.w1
     = (Raise (HTTPException 400 "Filename is required."), Demo.w1)
  /\ ((exists code detail,
         HTTPException 400 unsupported_type_detail = HTTPException code detail)
      /\ uuids Demo.w1 <= uuids Demo.w1
      /\ ((forall path, unlink Host.demo path = None) ->
          collection Demo.w1 = collection Demo.w1)
      /\ (turned_away Host.archive ->
          exists detail,
            HTTPException 400 unsupported_type_detail = HTTPException 400 detail
            /\ Demo.w1 = Demo.w1)).
Proof.
  split; [vm_compute; reflexivity |]. split; [vm_compute; reflexivity |].
  split; [vm_compute; reflexivity |].
  apply (upload_failure_is_http (Demo.svc [] "") Host.demo Host.archive).
  vm_compute. reflexivity.
Defined.

(** A successful upload is a successful ingestion of the temporary file. *)
Lemma upload_document_ok svc os file w resp w' :
  upload_document svc os file w = (Ok resp, w') ->
  exists name content path st,
    accepted file name content
    /\ NamedTemporaryFile os ("." ++ extension_of name) content = Ok path
    /\ unlink os path = None
    /\ process_and_store_document svc path name (Some (now_isoformat os 0)) w
       = (Ok st, w')
    /\ resp = {| up_message := uploaded_message;
                 up_doc_id := st_doc_id st;
                 up_file_name := name;
                 up_chunks_created := chunks_created st;
                 up_upload_timestamp := now_isoformat os 0 |}.
Proof.
  intros H.
  destruct (upload_file_cases file)
    as [Hbad | [(e0 & Hread & Hname & Hext) | (name & content & Hacc)]].
  - destruct (upload_document_turned_away svc os file w Hbad) as (d & Hd).
    rewrite Hd in H. discriminate.
  - rewrite (upload_document_unreadable _ _ _ _ _ Hread Hname Hext) in H.
    discriminate.
  - rewrite (upload_document_accepted _ _ _ _ _ _ Hacc) in H.
    destruct (NamedTemporaryFile os ("." ++ extension_of name) content)
      as [path | e0] eqn:Htmp; [| discriminate].
    cbv zeta in H.
    destruct (process_and_store_document svc path name
                (Some (now_isoformat os 0)) w) as [r w1] eqn:Hrun.
    cbn [fst snd] in H.
    destruct (unlink os path) as [e1 |] eqn:Hunlink; [discriminate |].
    destruct r as [st | e1]; [| discriminate].
    inversion H; subst. exists name, content, path, st. auto.
Qed.

(** X13: a successful upload has stored what its response says.  The file
    had a name with an accepted extension and between one byte and 50 MB of
    content; the collection has grown by exactly [chunks_created] rows, which
    all carry the [doc_id] of the response, the name of the uploaded file
    (not that of the temporary file) and the timestamp of the response, and
    whose chunk indices are 0, 1, 2, ...; the temporary file has been
    removed; the store keeps its invariant. *)
Theorem upload_stores_the_document svc os file w resp w' :
  upload_document svc os file w = (Ok resp, w') ->
  exists name content path batch,
    accepted file name content
    /\ NamedTemporaryFile os ("." ++ extension_of name) content = Ok path
    /\ unlink os path = None
    /\ collection w' = collection w ++ batch
    /\ up_chunks_created resp = length batch
    /\ Forall (uploaded_as (up_doc_id resp) name
                 (Some (up_upload_timestamp resp))) batch
    /\ map (fun r => chunk_id (row_metadata r)) batch = seq 0 (length batch)
    /\ up_file_name resp = name
    /\ up_upload_timestamp resp = now_isoformat os 0
    /\ up_message resp = uploaded_message
    /\ (store_ok w -> store_ok w').
Proof.
  intros H.
  destruct (upload_document_ok _ _ _ _ _ _ H)
    as (name & content & path & st & Hacc & Htmp & Hunlink & Hrun & ->).
  cbn [up_doc_id up_chunks_created up_upload_timestamp up_file_name
       up_message].
  destruct (process_ok _ _ _ _ _ _ _ Hrun)
    as (_ & _ & _ & batch & _ & _ & Hcol & Hlen & _ & Hcids & _ & Hrows).
  exists name, content, path, batch.
  split; [exact Hacc |]. split; [exact Htmp |]. split; [exact Hunlink |].
  split; [exact Hcol |]. split; [exact Hlen |].
  split; [now apply (chunk_rows_uploaded _ _ _ (uuids w) (uuids w')) |].
  split; [exact Hcids |]. do 3 (split; [reflexivity |]).
  now apply (store_ok_upload _ _ _ _ _ _ _ Hrun).
Qed.

(** Uploading a report of three pages after the first document. *)
Lemma upload_stores_the_document_witness :
  exists resp w',
    upload_document (Demo.svc [] "") Host.demo Host.report Demo.w1
    = (Ok resp, w')
    /\ resp = {| up_message := uploaded_message;
                 up_doc_id := "uuid-4";
                 up_file_name := "Annual.Report.PDF";
                 up_chunks_created := 3;
                 up_upload_timestamp := "2024-05-03T12:00:00" |}
    /\ exists name content path batch,
         accepted Host.report name content
         /\ NamedTemporaryFile Host.demo ("." ++ extension_of name) content
            = Ok path
         /\ unlink Host.demo path = None
         /\ collection w' = collection Demo.w1 ++ batch
         /\ up_chunks_created resp = length batch
         /\ Forall (uploaded_as (up_doc_id resp) name
                      (Some (up_upload_timestamp resp))) batch
         /\ map (fun r => chunk_id (row_metadata r)) batch
            = seq 0 (length batch)
         /\ up_file_name resp = name
         /\ up_upload_timestamp resp = now_isoformat Host.demo 0
         /\ up_message resp = uploaded_message
         /\ (store_ok Demo.w1 -> store_ok w').
Proof.
  assert (Hr : fst (upload_document (Demo.svc [] "") Host.demo Host.report
                      Demo.w1)
               = Ok {| up_message := uploaded_message;
                       up_doc_id := "uuid-4";
                       up_file_name := "Annual.Report.PDF";
                       up_chunks_created := 3;
                       up_upload_timestamp := "2024-05-03T12:00:00" |}).
  { vm_compute. reflexivity. }
  destruct (upload_document (Demo.svc [] "") Host.demo Host.report Demo.w1)
    as [r w'] eqn:Hrun.
  cbn [fst] in Hr. subst r.
  eexists _, w'. split; [reflexivity |]. split; [reflexivity |].
  exact (upload_stores_the_document _ _ _ _ _ _ Hrun).
Defined.

Lemma extract_text_reads svc path name w r w1 :
  PyStr.mem (extension_of name) supported_extensions = true ->
  extract_text svc path name w = (r, w1) ->
  exists c, In c [CallPdfReader path; CallDocxDocument path; CallOpen path]
            /\ calls w1 = calls w ++ [c].
Proof.
  intros Hext H. unfold extract_text in H. fold (extension_of name) in H.
  unfold supported_extensions in Hext. cbn [PyStr.mem existsb] in Hext.
  cbn [PyStr.mem existsb] in H.
  destruct (String.eqb (extension_of name) "pdf") eqn:Hpdf.
  { exists (CallPdfReader path). split; [now left |].
    unfold extract_text_from_pdf, bind, external in H.
    destruct (pdf_pages svc (calls w) path); inversion H; reflexivity. }
  destruct (String.eqb (extension_of name) "docx") eqn:Hdocx;
    [| destruct (String.eqb (extension_of name) "doc") eqn:Hdoc ].
  1, 2: exists (CallDocxDocument path); (split; [right; now left |]);
    unfold extract_text_from_docx, bind, external in H; cbn [orb] in H;
    destruct (docx_paragraphs svc (calls w) path); inversion H; reflexivity.
  cbn [orb] in H, Hext. rewrite orb_false_r in Hext. rewrite Hext in H.
  exists (CallOpen path). split; [right; right; now left |].
  unfold extract_text_from_txt, bind, external in H.
  destruct (txt_read svc (calls w) path); inversion H; reflexivity.
Qed.

Lemma quiet_calls svc {A} (m : M A) w r w' :
  quiet svc m -> m w = (r, w') -> exists l, calls w' = calls w ++ l.
Proof.
  intros Hq H. destruct (Hq _ _ _ H) as (_ & _ & l & Hl & _). eauto.
Qed.

(** The first call of an ingestion reads the file, when the extension is one
    that the route accepts. *)
Lemma process_reads_first svc path name ts w r w1 :
  PyStr.mem (extension_of name) supported_extensions = true ->
  process_and_store_document svc path name ts w = (r, w1) ->
  exists c rest,
    In c [CallPdfReader path; CallDocxDocument path; CallOpen path]
    /\ calls w1 = calls w ++ c :: rest.
Proof.
  intros Hext H. unfold process_and_store_document, bind in H.
  destruct (extract_text svc path name w) as [[pages | e] w0] eqn:E1;
    destruct (extract_text_reads _ _ _ _ _ _ Hext E1) as (c & Hc & Hw0);
    exists c.
  2:{ inversion H; subst. exists []. auto. }
  destruct pages as [| pg pages].
  { inversion H; subst. exists []. auto. }
  destruct (uuid4 w0) as [[d | e] w2] eqn:E2;
    destruct (quiet_calls svc _ _ _ _ (quiet_uuid4 svc) E2) as (l2 & Hw2).
  2:{ inversion H; subst. exists l2. split; [exact Hc |].
      now rewrite Hw2, Hw0, <- app_assoc. }
  destruct (get_collection svc w2) as [[[] | e] w3] eqn:E3;
    destruct (quiet_calls svc _ _ _ _ (quiet_get_collection svc) E3)
      as (l3 & Hw3).
  2:{ inversion H; subst. exists (l2 ++ l3). split; [exact Hc |].
      now rewrite Hw3, Hw2, Hw0, <- !app_assoc. }
  destruct (fold_m (page_step svc d name ts) (pg :: pages) ([], 0) w3)
    as [[acc | e] w4] eqn:E4;
    destruct (quiet_calls svc _ _ _ _
                (quiet_fold_m svc _ (pg :: pages)
                   (quiet_page_step svc d name ts) _) E4) as (l4 & Hw4).
  2:{ inversion H; subst. exists (l2 ++ l3 ++ l4). split; [exact Hc |].
      now rewrite Hw4, Hw3, Hw2, Hw0, <- !app_assoc. }
  exists (l2 ++ l3 ++ l4 ++ [CallAdd (fst acc)]). split; [exact Hc |].
  unfold collection_add in H.
  destruct (collection_add_error svc (calls w4) (fst acc));
    inversion H; subst; cbn [calls set_calls set_collection];
    now rewrite Hw4, Hw3, Hw2, Hw0, <- !app_assoc.
Qed.

(** X14: what the route answers when the processing of an accepted file
    fails, the temporary file being written and removed without error.  A
    [ValueError] of the processing is answered with status 400 and its
    message, any other exception with status 500 and a fixed detail.  A
    document without text is thus answered with 400 "No text could be
    extracted from the document." and nothing is stored.  Whatever the
    outcome, the first call of the route is the reading of the temporary
    file by the reader of the extension: every extension that the route
    accepts is one that the extraction knows. *)
Theorem upload_reports_processing_errors svc os file name content path w :
  accepted file name content ->
  NamedTemporaryFile os ("." ++ extension_of name) content = Ok path ->
  unlink os path = None ->
  (forall e w1,
     process_and_store_document svc path name (Some (now_isoformat os 0)) w
     = (Raise e, w1) ->
     upload_document svc os file w
     = (Raise match e with
              | HTTPException _ _ => e
              | ValueError m => HTTPException 400 m
              | _ => HTTPException 500 upload_failed_detail
              end, w1))
  /\ (forall w1,
        extract_text svc path name w = (Ok [], w1) ->
        upload_document svc os file w
        = (Raise (HTTPException 400
                    "No text could be extracted from the document."), w1)
        /\ collection w1 = collection w /\ uuids w1 = uuids w)
  /\ (forall r w1,
        upload_document svc os file w = (r, w1) ->
        exists c rest,
          In c [CallPdfReader path; CallDocxDocument path; CallOpen path]
          /\ calls w1 = calls w ++ c :: rest).
Proof.
  intros Hacc Htmp Hunlink.
  pose proof (upload_document_accepted svc os file name content w Hacc) as Hrun.
  rewrite Htmp, Hunlink in Hrun. cbv zeta in Hrun.
  assert (Hfail : forall e w1,
            process_and_store_document svc path name
              (Some (now_isoformat os 0)) w = (Raise e, w1) ->
            upload_document svc os file w = (Raise (upload_error e), w1)).
  { intros e w1 He. rewrite Hrun, He. reflexivity. }
  split; [exact Hfail |]. split.
  - intros w1 Hblank.
    assert (Hp : process_and_store_document svc path name
                   (Some (now_isoformat os 0)) w
                 = (Raise (ValueError
                      "No text could be extracted from the document."), w1)).
    { unfold process_and_store_document, bind. now rewrite Hblank. }
    split; [exact (Hfail _ _ Hp) |].
    destruct (quiet_extract_text svc _ _ _ _ _ Hblank) as (Hc & Hu & _).
    split; [exact Hc |].
    destruct Hacc as (_ & _ & Hext & _).
    destruct (extract_text_reads _ _ _ _ _ _ Hext Hblank) as (c & _ & Hcalls).
    unfold extract_text in Hblank. fold (extension_of name) in Hblank.
    repeat match type of Hblank with
           | (if ?b then _ else _) _ = _ => destruct b
           end;
      unfold extract_text_from_pdf, extract_text_from_docx,
        extract_text_from_txt, bind, external, raise in Hblank;
      repeat match type of Hblank with
             | match ?x with _ => _ end = _ => destruct x
             end;
      inversion Hblank; reflexivity.
  - intros r w1 Hup. rewrite Hrun in Hup.
    destruct (process_and_store_document svc path name
                (Some (now_isoformat os 0)) w) as [r0 w0] eqn:Hp.
    cbn [fst snd] in Hup. inversion Hup; subst.
    destruct Hacc as (_ & _ & Hext & _).
    exact (process_reads_first _ _ _ _ _ _ _ Hext Hp).
Qed.

(** A scanned report without any text, and a report whose second chunk
    cannot be embedded. *)
Lemma upload_reports_processing_errors_witness :
  upload_document Cases.scanned Host.demo Host.report Demo.w1
  = (Raise (HTTPException 400 "No text could be extracted from the document."),
     set_calls (calls Demo.w1 ++ [CallPdfReader "/tmp/tmpk3v9.pdf"]) Demo.w1)
  /\ exists w1,
       upload_document (Demo.svc [] "gamma") Host.demo Host.report Demo.w1
       = (Raise (HTTPException 500 upload_failed_detail), w1)
       /\ collection w1 = collection Demo.w1.
Proof.
  assert (Hacc : accepted Host.report "Annual.Report.PDF" "%PDF-1.7 ...").
  { unfold accepted. repeat split; try reflexivity; try discriminate. }
  split.
  - destruct (upload_reports_processing_errors Cases.scanned Host.demo
                Host.report "Annual.Report.PDF" "%PDF-1.7 ..."
                "/tmp/tmpk3v9.pdf" Demo.w1 Hacc eq_refl eq_refl)
      as (_ & Hblank & _).
    apply Hblank. vm_compute. reflexivity.
  - destruct (upload_reports_processing_errors (Demo.svc [] "gamma") Host.demo
                Host.report "Annual.Report.PDF" "%PDF-1.7 ..."
                "/tmp/tmpk3v9.pdf" Demo.w1 Hacc eq_refl eq_refl)
      as (Hfail & _ & _).
    destruct (process_and_store_document (Demo.svc [] "gamma")
                "/tmp/tmpk3v9.pdf" "Annual.Report.PDF"
                (Some (now_isoformat Host.demo 0)) Demo.w1)
      as [r w1] eqn:Hrun.
    assert (Hr : fst (process_and_store_document (Demo.svc [] "gamma")
                        "/tmp/tmpk3v9.pdf" "Annual.Report.PDF"
                        (Some (now_isoformat Host.demo 0)) Demo.w1)
                 = Raise (Exception "503 Service Unavailable")).
    { vm_compute. reflexivity. }
    rewrite Hrun in Hr. cbn [fst] in Hr. subst r.
    exists w1. split; [exact (Hfail _ _ eq_refl) |].
    destruct (process_frame _ _ _ _ _ _ _ Hrun) as [_ Hsame].
    exact (Hsame _ eq_refl).
Defined.

(** ** The listing route *)

Lemma last_updated_documents os docs : forall n,
  map l_document (last_updated_loop os n docs) = docs.
Proof.
  induction docs as [| doc docs IH]; intros n; cbn; [reflexivity |].
  destruct (d_upload_timestamp doc) as [t |];
    [destruct (PyStr.is_empty t) |]; cbn; now rewrite IH.
Qed.

Lemma last_updated_stamped os docs e t : forall n,
  In e docs -> d_upload_timestamp e = Some t -> t <> "" ->
  In {| l_document := e; last_updated := t |} (last_updated_loop os n docs).
Proof.
  induction docs as [| doc docs IH]; intros n Hin Ht Hne; [contradiction |].
  assert (Hstep : forall x, exists m,
            In x (last_updated_loop os m docs) ->
            In x (last_updated_loop os n (doc :: docs))).
  { intros x. cbn.
    destruct (d_upload_timestamp doc) as [t' |];
      [destruct (PyStr.is_empty t') |]; cbn; eauto. }
  destruct Hin as [-> | Hin].
  - cbn. rewrite Ht.
    assert (He : PyStr.is_empty t = false).
    { destruct t; [contradiction | reflexivity]. }
    rewrite He. now left.
  - destruct (Hstep {| l_document := e; last_updated := t |}) as (m & Hm).
    apply Hm. now apply IH.
Qed.

Lemma list_documents_run svc os w :
  list_documents svc os w
  = match get_all_documents svc w with
    | (Ok documents, w') => (Ok (last_updated_loop os 0 documents), w')
    | (Raise _, w') =>
        (Raise (HTTPException 500
                  "Error retrieving documents. Please try again."), w')
    end.
Proof.
  unfold list_documents, try_except, bind.
  now destruct (get_all_documents svc w) as [[docs | e] w'].
Qed.

(** X15: an uploaded document is listed with the time of its upload.  After
    a successful upload of at least one chunk, at a time whose ISO form is
    not empty, into a store that satisfies its invariant, every later
    listing that succeeds has one document more than the catalog had
    before; it shows the new document with the [doc_id], the file name and
    the number of chunks of the upload response, and [last_updated] is the
    upload timestamp, whatever the clock says at the time of the listing.
    A listing that fails is answered with status 500 and a fixed detail.
    Either way the listing leaves the collection as it is. *)
Theorem uploaded_document_is_listed svc os file w resp w1 os' r w2 :
  store_ok w ->
  upload_document svc os file w = (Ok resp, w1) ->
  0 < up_chunks_created resp ->
  up_upload_timestamp resp <> "" ->
  list_documents svc os' w1 = (r, w2) ->
  collection w2 = collection w1
  /\ match r with
     | Raise e =>
         e = HTTPException 500 "Error retrieving documents. Please try again."
     | Ok docs =>
         In {| l_document :=
                 entry_of (up_doc_id resp) (up_file_name resp)
                   (up_chunks_created resp) (Some (up_upload_timestamp resp));
               last_updated := up_upload_timestamp resp |} docs
         /\ length docs = S (length (catalog (collection w)))
         /\ map l_document docs = catalog (collection w1)
     end.
Proof.
  intros Hok Hup Hpos Hnow Hlist.
  rewrite list_documents_run in Hlist.
  destruct (get_all_documents svc w1) as [r1 w2'] eqn:Hget.
  destruct (keeps_get_all_documents svc _ _ _ Hget) as [Hc _].
  destruct r1 as [docs | e]; inversion Hlist; subst; clear Hlist;
    (split; [exact Hc |]); [| reflexivity].
  apply get_all_documents_ok in Hget. subst docs.
  destruct (upload_document_ok _ _ _ _ _ _ Hup)
    as (name & content & path & st & _ & _ & _ & Hrun & ->).
  cbn [up_doc_id up_chunks_created up_upload_timestamp up_file_name] in *.
  destruct (process_ok _ _ _ _ _ _ _ Hrun)
    as (_ & _ & _ & batch & _ & _ & Hcol & Hlen & _ & _
        & (k & Hk & Hd) & Hrows).
  destruct Hok as (_ & Hknown & _).
  destruct (catalog_after_upload (st_doc_id st) name
              (Some (now_isoformat os 0)) (collection w) batch)
    as (before & after & Hnew & Hold).
  - rewrite Hd. apply uuid_str_nonempty.
  - destruct batch; [cbn in Hlen; lia | discriminate].
  - eapply Forall_impl; [| exact Hknown].
    intros x (_ & k' & Hk' & Hx). rewrite Hx, Hd. intros Heq.
    apply uuid_str_inj in Heq. lia.
  - now apply (chunk_rows_uploaded _ _ _ (uuids w) (uuids w1)).
  - rewrite Hcol, Hnew, Hold, Hlen. split; [| split].
    + apply last_updated_stamped; [| reflexivity | exact Hnow].
      apply in_or_app. right. now left.
    + rewrite <- (length_map l_document), last_updated_documents.
      rewrite !length_app. cbn [length]. lia.
    + apply last_updated_documents.
Qed.

(** The report uploaded at noon is listed with that time, also by a
    listing on a host with another clock. *)
Lemma uploaded_document_is_listed_witness :
  exists resp w1 docs w2,
    upload_document (Demo.svc [] "") Host.demo Host.report Demo.w1
    = (Ok resp, w1)
    /\ list_documents (Demo.svc [] "") Host.locked w1 = (Ok docs, w2)
    /\ map last_updated docs = ["2024-05-03T12:00:00"; "2024-05-01T10:00:00"]
    /\ In {| l_document :=
               entry_of "uuid-4" "Annual.Report.PDF" 3
                 (Some "2024-05-03T12:00:00");
             last_updated := "2024-05-03T12:00:00" |} docs
    /\ length docs = S (length (catalog (collection Demo.w1))).
Proof.
  assert (Hr : fst (upload_document (Demo.svc [] "") Host.demo Host.report
                      Demo.w1)
               = Ok {| up_message := uploaded_message;
                       up_doc_id := "uuid-4";
                       up_file_name := "Annual.Report.PDF";
                       up_chunks_created := 3;
                       up_upload_timestamp := "2024-05-03T12:00:00" |}).
  { vm_compute. reflexivity. }
  assert (Hl : exists docs,
             fst (list_documents (Demo.svc [] "") Host.locked
                    (snd (upload_document (Demo.svc [] "") Host.demo
                            Host.report Demo.w1))) = Ok docs
             /\ map last_updated docs
                = ["2024-05-03T12:00:00"; "2024-05-01T10:00:00"]).
  { eexists. split; vm_compute; reflexivity. }
  destruct (upload_document (Demo.svc [] "") Host.demo Host.report Demo.w1)
    as [r w1] eqn:Hup.
  cbn [fst snd] in Hr, Hl. subst r. destruct Hl as (docs & Hdocs & Hstamps).
  destruct (list_documents (Demo.svc [] "") Host.locked w1) as [r w2] eqn:Hlist.
  cbn [fst] in Hdocs. subst r.
  assert (Hok : store_ok Demo.w1).
  { unfold Demo.w1. eapply store_ok_upload; [apply surjective_pairing |].
    now apply store_ok_empty. }
  destruct (uploaded_document_is_listed _ _ _ _ _ _ _ _ _ Hok Hup
              ltac:(cbn; lia) ltac:(discriminate) Hlist) as (_ & Hin & Hlen & _).
  eexists _, w1, docs, w2. split; [reflexivity |]. split; [exact Hlist |].
  split; [exact Hstamps |]. split; [exact Hin | exact Hlen].
Defined.

(** ** The older deletion route *)

(** X16: the deletion route of the older [main.py] never answers 404.  Its
    [except Exception] takes the [HTTPException] that the route raises for
    an unknown document, so that every failure, the unknown document
    included, is answered with status 500 and the same detail.  When it
    succeeds, the scroll has found at least one point, the deletion of
    exactly those points has succeeded, and the message counts them. *)
Theorem legacy_delete_never_answers_404 (svc : LegacyDocuments.services) d :
  (forall e, LegacyDocuments.delete_document svc d = Raise e ->
     e = HTTPException 500 "Error deleting document. Please try again.")
  /\ (LegacyDocuments.qdrant_scroll svc d = Ok [] ->
      LegacyDocuments.delete_document svc d
      = Raise (HTTPException 500 "Error deleting document. Please try again."))
  /\ (forall b, LegacyDocuments.delete_document svc d = Ok b ->
        exists ids,
          LegacyDocuments.qdrant_scroll svc d = Ok ids /\ ids <> []
          /\ LegacyDocuments.qdrant_delete svc ids = Ok tt
          /\ b = deleted_message (length ids) d).
Proof.
  unfold LegacyDocuments.delete_document, LegacyDocuments.delete_document_body,
    Legacy.and_then.
  split; [| split].
  - intros e H.
    destruct (LegacyDocuments.qdrant_scroll svc d) as [[| i ids] | e0];
      try destruct (LegacyDocuments.qdrant_delete svc (i :: ids));
      congruence.
  - now intros ->.
  - intros b H.
    destruct (LegacyDocuments.qdrant_scroll svc d) as [[| i ids] | e0];
      try discriminate.
    destruct (LegacyDocuments.qdrant_delete svc (i :: ids)) as [[] | e1] eqn:Hdel;
      [| discriminate].
    exists (i :: ids). split; [reflexivity |]. split; [discriminate |].
    split; [exact Hdel |]. inversion H. reflexivity.
Qed.

(** ** The configuration status *)

Lemma get_llm_client_status svc w r w1 :
  llm_client w = None \/ llm_error w = None ->
  get_llm_client svc w = (r, w1) ->
  (llm_client w1 = None \/ llm_error w1 = None)
  /\ embeddings_client w1 = embeddings_client w
  /\ embeddings_error w1 = embeddings_error w
  /\ r = match llm_error w1 with
         | Some m =>
             if PyStr.is_empty m then Ok (llm_client w1)
             else Raise (ValueError ("LLM client not initialized: " ++ m))
         | None => Ok (llm_client w1)
         end
  /\ (llm_client w = None -> llm_error w = None ->
      is_not_None (llm_client w1) = negb (is_not_None (llm_error w1))).
Proof.
  unfold get_llm_client. intros Hinv H.
  destruct (llm_client w) eqn:Hc, (llm_error w) eqn:He;
    try (destruct Hinv; discriminate);
    repeat match type of H with
      | context [match ?x with _ => _ end] => destruct x eqn:?
      end;
    inversion H; subst; cbn in *;
    repeat match goal with
      | E : Some _ = Some _ |- _ => injection E as E; subst
      | E : ?x = _ |- context [?x] => rewrite E
      end;
    repeat split; auto; try congruence.
Qed.

Lemma get_embeddings_client_status svc w r w1 :
  embeddings_client w = None \/ embeddings_error w = None ->
  get_embeddings_client svc w = (r, w1) ->
  (embeddings_client w1 = None \/ embeddings_error w1 = None)
  /\ llm_client w1 = llm_client w
  /\ llm_error w1 = llm_error w
  /\ r = match embeddings_error w1 with
         | Some m =>
             if PyStr.is_empty m then Ok (embeddings_client w1)
             else Raise (ValueError
                           ("Embeddings client not initialized: " ++ m))
         | None => Ok (embeddings_client w1)
         end
  /\ (embeddings_client w = None -> embeddings_error w = None ->
      is_not_None (embeddings_client w1)
      = negb (is_not_None (embeddings_error w1))).
Proof.
  unfold get_embeddings_client. intros Hinv H.
  destruct (embeddings_client w) eqn:Hc, (embeddings_error w) eqn:He;
    try (destruct Hinv; discriminate);
    repeat match type of H with
      | context [match ?x with _ => _ end] => destruct x eqn:?
      end;
    inversion H; subst; cbn in *;
    repeat match goal with
      | E : Some _ = Some _ |- _ => injection E as E; subst
      | E : ?x = _ |- context [?x] => rewrite E
      end;
    repeat split; auto; try congruence.
Qed.

(** X17: the configuration status reports what the lazy initialisation
    did.  From a state in which no client is recorded together with an
    error, after a call of [get_llm_client] the status says [initialized]
    exactly when the call returned a client, its [error] (when not empty) is
    the message that the call raised, and [initialized] and [error] are
    never both set; the other client's part of the status is unchanged, and
    the state is again one of that kind.  The same holds for
    [get_embeddings_client].  A key that is set but empty is reported as
    present, although the initialisation fails on it as on a missing key. *)
Theorem config_status_reports_initialisation svc w :
  clients_ok w ->
  (forall r w1,
     get_llm_client svc w = (r, w1) ->
     exists s s0,
       get_api_config_status svc w1 = (Ok s, w1)
       /\ get_api_config_status svc w = (Ok s0, w)
       /\ clients_ok w1
       /\ (ds_initialized (deepseek s) = true <-> exists c, r = Ok (Some c))
       /\ (forall m, ds_error (deepseek s) = Some m -> m <> "" ->
             r = Raise (ValueError ("LLM client not initialized: " ++ m)))
       /\ (ds_initialized (deepseek s) = true -> ds_error (deepseek s) = None)
       /\ huggingface s = huggingface s0)
  /\ (forall r w1,
        get_embeddings_client svc w = (r, w1) ->
        exists s s0,
          get_api_config_status svc w1 = (Ok s, w1)
          /\ get_api_config_status svc w = (Ok s0, w)
          /\ clients_ok w1
          /\ (hf_initialized (huggingface s) = true
              <-> exists c, r = Ok (Some c))
          /\ (forall m, hf_error (huggingface s) = Some m -> m <> "" ->
                r = Raise (ValueError
                             ("Embeddings client not initialized: " ++ m)))
          /\ (hf_initialized (huggingface s) = true ->
              hf_error (huggingface s) = None)
          /\ deepseek s = deepseek s0)
  /\ (getenv svc "DEEPSEEK_API_KEY" = Some "" ->
      llm_client w = None -> llm_error w = None ->
      exists s w1,
        get_api_config_status svc (snd (get_llm_client svc w)) = (Ok s, w1)
        /\ ds_api_key_present (deepseek s) = true
        /\ ds_initialized (deepseek s) = false
        /\ ds_error (deepseek s)
           = Some "DEEPSEEK_API_KEY not found in environment variables").
Proof.
  intros (Hl & Hh). split; [| split].
  - intros r w1 H.
    destruct (get_llm_client_status _ _ _ _ Hl H)
      as (Hl1 & Hc & He & Hr & _).
    eexists _, _. split; [reflexivity |]. split; [reflexivity |].
    cbn [deepseek huggingface ds_initialized ds_error].
    split; [split; [exact Hl1 | rewrite Hc, He; exact Hh] |].
    split; [| split; [| split]].
    + rewrite Hr. destruct (llm_client w1) as [c |], (llm_error w1) as [m |];
        cbn; try (destruct Hl1; discriminate).
      * split; [eauto | reflexivity].
      * split; [discriminate |]. intros (c & Hc').
        destruct (PyStr.is_empty m); discriminate.
      * split; [discriminate |]. intros (c & Hc'). discriminate.
    + intros m Hm Hne. rewrite Hr, Hm.
      destruct m; [contradiction | reflexivity].
    + destruct (llm_client w1), (llm_error w1); cbn; try reflexivity;
        try discriminate. destruct Hl1; discriminate.
    + now rewrite Hc, He.
  - intros r w1 H.
    destruct (get_embeddings_client_status _ _ _ _ Hh H)
      as (Hh1 & Hc & He & Hr & _).
    eexists _, _. split; [reflexivity |]. split; [reflexivity |].
    cbn [deepseek huggingface hf_initialized hf_error].
    split; [split; [rewrite Hc, He; exact Hl | exact Hh1] |].
    split; [| split; [| split]].
    + rewrite Hr.
      destruct (embeddings_client w1) as [c |],
               (embeddings_error w1) as [m |];
        cbn; try (destruct Hh1; discriminate).
      * split; [eauto | reflexivity].
      * split; [discriminate |]. intros (c & Hc').
        destruct (PyStr.is_empty m); discriminate.
      * split; [discriminate |]. intros (c & Hc'). discriminate.
    + intros m Hm Hne. rewrite Hr, Hm.
      destruct m; [contradiction | reflexivity].
    + destruct (embeddings_client w1), (embeddings_error w1); cbn;
        try reflexivity; try discriminate. destruct Hh1; discriminate.
    + now rewrite Hc, He.
  - intros Hkey Hc He. eexists _, _. split; [reflexivity |].
    unfold get_llm_client. rewrite Hc, He, Hkey. cbn. auto.
Qed.

(** Without any key in the environment. *)
Lemma config_status_reports_initialisation_witness :
  exists w1 s,
    get_llm_client Cases.no_keys Demo.w0
    = (Raise (ValueError "LLM client not initialized: DEEPSEEK_API_KEY not found in environment variables"), w1)
    /\ get_api_config_status Cases.no_keys w1 = (Ok s, w1)
    /\ deepseek s
       = {| ds_api_key_present := false; ds_initialized := false;
            ds_error := Some "DEEPSEEK_API_KEY not found in environment variables" |}
    /\ (ds_initialized (deepseek s) = true
        <-> exists c : string,
              Raise (ValueError "LLM client not initialized: DEEPSEEK_API_KEY not found in environment variables")
              = Ok (Some c)).
Proof.
  assert (Hok : clients_ok Demo.w0) by (split; now left).
  destruct (config_status_reports_initialisation Cases.no_keys Demo.w0 Hok)
    as (Hllm & _ & _).
  destruct (Hllm _ _ eq_refl) as (s & s0 & Hs & _ & _ & Hinit & _).
  eexists _, s. split; [reflexivity |]. split; [exact Hs |].
  split; [| exact Hinit].
  inversion Hs. reflexivity.
Defined.
